(** * Data_debugger: the table normalizer and the compliance evaluator

    A shallow embedding of [data_processor.py] (class [DataProcessor]) and of
    [electrical_analyzer_v2.py] (class [ElectricalAnalyzerV2]), with
    [detect_file_type] of [app_v2.py] and [_calculate_validation_score] of
    [database_manager_v2.py], which call on the analyzer.

    Conventions of the embedding.
    - A pandas [DataFrame] is a list of labelled columns; every column
      carries its dtype and its cells.  The row index is not represented.
    - [float64] and [int64] columns share the dtype [numeric]; a value is
      the rational number the cell holds, and [Frame.b64] is the rounding
      of a rational number to binary64.  Infinities, overflow and whole
      numbers of [int64] beyond [2 ^ 53] are outside the model.  [NaN] is
      the missing cell (it also stands for [None] and [NaT]).
    - [DataProcessor] rounds where the code does: in the number read in a
      text, in the wrapping of a phase and in the cast to [int64]; the
      line that [interpolate] draws through two numbers is that of the
      rational numbers.
    - The records of the analyzer are embedded twice: in
      [ElectricalAnalyzerV2] over the rational numbers, where the counts,
      the flags and the bounds of the records are studied, and in
      [Binary64] with the rounding of every operation, where the values of
      the limits and of the percentages are.  [values.sum()] is a
      parameter of [Binary64]: the order in which pandas adds the values
      is not the repository's.
    - Labels and texts are byte strings; the character classes of [re] and
      of [str] are the ASCII ones.
    - A boolean mask that shares the index of the rows selects them by
      position.  pandas looks a boolean [Series] up by the labels of the
      axis and raises [IndexingError] when a label is not in the index of
      the [Series]: so it does with the mask of [_clean_column_names],
      whose index is a fresh range of numbers while the labels of the
      columns are texts.
    - Of the exceptions of pandas, the embedding has that [IndexingError],
      the [AttributeError] of [.str] and [.dtype] on the [DataFrame] that
      [df[col]] is when several columns carry the label [col], and the
      [TypeError] of [pd.to_numeric] on such a [DataFrame].
    - Reading a file is not represented: [analyze_file] and
      [validate_file_format] start from the frame [pd.read_excel] gives.
      What [pd.to_numeric] and [pd.to_datetime] read in a text are
      parameters, [to_numeric_text] and [parse_datetime]; time stamps of
      results are left out. *)

From Stdlib Require Import Bool Arith ZArith QArith Qround Qabs Qpower Lia Lqa List Sorted
  Ascii String.
Import ListNotations.

Close Scope Q_scope.
Open Scope string_scope.

(* ================================================================== *)
(** ** Text: the [str] and [re] operations the two classes use *)

Module Text.

Definition code (c : ascii) : nat := nat_of_ascii c.

Definition between (lo hi : nat) (c : ascii) : bool :=
  (lo <=? code c)%nat && (code c <=? hi)%nat.

Definition is_upper : ascii -> bool := between 65 90.
Definition is_lower : ascii -> bool := between 97 122.

(** [\d] *)
Definition is_digit : ascii -> bool := between 48 57.

(** [\w] *)
Definition is_word (c : ascii) : bool :=
  is_upper c || is_lower c || is_digit c || Ascii.eqb c "_".

(** [\s], and the characters [str.strip] removes *)
Definition is_space (c : ascii) : bool := between 9 13 c || between 28 32 c.

Definition lower_char (c : ascii) : ascii :=
  if is_upper c then ascii_of_nat (code c + 32) else c.

(** [s.lower()] *)
Fixpoint lower (s : string) : string :=
  match s with
  | EmptyString => EmptyString
  | String c t => String (lower_char c) (lower t)
  end.

(** [s[len(p):]] when [s.startswith(p)] *)
Fixpoint strip_prefix (p s : string) : option string :=
  match p, s with
  | EmptyString, _ => Some s
  | String _ _, EmptyString => None
  | String a p', String b s' => if Ascii.eqb a b then strip_prefix p' s' else None
  end.

(** [s.startswith(p)] *)
Definition startswith (p s : string) : bool :=
  match strip_prefix p s with Some _ => true | None => false end.

(** [p in s] *)
Fixpoint contains (p s : string) : bool :=
  startswith p s ||
  match s with
  | EmptyString => false
  | String _ t => contains p t
  end.

(** [re.sub] of the complement of a character class by the empty string *)
Fixpoint keep (f : ascii -> bool) (s : string) : string :=
  match s with
  | EmptyString => EmptyString
  | String c t => if f c then String c (keep f t) else keep f t
  end.

Fixpoint lstrip (s : string) : string :=
  match s with
  | EmptyString => EmptyString
  | String c t => if is_space c then lstrip t else s
  end.

Fixpoint rstrip (s : string) : string :=
  match s with
  | EmptyString => EmptyString
  | String c t =>
      match rstrip t with
      | EmptyString => if is_space c then EmptyString else String c EmptyString
      | r => String c r
      end
  end.

(** [s.strip()] *)
Definition strip (s : string) : string := rstrip (lstrip s).

(** [re.sub(r'\s+', '_', s)]: [in_run] tells that the previous character
    was white space, whose run has already been replaced. *)
Fixpoint sub_spaces (in_run : bool) (s : string) : string :=
  match s with
  | EmptyString => EmptyString
  | String c t =>
      if is_space c
      then (if in_run then sub_spaces true t else String "_" (sub_spaces true t))
      else String c (sub_spaces false t)
  end.

(** The longest prefix of digits, and what follows it: the greedy [\d+]. *)
Fixpoint span_digits (s : string) : string * string :=
  match s with
  | EmptyString => (EmptyString, EmptyString)
  | String c t =>
      if is_digit c
      then let (ds, r) := span_digits t in (String c ds, r)
      else (EmptyString, s)
  end.

Definition digit_value (c : ascii) : N := N.of_nat (code c - 48).

Fixpoint int_of_digits (acc : N) (s : string) : N :=
  match s with
  | EmptyString => acc
  | String c t => int_of_digits (10 * acc + digit_value c)%N t
  end.

(** [int(ds)] for a string of decimal digits *)
Definition int (ds : string) : N := int_of_digits 0%N ds.

Definition all_digits (s : string) : bool := String.eqb (keep is_digit s) s.

End Text.

(* ================================================================== *)
(** ** Frame: the part of pandas the two classes rely on *)

Module Frame.

Inductive cell : Type :=
| NaN
| Str (s : string)
| Num (q : Q).

(** [numeric] stands for [float64] and [int64]. *)
Inductive DType : Type := object | numeric | datetime64.

Record Series : Type := mkSeries {
  name : string;
  dtype : DType;
  values : list cell
}.

Definition DataFrame : Type := list Series.

(** [df.columns] *)
Definition columns (df : DataFrame) : list string := map name df.

(** [len(df)] *)
Definition len (df : DataFrame) : nat :=
  match df with
  | [] => 0
  | s :: _ => List.length (values s)
  end.

(** [df.empty] *)
Definition empty (df : DataFrame) : bool := (len df =? 0)%nat.

(** Every column has one cell per row. *)
Definition aligned (df : DataFrame) : Prop :=
  forall s, In s df -> List.length (values s) = len df.

(** [df[col]]: the columns that carry the label.  One column is a [Series];
    several are a [DataFrame], which has neither [dtype] nor [str]. *)
Definition getitem (df : DataFrame) (col : string) : list Series :=
  filter (fun s => String.eqb (name s) col) df.

Definition isna (c : cell) : bool :=
  match c with NaN => true | _ => false end.

(** [pd.api.types.is_numeric_dtype(df[col])] *)
Definition is_numeric_dtype (sel : list Series) : bool :=
  match sel with
  | [s] => match dtype s with numeric => true | _ => false end
  | _ => false
  end.

(** The numbers of [series.dropna()] *)
Fixpoint dropna (l : list cell) : list Q :=
  match l with
  | [] => []
  | Num q :: t => q :: dropna t
  | _ :: t => dropna t
  end.

Definition Qltb (a b : Q) : bool := negb (Qle_bool b a).

Definition Qsum (l : list Q) : Q := fold_right Qplus 0%Q l.

(** [values.mean()], over the rational numbers *)
Definition mean (l : list Q) : Q := (Qsum l / inject_Z (Z.of_nat (List.length l)))%Q.

Definition Qmaxb (a b : Q) : Q := if Qle_bool a b then b else a.
Definition Qminb (a b : Q) : Q := if Qle_bool a b then a else b.

(** [values.max()] and [values.min()] of a series that is not empty *)
Definition maximum (l : list Q) : Q :=
  match l with
  | [] => 0%Q
  | x :: t => fold_left Qmaxb t x
  end.

Definition minimum (l : list Q) : Q :=
  match l with
  | [] => 0%Q
  | x :: t => fold_left Qminb t x
  end.

(** Rounding to the nearest integer, ties to the even one. *)
Definition round_half_even (q : Q) : Z :=
  let f := Qfloor q in
  match Qcompare (q - inject_Z f) (1 # 2) with
  | Lt => f
  | Gt => (f + 1)%Z
  | Eq => if Z.even f then f else (f + 1)%Z
  end.

(** [round(q, ndigits)], over the rational numbers: the nearest number
    of [ndigits] decimals, ties to the even one *)
Definition round (q : Q) (ndigits : nat) : Q :=
  let scale := inject_Z (10 ^ Z.of_nat ndigits) in
  (inject_Z (round_half_even (q * scale)) / scale)%Q.

Definition set_values (s : Series) (v : list cell) : Series :=
  mkSeries (name s) (dtype s) v.

(** The rows of the frame: the cells of each column are put in front of
    the cells the columns after it give to the rows. *)
Fixpoint zip_cons (cells : list cell) (rs : list (list cell)) : list (list cell) :=
  match cells, rs with
  | c :: cells', r :: rs' => (c :: r) :: zip_cons cells' rs'
  | _, _ => []
  end.

Definition rows (df : DataFrame) : list (list cell) :=
  fold_right (fun s rs => zip_cons (values s) rs) (repeat [] (len df)) df.

(** [l[mask]] *)
Fixpoint select {A : Type} (mask : list bool) (l : list A) : list A :=
  match mask, l with
  | b :: m, x :: t => if b then x :: select m t else select m t
  | _, _ => []
  end.

(** [df[mask]] and [df.loc[mask]]: the rows where the mask holds *)
Definition select_rows (mask : list bool) (df : DataFrame) : DataFrame :=
  map (fun s => set_values s (select mask (values s))) df.

(** The mask of the rows a predicate on rows holds of. *)
Definition row_mask (p : list cell -> bool) (df : DataFrame) : list bool :=
  map p (rows df).

(** The mask a comparison of a numeric series with a number gives; a
    comparison with a missing value is false. *)
Definition compare_mask (p : Q -> bool) (s : Series) : list bool :=
  map (fun c => match c with Num q => p q | _ => false end) (values s).

(** [df[col] = series], for a label that one column carries *)
Definition setitem (df : DataFrame) (col : string) (new : Series) : DataFrame :=
  map (fun s => if String.eqb (name s) col
                then mkSeries (name s) (dtype new) (values new)
                else s) df.

(** Equality of cells as [duplicated] sees it: missing values are equal. *)
Definition cell_eqb (a b : cell) : bool :=
  match a, b with
  | NaN, NaN => true
  | Str s, Str t => String.eqb s t
  | Num p, Num q => Qeq_bool p q
  | _, _ => false
  end.

Fixpoint row_eqb (r1 r2 : list cell) : bool :=
  match r1, r2 with
  | [], [] => true
  | a :: t1, b :: t2 => cell_eqb a b && row_eqb t1 t2
  | _, _ => false
  end.

(** The exponent of a number that is not 0: the whole part of the binary
    logarithm of its magnitude. *)
Definition ilog2 (q : Q) : Z :=
  let a := Qabs q in
  if Qle_bool 1 a then Z.log2 (Qfloor a) else (- Z.log2_up (Qceiling (/ a)))%Z.

(** The binary64 number nearest to [q], ties to the even significand: 53
    significant bits, and no bit below [2 ^ -1074]. *)
Definition b64 (q : Q) : Q :=
  let ulp := (2 ^ Z.max (ilog2 q - 52) (-1074))%Q in
  Qred (inject_Z (round_half_even (q / ulp)) * ulp).

(** The whole part of a number, towards 0. *)
Definition trunc (q : Q) : Z := if Qle_bool 0 q then Qfloor q else Qceiling q.

(** [fmod(x, m)]: the remainder with the sign of [x]; it is a binary64
    number when [x] and [m] are, so it is not rounded. *)
Definition fmod (x m : Q) : Q := (x - m * inject_Z (trunc (x / m)))%Q.

(** [x % m] of numpy and of Python on binary64, for a positive [m]: a
    negative remainder is moved up by [m], and that sum is rounded. *)
Definition pymod (x m : Q) : Q :=
  let r := fmod x m in
  if Qltb r 0 then b64 (r + m) else r.

End Frame.

(* ================================================================== *)
(** ** ElectricalAnalyzerV2 *)

(** The means, the limits, the percentages and the rounding of the records
    of this module are those of the rational numbers; [Binary64], below,
    has the same records with the arithmetic of the code. *)

Module ElectricalAnalyzerV2.
Import Text Frame.

Definition voltage_deviation_limit : Q := 8%Q.
Definition flicker_limit : Q := 1%Q.
Definition thd_limit : Q := 5%Q.
Definition nominal_voltage : Q := 120%Q.
Definition harmonic_total_measurements : nat := 2150.

(** [_extract_phase_from_column] *)
Definition _extract_phase_from_column (column_name : string) : string :=
  let col_lower := lower column_name in
  if contains "l1" col_lower then "L1"
  else if contains "l2" col_lower then "L2"
  else if contains "l3" col_lower then "L3"
  else "GENERAL".

(** [re.match(r'P H (\d+)', s)]: the text of group 1 *)
Definition match_order (s : string) : option string :=
  match strip_prefix "P H " s with
  | Some r =>
      match span_digits r with
      | (EmptyString, _) => None
      | (ds, _) => Some ds
      end
  | None => None
  end.

(** [re.search(r'P H (\d+)', s)]: the leftmost match *)
Fixpoint search_order (s : string) : option string :=
  match match_order s with
  | Some ds => Some ds
  | None =>
      match s with
      | EmptyString => None
      | String _ t => search_order t
      end
  end.

(** [_extract_harmonic_order] *)
Definition _extract_harmonic_order (column_name : string) : N :=
  match search_order column_name with
  | Some ds => int ds
  | None => 1%N
  end.

Definition is_phase_digit (c : ascii) : bool :=
  Ascii.eqb c "1" || Ascii.eqb c "2" || Ascii.eqb c "3".

(** [re.match(r'P H \d+ L[123]', s)].  A space has to follow the digits, so
    only the longest run of digits can be the one matched by [\d+]. *)
Definition match_harmonic (s : string) : bool :=
  match strip_prefix "P H " s with
  | Some r =>
      match span_digits r with
      | (EmptyString, _) => false
      | (_, r') =>
          match strip_prefix " L" r' with
          | Some (String c _) => is_phase_digit c
          | _ => false
          end
      end
  | None => false
  end.

(** [re.search(r'P H \d+ L[123]', s)] *)
Fixpoint search_harmonic (s : string) : bool :=
  match_harmonic s ||
  match s with
  | EmptyString => false
  | String _ t => search_harmonic t
  end.

(** [[col for col in df.columns if target_col.lower() in str(col).lower()]] *)
Definition matching_cols (df : DataFrame) (target_col : string) : list string :=
  filter (fun col => contains (lower target_col) (lower col)) (columns df).

(** The guard [col in df.columns and is_numeric_dtype(df[col])] followed by
    [values = df[col].dropna()]. *)
Definition numeric_values (df : DataFrame) (col : string) : option (list Q) :=
  if is_numeric_dtype (getitem df col)
  then match getitem df col with
       | [s] => Some (dropna (values s))
       | _ => None
       end
  else None.

(** [(violation_count / total_measurements) * 100]; the callers pass
    [len(df)] or 2150, and [len(df)] is not 0 when a column has a value. *)
Definition percentage_of (violation_count total_measurements : nat) : Q :=
  (inject_Z (Z.of_nat violation_count) / inject_Z (Z.of_nat total_measurements)
   * 100)%Q.

Record VoltageRecord : Type := mkVoltage {
  v_fase : string;
  v_parametro : string;
  voltaje_promedio : Q;
  limite_superior : Q;
  limite_inferior : Q;
  v_violaciones : nat;
  v_total_mediciones : nat;
  porcentaje_desviacion : Q;
  v_excede_limite : bool
}.

(** The record of flickers and of THD: [valor_promedio] / [thd_promedio],
    [valor_maximo] / [thd_maximo], [porcentaje_flicker] / [porcentaje_thd]. *)
Record LimitRecord : Type := mkLimit {
  l_fase : string;
  l_parametro : string;
  promedio : Q;
  maximo : Q;
  limite : Q;
  l_violaciones : nat;
  l_total_mediciones : nat;
  l_porcentaje : Q;
  l_excede_limite : bool
}.

Record HarmonicRecord : Type := mkHarmonic {
  orden_armonico : N;
  h_fase : string;
  h_parametro : string;
  valores_negativos : nat;
  h_total_mediciones : nat;
  porcentaje : Q;
  valor_promedio : Q;
  valor_minimo : Q;
  total_valores_archivo : nat
}.

(** The body of the loop of [_analyze_voltage_deviations] for a channel
    whose [values] are not empty. *)
Definition voltage_record (col : string) (vals : list Q) (total_measurements : nat)
  : VoltageRecord :=
  let nominal := mean vals in
  let upper_limit := (nominal * (108 # 100))%Q in
  let lower_limit := (nominal * (92 # 100))%Q in
  let violations :=
    filter (fun v => Qltb upper_limit v || Qltb v lower_limit) vals in
  let violation_count := List.length violations in
  let percentage := percentage_of violation_count total_measurements in
  let phase := _extract_phase_from_column col in
  {| v_fase := phase;
     v_parametro := col;
     voltaje_promedio := round nominal 3;
     limite_superior := round upper_limit 3;
     limite_inferior := round lower_limit 3;
     v_violaciones := violation_count;
     v_total_mediciones := total_measurements;
     porcentaje_desviacion := round percentage 6;
     v_excede_limite := (0 <? violation_count)%nat |}.

Definition voltage_target_columns : list string :=
  [ "U L1 avg. 10 min [V]"; "U L2 avg. 10 min [V]"; "U L3 avg. 10 min [V]" ].

(** [_analyze_voltage_deviations] *)
Definition _analyze_voltage_deviations (df : DataFrame) (total_measurements : nat)
  : list VoltageRecord :=
  flat_map (fun target_col =>
    flat_map (fun col =>
      match numeric_values df col with
      | Some (v :: vs) => [voltage_record col (v :: vs) total_measurements]
      | _ => []
      end) (matching_cols df target_col))
    voltage_target_columns.

(** The body of the loops of [_analyze_flickers] and [_analyze_thd]. *)
Definition limit_record (the_limit : Q) (col : string) (vals : list Q)
  (total_measurements : nat) : LimitRecord :=
  let violations := filter (fun v => Qltb the_limit v) vals in
  let violation_count := List.length violations in
  let percentage := percentage_of violation_count total_measurements in
  let phase := _extract_phase_from_column col in
  {| l_fase := phase;
     l_parametro := col;
     promedio := round (mean vals) 6;
     maximo := round (maximum vals) 6;
     limite := the_limit;
     l_violaciones := violation_count;
     l_total_mediciones := total_measurements;
     l_porcentaje := round percentage 6;
     l_excede_limite := (0 <? violation_count)%nat |}.

Definition flicker_target_columns : list string :=
  [ "Pst L1 instant. 10 min"; "Pst L2 instant. 10 min"; "Pst L3 instant. 10 min" ].

(** [_analyze_flickers] *)
Definition _analyze_flickers (df : DataFrame) (total_measurements : nat)
  : list LimitRecord :=
  flat_map (fun target_col =>
    flat_map (fun col =>
      match numeric_values df col with
      | Some (v :: vs) => [limit_record flicker_limit col (v :: vs) total_measurements]
      | _ => []
      end) (matching_cols df target_col))
    flicker_target_columns.

Definition thd_target_columns : list string :=
  [ "THD U L1 avg. 10 min [%]"; "THD U L2 avg. 10 min [%]";
    "THD U L3 avg. 10 min [%]" ].

(** [_analyze_thd] *)
Definition _analyze_thd (df : DataFrame) (total_measurements : nat)
  : list LimitRecord :=
  flat_map (fun target_col =>
    flat_map (fun col =>
      match numeric_values df col with
      | Some (v :: vs) => [limit_record thd_limit col (v :: vs) total_measurements]
      | _ => []
      end) (matching_cols df target_col))
    thd_target_columns.

(** The first loop of [_analyze_armonicos_complete]. *)
Definition harmonic_columns (df : DataFrame) : list string :=
  filter (fun col_str =>
            search_harmonic col_str
            && negb (N.eqb (_extract_harmonic_order col_str) 1%N))
         (columns df).

Definition harmonic_record (col : string) (vals : list Q) (total_measurements : nat)
  : HarmonicRecord :=
  let negative_values := filter (fun v => Qltb v 0%Q) vals in
  let negative_count := List.length negative_values in
  let percentage := percentage_of negative_count total_measurements in
  let phase := _extract_phase_from_column col in
  let harmonic_order := _extract_harmonic_order col in
  {| orden_armonico := harmonic_order;
     h_fase := phase;
     h_parametro := col;
     valores_negativos := negative_count;
     h_total_mediciones := total_measurements;
     porcentaje := round percentage 8;
     valor_promedio := round (mean vals) 6;
     valor_minimo := round (minimum vals) 6;
     total_valores_archivo := List.length vals |}.

(** The second loop of [_analyze_armonicos_complete]: [harmonics_results]. *)
Definition harmonics_results (df : DataFrame) : list HarmonicRecord :=
  let total_measurements := harmonic_total_measurements in
  flat_map (fun col =>
    match numeric_values df col with
    | Some (v :: vs) => [harmonic_record col (v :: vs) total_measurements]
    | _ => []
    end) (harmonic_columns df).

(** What an analysis adds to the result: the keys of either dictionary. *)
Inductive Analysis : Type :=
| Tendencia (voltage_deviations : list VoltageRecord)
            (flickers : list LimitRecord)
            (thd_analysis : list LimitRecord)
| Armonicos (harmonics_analysis : list HarmonicRecord)
            (harmonic_base_measurements : nat).

(** [_analyze_tendencia_complete] *)
Definition _analyze_tendencia_complete (df : DataFrame) : Analysis :=
  let total_measurements := len df in
  Tendencia (_analyze_voltage_deviations df total_measurements)
            (_analyze_flickers df total_measurements)
            (_analyze_thd df total_measurements).

(** [_analyze_armonicos_complete] *)
Definition _analyze_armonicos_complete (df : DataFrame) : Analysis :=
  Armonicos (harmonics_results df) harmonic_total_measurements.

(** The dispatch of [analyze_file] on the file type, for a frame that has
    been read and has come through [_clean_dataframe]. *)
Definition analyze (df : DataFrame) (file_type : string) : Analysis :=
  if String.eqb file_type "tendencia" then _analyze_tendencia_complete df
  else if String.eqb file_type "armonicos_potencia" then _analyze_armonicos_complete df
  else _analyze_tendencia_complete df.

Definition voltage_deviations_of (a : Analysis) : list VoltageRecord :=
  match a with Tendencia v _ _ => v | Armonicos _ _ => [] end.
Definition flickers_of (a : Analysis) : list LimitRecord :=
  match a with Tendencia _ f _ => f | Armonicos _ _ => [] end.
Definition thd_analysis_of (a : Analysis) : list LimitRecord :=
  match a with Tendencia _ _ t => t | Armonicos _ _ => [] end.
Definition harmonics_analysis_of (a : Analysis) : list HarmonicRecord :=
  match a with Tendencia _ _ _ => [] | Armonicos h _ => h end.

(** The dictionary [validate_file_format] returns when the file can be
    read. *)
Record ValidationResult : Type := mkValidation {
  is_valid : bool;
  detected_type : string;
  total_rows : nat;
  total_columns : nat;
  issues : list string
}.

Definition required_patterns : list string := ["u l"; "pst"; "thd"].

(** [any(pattern in str(col).lower() for col in df.columns)] *)
Definition pattern_found (df : DataFrame) (pattern : string) : bool :=
  existsb (fun col => contains pattern (lower col)) (columns df).

(** [[col for col in df.columns if re.search(harmonic_pattern, str(col))]] *)
Definition found_harmonics (df : DataFrame) : list string :=
  filter search_harmonic (columns df).

(** The issues [validate_file_format] collects for the expected type. *)
Definition validation_issues (df : DataFrame) (expected_type : string) : list string :=
  if String.eqb expected_type "tendencia"
  then flat_map (fun pattern =>
                   if pattern_found df pattern then []
                   else ["Patrón '" ++ pattern ++ "' no encontrado"])
                required_patterns
  else if String.eqb expected_type "armonicos_potencia"
  then (if (List.length (found_harmonics df) <? 3)%nat
        then ["Pocas columnas de armónicos encontradas"]
        else [])
  else [].

(** [validate_file_format], from the frame that [read_excel] gives. *)
Definition validate_file_format (df : DataFrame) (expected_type : string)
  : ValidationResult :=
  let found := validation_issues df expected_type in
  {| is_valid := (List.length found =? 0)%nat;
     detected_type := expected_type;
     total_rows := len df;
     total_columns := List.length (columns df);
     issues := found |}.

(** What [analyze_file] returns: the dictionary with the key ['error'], or
    the dictionary of the results (its ['data_loaded'] is always true and
    its time stamp is left out). *)
Inductive FileResult : Type :=
| ErrorResult (error : string)
| FileAnalysis (file_type filename : string) (total_measurements : nat)
               (analysis : Analysis).

(** [file_path.split('/')[-1]] *)
Fixpoint last_segment (acc s : string) : string :=
  match s with
  | EmptyString => acc
  | String c t =>
      if Ascii.eqb c "/" then last_segment EmptyString t
      else last_segment (acc ++ String c EmptyString) t
  end.

Section LoadedFile.

(** The number [pd.to_numeric] reads in a text, if it reads one. *)
Variable to_numeric_text : string -> option Q.

Definition to_numeric_cell (d : DType) (c : cell) : cell :=
  match c with
  | Str t => match to_numeric_text t with
             | Some q => Num q
             | None => NaN
             end
  | NaN => match d with
           | datetime64 => Num (inject_Z (- 2 ^ 63))
           | _ => NaN
           end
  | Num q => Num q
  end.

(** [pd.to_numeric(series, errors='coerce')]; a [datetime64] series is
    viewed as its nanoseconds, in which [NaT] is the least [int64]. *)
Definition to_numeric (series : Series) : Series :=
  mkSeries (name series) numeric
           (map (to_numeric_cell (dtype series)) (values series)).

Definition numeric_patterns : list string :=
  ["u l"; "pst"; "thd"; "p h"; "avg"; "min"; "max"].

(** The loop of [_clean_dataframe]; [pd.to_numeric] of the [DataFrame] that
    [df[col]] is for a label of several columns raises [TypeError], which
    is [None] here. *)
Fixpoint to_numeric_loop (cols : list string) (df : DataFrame) : option DataFrame :=
  match cols with
  | [] => Some df
  | col :: rest =>
      if existsb (fun pattern => contains pattern (lower col)) numeric_patterns
      then match getitem df col with
           | [series] => to_numeric_loop rest (setitem df col (to_numeric series))
           | _ => None
           end
      else to_numeric_loop rest df
  end.

(** [_clean_dataframe] *)
Definition _clean_dataframe (df : DataFrame) : option DataFrame :=
  let df := select_rows (row_mask (fun r => negb (forallb isna r)) df) df in
  let df := filter (fun s => negb (forallb isna (values s))) df in
  to_numeric_loop (columns df) df.

(** [analyze_file], from the frame that [read_excel] gives.  Every
    exception is caught and reported in the dictionary of the error. *)
Definition analyze_file (df : DataFrame) (file_path file_type : string) : FileResult :=
  if empty df then ErrorResult "Archivo vacío o sin datos válidos"
  else match _clean_dataframe df with
       | None =>
           ErrorResult ("Error procesando archivo: "
                        ++ "arg must be a list, tuple, 1-d array, or Series")
       | Some df =>
           if empty df
           then ErrorResult "No hay datos válidos después de la limpieza"
           else FileAnalysis file_type (last_segment EmptyString file_path)
                             (len df) (analyze df file_type)
       end.

End LoadedFile.

(** [result.get('file_type', 'unknown')] *)
Definition file_type_of (result : FileResult) : string :=
  match result with
  | ErrorResult _ => "unknown"
  | FileAnalysis file_type _ _ _ => file_type
  end.

(** A dictionary from texts to counts, in the order of insertion. *)
Definition Counts : Type := list (string * nat).

(** [d.get(key, 0)] *)
Fixpoint get_count (d : Counts) (key : string) : nat :=
  match d with
  | [] => 0
  | (k, n) :: t => if String.eqb k key then n else get_count t key
  end.

(** [d[key] = n] *)
Fixpoint set_count (d : Counts) (key : string) (n : nat) : Counts :=
  match d with
  | [] => [(key, n)]
  | (k, m) :: t => if String.eqb k key then (k, n) :: t else (k, m) :: set_count t key n
  end.

(** [sum(1 for v in records if v.get('excede_limite', False))] *)
Definition count_exceeding {R : Type} (flag : R -> bool) (records : list R) : nat :=
  List.length (filter flag records).

Record Summary : Type := mkSummary {
  total_files_processed : nat;
  files_by_type : Counts;
  s_voltage_deviations : nat;
  s_flickers : nat;
  s_thd_exceeded : nat;
  s_harmonics_analyzed : nat
}.

(** The body of the loop of [generate_analysis_summary]. *)
Definition add_result (summary : Summary) (result : FileResult) : Summary :=
  let file_type := file_type_of result in
  let by_type := set_count (files_by_type summary) file_type
                           (get_count (files_by_type summary) file_type + 1) in
  match result with
  | FileAnalysis _ _ _ (Tendencia v f t) =>
      {| total_files_processed := total_files_processed summary;
         files_by_type := by_type;
         s_voltage_deviations :=
           s_voltage_deviations summary + count_exceeding v_excede_limite v;
         s_flickers := s_flickers summary + count_exceeding l_excede_limite f;
         s_thd_exceeded := s_thd_exceeded summary + count_exceeding l_excede_limite t;
         s_harmonics_analyzed := s_harmonics_analyzed summary |}
  | FileAnalysis _ _ _ (Armonicos h _) =>
      {| total_files_processed := total_files_processed summary;
         files_by_type := by_type;
         s_voltage_deviations := s_voltage_deviations summary;
         s_flickers := s_flickers summary;
         s_thd_exceeded := s_thd_exceeded summary;
         s_harmonics_analyzed := s_harmonics_analyzed summary + List.length h |}
  | ErrorResult _ =>
      {| total_files_processed := total_files_processed summary;
         files_by_type := by_type;
         s_voltage_deviations := s_voltage_deviations summary;
         s_flickers := s_flickers summary;
         s_thd_exceeded := s_thd_exceeded summary;
         s_harmonics_analyzed := s_harmonics_analyzed summary |}
  end.

(** [generate_analysis_summary], without its time stamp *)
Definition generate_analysis_summary (analysis_results : list FileResult) : Summary :=
  fold_left add_result analysis_results
    {| total_files_processed := List.length analysis_results;
       files_by_type := [];
       s_voltage_deviations := 0;
       s_flickers := 0;
       s_thd_exceeded := 0;
       s_harmonics_analyzed := 0 |}.

End ElectricalAnalyzerV2.

(* ================================================================== *)
(** ** The records of ElectricalAnalyzerV2 in binary64 *)

Module Binary64.
Import Text Frame ElectricalAnalyzerV2.

(** The literals [1.08] and [0.92] *)
Definition upper_factor : Q := b64 (108 # 100).
Definition lower_factor : Q := b64 (92 # 100).

(** [round(x, ndigits)] of a [numpy.float64], as [values.mean()],
    [values.max()] and [values.min()] are and as the limits of the
    voltage are: [x] is multiplied by the power of ten, rounded to a whole
    number and divided by the power of ten. *)
Definition numpy_round (x : Q) (ndigits : nat) : Q :=
  let scale := inject_Z (10 ^ Z.of_nat ndigits) in
  b64 (inject_Z (round_half_even (b64 (x * scale))) / scale).

(** [round(x, ndigits)] of a [float] of Python, as the percentages are:
    the decimal number nearest to [x], read as a binary64 number. *)
Definition float_round (x : Q) (ndigits : nat) : Q := b64 (round x ndigits).

(** [(violation_count / total_measurements) * 100] *)
Definition percentage_of (violation_count total_measurements : nat) : Q :=
  b64 (b64 (inject_Z (Z.of_nat violation_count)
            / inject_Z (Z.of_nat total_measurements)) * 100).

Section Rules.

(** [values.sum()], the sum that [values.mean()] divides: the binary64
    sum of the values, in the order in which pandas adds them. *)
Variable sum_of : list Q -> Q.

(** [values.mean()] *)
Definition mean (l : list Q) : Q :=
  b64 (sum_of l / inject_Z (Z.of_nat (List.length l))).

(** The body of the loop of [_analyze_voltage_deviations] for a channel
    whose [values] are not empty. *)
Definition voltage_record (col : string) (vals : list Q) (total_measurements : nat)
  : VoltageRecord :=
  let nominal := mean vals in
  let upper_limit := b64 (nominal * upper_factor) in
  let lower_limit := b64 (nominal * lower_factor) in
  let violations :=
    filter (fun v => Qltb upper_limit v || Qltb v lower_limit) vals in
  let violation_count := List.length violations in
  let percentage := percentage_of violation_count total_measurements in
  let phase := _extract_phase_from_column col in
  {| v_fase := phase;
     v_parametro := col;
     voltaje_promedio := numpy_round nominal 3;
     limite_superior := numpy_round upper_limit 3;
     limite_inferior := numpy_round lower_limit 3;
     v_violaciones := violation_count;
     v_total_mediciones := total_measurements;
     porcentaje_desviacion := float_round percentage 6;
     v_excede_limite := (0 <? violation_count)%nat |}.

(** [_analyze_voltage_deviations] *)
Definition _analyze_voltage_deviations (df : DataFrame) (total_measurements : nat)
  : list VoltageRecord :=
  flat_map (fun target_col =>
    flat_map (fun col =>
      match numeric_values df col with
      | Some (v :: vs) => [voltage_record col (v :: vs) total_measurements]
      | _ => []
      end) (matching_cols df target_col))
    voltage_target_columns.

(** The body of the loops of [_analyze_flickers] and [_analyze_thd]. *)
Definition limit_record (the_limit : Q) (col : string) (vals : list Q)
  (total_measurements : nat) : LimitRecord :=
  let violations := filter (fun v => Qltb the_limit v) vals in
  let violation_count := List.length violations in
  let percentage := percentage_of violation_count total_measurements in
  let phase := _extract_phase_from_column col in
  {| l_fase := phase;
     l_parametro := col;
     promedio := numpy_round (mean vals) 6;
     maximo := numpy_round (maximum vals) 6;
     limite := the_limit;
     l_violaciones := violation_count;
     l_total_mediciones := total_measurements;
     l_porcentaje := float_round percentage 6;
     l_excede_limite := (0 <? violation_count)%nat |}.

(** [_analyze_flickers] *)
Definition _analyze_flickers (df : DataFrame) (total_measurements : nat)
  : list LimitRecord :=
  flat_map (fun target_col =>
    flat_map (fun col =>
      match numeric_values df col with
      | Some (v :: vs) => [limit_record flicker_limit col (v :: vs) total_measurements]
      | _ => []
      end) (matching_cols df target_col))
    flicker_target_columns.

(** [_analyze_thd] *)
Definition _analyze_thd (df : DataFrame) (total_measurements : nat)
  : list LimitRecord :=
  flat_map (fun target_col =>
    flat_map (fun col =>
      match numeric_values df col with
      | Some (v :: vs) => [limit_record thd_limit col (v :: vs) total_measurements]
      | _ => []
      end) (matching_cols df target_col))
    thd_target_columns.

Definition harmonic_record (col : string) (vals : list Q) (total_measurements : nat)
  : HarmonicRecord :=
  let negative_values := filter (fun v => Qltb v 0%Q) vals in
  let negative_count := List.length negative_values in
  let percentage := percentage_of negative_count total_measurements in
  let phase := _extract_phase_from_column col in
  let harmonic_order := _extract_harmonic_order col in
  {| orden_armonico := harmonic_order;
     h_fase := phase;
     h_parametro := col;
     valores_negativos := negative_count;
     h_total_mediciones := total_measurements;
     porcentaje := float_round percentage 8;
     valor_promedio := numpy_round (mean vals) 6;
     valor_minimo := numpy_round (minimum vals) 6;
     total_valores_archivo := List.length vals |}.

(** The second loop of [_analyze_armonicos_complete]: [harmonics_results]. *)
Definition harmonics_results (df : DataFrame) : list HarmonicRecord :=
  let total_measurements := harmonic_total_measurements in
  flat_map (fun col =>
    match numeric_values df col with
    | Some (v :: vs) => [harmonic_record col (v :: vs) total_measurements]
    | _ => []
    end) (harmonic_columns df).

(** [_analyze_tendencia_complete] *)
Definition _analyze_tendencia_complete (df : DataFrame) : Analysis :=
  let total_measurements := len df in
  Tendencia (_analyze_voltage_deviations df total_measurements)
            (_analyze_flickers df total_measurements)
            (_analyze_thd df total_measurements).

(** [_analyze_armonicos_complete] *)
Definition _analyze_armonicos_complete (df : DataFrame) : Analysis :=
  Armonicos (harmonics_results df) harmonic_total_measurements.

(** The dispatch of [analyze_file] on the file type. *)
Definition analyze (df : DataFrame) (file_type : string) : Analysis :=
  if String.eqb file_type "tendencia" then _analyze_tendencia_complete df
  else if String.eqb file_type "armonicos_potencia" then _analyze_armonicos_complete df
  else _analyze_tendencia_complete df.

End Rules.

(** The sum of the values added one after the other from the first, which
    is the order of numpy for fewer than eight values. *)
Definition sum_in_order (l : list Q) : Q :=
  fold_left (fun acc x => b64 (acc + x)) l 0%Q.

End Binary64.

(* ================================================================== *)
(** ** DataProcessor *)

Module DataProcessor.
Import Text Frame.

(** The exceptions the cleaning can run into.  [df[col]] of a label that
    several columns carry is a [DataFrame], and [.str] and [.dtype] of a
    [DataFrame] raise [AttributeError]; a boolean [Series] that cannot be
    aligned with the axis it indexes raises [IndexingError]. *)
Inductive exn : Type := AttributeError | IndexingError.

Inductive result (A : Type) : Type :=
| Ok (a : A)
| Raise (e : exn).
Arguments Ok {A} a.
Arguments Raise {A} e.

Definition bind {A B : Type} (r : result A) (k : A -> result B) : result B :=
  match r with
  | Ok a => k a
  | Raise e => Raise e
  end.

Notation "x <- r ;; k" := (bind r (fun x => k))
  (at level 61, r at next level, right associativity).

(** [self.numeric_columns_patterns.get(file_type, [])] *)
Definition numeric_columns_patterns (file_type : string) : list string :=
  if String.eqb file_type "tendencia"
  then ["voltage"; "current"; "power"; "frequency"; "thd"]
  else if String.eqb file_type "armonicos_potencia"
  then ["harmonic"; "magnitude"; "phase"; "distortion"]
  else if String.eqb file_type "armonicos_voltaje"
  then ["voltage"; "harmonic"; "amplitude"; "phase"]
  else [].

(** The label of a column after the four assignments of
    [_clean_column_names]. *)
Definition clean_label (col : string) : string :=
  lower (sub_spaces false (strip (keep (fun c => is_word c || is_space c) col))).

(** [_clean_column_names].  The four assignments give every column its
    cleaned label.  The last statement,
    [df.loc[:, ~pd.Series(df.columns).str.contains('^unnamed', ...)]],
    indexes the columns with a boolean [Series] whose index is the range
    [0 .. n - 1]; pandas looks the labels of the columns up in that index
    and finds none of them, as they are texts, so it raises
    [IndexingError] whenever there is a column. *)
Definition _clean_column_names (df : DataFrame) : result DataFrame :=
  let df := map (fun s => mkSeries (clean_label (name s)) (dtype s) (values s)) df in
  match df with
  | [] => Ok df
  | _ :: _ => Raise IndexingError
  end.

(** [x.isna().all()], as [dropna(how='all')] tests it *)
Definition all_nan (l : list cell) : bool := forallb isna l.

(** [str(c).strip() == ''] *)
Definition blank (c : cell) : bool :=
  match c with
  | Str s => String.eqb (strip s) ""
  | _ => false
  end.

(** [x.astype(str).str.strip().eq('').all()] *)
Definition all_blank (l : list cell) : bool := forallb blank l.

(** The two assignments of [_remove_empty_rows_columns] that drop columns. *)
Definition remove_empty_columns (df : DataFrame) : DataFrame :=
  let df := filter (fun s => negb (all_nan (values s))) df in
  filter (fun s => negb (all_blank (values s))) df.

(** The two assignments of [_remove_empty_rows_columns] that drop rows. *)
Definition remove_empty_rows (df : DataFrame) : DataFrame :=
  let df := select_rows (row_mask (fun r => negb (all_nan r)) df) df in
  select_rows (row_mask (fun r => negb (all_blank r)) df) df.

(** [_remove_empty_rows_columns] *)
Definition _remove_empty_rows_columns (df : DataFrame) : DataFrame :=
  remove_empty_rows (remove_empty_columns df).

Definition numeric_indicators : list string :=
  [ "value"; "val"; "measurement"; "reading"; "level"; "amplitude";
    "magnitude"; "rms"; "avg"; "min"; "max"; "std"; "mean";
    "percent"; "ratio"; "factor"; "time"; "date"; "timestamp" ].

(** [_is_numeric_column] *)
Definition _is_numeric_column (column_name file_type : string) : bool :=
  let column_lower := lower column_name in
  let patterns := numeric_columns_patterns file_type in
  existsb (fun pattern => contains pattern column_lower) patterns
  || existsb (fun indicator => contains indicator column_lower) numeric_indicators.

(** The class [[\d\.\-\+eE]] *)
Definition numeric_char (c : ascii) : bool :=
  is_digit c || Ascii.eqb c "." || Ascii.eqb c "-" || Ascii.eqb c "+"
  || Ascii.eqb c "e" || Ascii.eqb c "E".

(** An optional sign: whether it is a minus, and what follows it. *)
Definition sign (s : string) : bool * string :=
  match s with
  | String "-" t => (true, t)
  | String "+" t => (false, t)
  | _ => (false, s)
  end.

(** The exponent part of a number: nothing, or [e] or [E], an optional sign
    and digits, up to the end of the text. *)
Definition parse_exponent (s : string) : option Z :=
  match s with
  | EmptyString => Some 0%Z
  | String c t =>
      if Ascii.eqb c "e" || Ascii.eqb c "E"
      then let (neg, t1) := sign t in
           match span_digits t1 with
           | (EmptyString, _) => None
           | (ds, EmptyString) =>
               Some (if neg then (- Z.of_N (int ds))%Z else Z.of_N (int ds))
           | (_, String _ _) => None
           end
      else None
  end.

(** [m * 10 ** e] *)
Definition scale10 (m e : Z) : Q :=
  match e with
  | Zneg p => Qmake m (10 ^ p)
  | _ => inject_Z (m * 10 ^ e)
  end.

(** Beyond the greatest binary64 number by half a unit of its last place
    or more, a number rounds to infinity. *)
Definition overflows (q : Q) : bool :=
  Qle_bool (inject_Z (2 ^ 1024 - 2 ^ 970)) (Qabs q).

(** The number a text denotes for [pd.to_numeric]: an optional sign, digits
    with an optional point among them, an optional exponent.  The number
    is rounded to binary64; a text whose number overflows is not read. *)
Definition parse_float (s : string) : option Q :=
  let (neg, s1) := sign s in
  let (ip, s2) := span_digits s1 in
  let (fp, s3) := match s2 with
                  | String "." t => span_digits t
                  | _ => (EmptyString, s2)
                  end in
  if String.eqb (ip ++ fp) "" then None
  else match parse_exponent s3 with
       | Some e =>
           let m := Z.of_N (int (ip ++ fp)) in
           let q := scale10 (if neg then (- m)%Z else m)
                            (e - Z.of_nat (String.length fp)) in
           if overflows q then None else Some (b64 q)
       | None => None
       end.

(** What [_convert_to_numeric] makes of the text of a cell. *)
Definition convert_text (t : string) : cell :=
  let t := keep numeric_char t in
  if String.eqb t "" then NaN
  else match parse_float t with
       | Some q => Num q
       | None => NaN
       end.

(** What [_convert_to_numeric] makes of a cell of a column of the given
    dtype.  The text of a number reads back as the number; the text of a
    date has two hyphens and does not read as a number. *)
Definition convert_cell (d : DType) (c : cell) : cell :=
  match c with
  | NaN => convert_text "nan"
  | Str s => convert_text s
  | Num q => match d with
             | datetime64 => NaN
             | _ => Num q
             end
  end.

(** [_convert_to_numeric] *)
Definition _convert_to_numeric (series : Series) : Series :=
  mkSeries (name series) numeric (map (convert_cell (dtype series)) (values series)).

Fixpoint clean_numeric_loop (file_type : string) (cols : list string)
  (df : DataFrame) : result DataFrame :=
  match cols with
  | [] => Ok df
  | column :: rest =>
      if _is_numeric_column column file_type
      then match getitem df column with
           | [series] =>
               clean_numeric_loop file_type rest
                 (setitem df column (_convert_to_numeric series))
           | _ => Raise AttributeError
           end
      else clean_numeric_loop file_type rest df
  end.

(** [_clean_numeric_columns] *)
Definition _clean_numeric_columns (df : DataFrame) (file_type : string)
  : result DataFrame :=
  clean_numeric_loop file_type (columns df) df.

(** The number of missing cells before the next number, and that number. *)
Fixpoint next_valid (l : list cell) : option (nat * Q) :=
  match l with
  | Num q :: _ => Some (O, q)
  | NaN :: t =>
      match next_valid t with
      | Some (k, q) => Some (S k, q)
      | None => None
      end
  | _ => None
  end.

Definition Qnat (n : nat) : Q := inject_Z (Z.of_nat n).

(** [series.interpolate(method='linear')]: [anchor] is the last number seen
    and how many missing cells have followed it.  Missing cells between two
    numbers lie on the line through them, missing cells after the last
    number repeat it, missing cells before the first number stay. *)
Fixpoint interpolate_from (anchor : option (Q * nat)) (l : list cell) : list cell :=
  match l with
  | [] => []
  | Num q :: t => Num q :: interpolate_from (Some (q, O)) t
  | Str s :: t => Str s :: interpolate_from None t
  | NaN :: t =>
      match anchor with
      | None => NaN :: interpolate_from None t
      | Some (a, j) =>
          match next_valid t with
          | None => Num a :: interpolate_from (Some (a, S j)) t
          | Some (k, b) =>
              Num (a + (b - a) * Qnat (j + 1) / Qnat (j + k + 2))%Q
                :: interpolate_from (Some (a, S j)) t
          end
      end
  end.

Definition interpolate (l : list cell) : list cell := interpolate_from None l.

(** [fillna(method='ffill')] on one column: [prev] is the last cell that
    was not missing. *)
Fixpoint ffill_from (prev : cell) (l : list cell) : list cell :=
  match l with
  | [] => []
  | c :: t => if isna c then prev :: ffill_from prev t else c :: ffill_from c t
  end.

Definition ffill (l : list cell) : list cell := ffill_from NaN l.

(** [fillna(method='bfill')] on one column *)
Fixpoint bfill (l : list cell) : list cell :=
  match l with
  | [] => []
  | c :: t =>
      let t' := bfill t in
      match c, t' with
      | NaN, x :: _ => x :: t'
      | _, _ => c :: t'
      end
  end.

Definition map_values (f : list cell -> list cell) (df : DataFrame) : DataFrame :=
  map (fun s => set_values s (f (values s))) df.

(** [_handle_missing_values] *)
Definition _handle_missing_values (df : DataFrame) (method : string) : DataFrame :=
  if String.eqb method "linear_interpolation"
  then map (fun s => match dtype s with
                     | numeric => set_values s (interpolate (values s))
                     | _ => s
                     end) df
  else if String.eqb method "forward_fill" then map_values ffill df
  else if String.eqb method "backward_fill" then map_values bfill df
  else if String.eqb method "remove"
  then select_rows (row_mask (fun r => negb (existsb isna r)) df) df
  else df.

(** [df.duplicated(keep='first')]: [seen] holds the rows above. *)
Fixpoint duplicated (seen rs : list (list cell)) : list bool :=
  match rs with
  | [] => []
  | r :: t => existsb (row_eqb r) seen :: duplicated (r :: seen) t
  end.

(** [_remove_duplicates] *)
Definition _remove_duplicates (df : DataFrame) : DataFrame :=
  select_rows (map negb (duplicated [] (rows df))) df.

Section FileSpecific.

(** The instant, in nanoseconds, that [pd.to_datetime] reads in a text;
    calendar parsing is left to the caller. *)
Variable parse_datetime : string -> option Z.

Definition int64_max : Z := (2 ^ 63 - 1)%Z.

(** Whole nanoseconds of a number, or nothing when they do not fit. *)
Definition nanoseconds (q : Q) : option Z :=
  let n := if Qle_bool 0 q then Qfloor q else Qceiling q in
  if ((- int64_max <=? n) && (n <=? int64_max))%Z then Some n else None.

Definition datetime_cell (d : DType) (c : cell) : cell :=
  match c with
  | NaN => NaN
  | Num q =>
      match d with
      | datetime64 => Num q
      | _ => match nanoseconds q with
             | Some n => Num (inject_Z n)
             | None => NaN
             end
      end
  | Str s =>
      match parse_datetime s with
      | Some n => Num (inject_Z n)
      | None => NaN
      end
  end.

(** [pd.to_datetime(series, errors='coerce')] *)
Definition to_datetime (series : Series) : Series :=
  mkSeries (name series) datetime64
           (map (datetime_cell (dtype series)) (values series)).

(** The order of [sort_values]: ascending, missing values last. *)
Definition key_le (a b : cell) : bool :=
  match a, b with
  | Num p, Num q => Qle_bool p q
  | Num _, _ => true
  | _, Num _ => false
  | _, _ => true
  end.

Fixpoint insert_by_key {A : Type} (x : cell * A) (l : list (cell * A))
  : list (cell * A) :=
  match l with
  | [] => [x]
  | y :: t => if key_le (fst x) (fst y) then x :: y :: t
              else y :: insert_by_key x t
  end.

(** The cells of a column in the order of the keys.  Rows with equal keys
    keep their order here; the quicksort of [sort_values] may give them
    another. *)
Definition sort_by_keys {A : Type} (keys : list cell) (l : list A) : list A :=
  map snd (fold_right insert_by_key [] (combine keys l)).

(** [df.sort_values(by=col)], for a label that one column carries *)
Definition sort_values (df : DataFrame) (col : string) : DataFrame :=
  match getitem df col with
  | [s] => map_values (sort_by_keys (values s)) df
  | _ => df
  end.

(** [df[col].dtype in ['float64', 'int64']] *)
Definition has_numeric_dtype (s : Series) : bool :=
  match dtype s with numeric => true | _ => false end.

(** A loop [for col in cols: if col in df.columns and df[col].dtype in
    [...]: df = body(df, df[col])]. *)
Fixpoint for_numeric_columns (body : DataFrame -> Series -> DataFrame)
  (cols : list string) (df : DataFrame) : result DataFrame :=
  match cols with
  | [] => Ok df
  | col :: rest =>
      match getitem df col with
      | [] => for_numeric_columns body rest df
      | [s] =>
          if has_numeric_dtype s
          then for_numeric_columns body rest (body df s)
          else for_numeric_columns body rest df
      | _ => Raise AttributeError
      end
  end.

(** [df = df[df[col] >= 0]] *)
Definition keep_nonnegative (df : DataFrame) (s : Series) : DataFrame :=
  select_rows (compare_mask (fun q => Qle_bool 0 q) s) df.

(** [astype(int)] of a whole number: the [int64] it is, and the least
    [int64] when it does not fit, which is what the cast gives on x86-64. *)
Definition astype_int (z : Z) : Z :=
  if ((- 2 ^ 63 <=? z) && (z <? 2 ^ 63))%Z then z else (- 2 ^ 63)%Z.

(** [df = df[df[col] > 0]] and then
    [df[col] = df[col].round().astype(int)] *)
Definition positive_rounded (df : DataFrame) (s : Series) : DataFrame :=
  let df := select_rows (compare_mask (fun q => Qltb 0 q) s) df in
  match getitem df (name s) with
  | [s'] =>
      setitem df (name s)
        (set_values s'
           (map (fun c => match c with
                          | Num q => Num (inject_Z (astype_int (round_half_even q)))
                          | _ => c
                          end) (values s')))
  | _ => df
  end.

(** [((x + 180) % 360) - 180], each of the three operations rounded *)
Definition wrap_phase (x : Q) : Q := b64 (pymod (b64 (x + 180)) 360 - 180).

Definition wrap_cell (c : cell) : cell :=
  match c with
  | Num q => Num (wrap_phase q)
  | _ => c
  end.

(** [df[col] = ((df[col] + 180) % 360) - 180] *)
Definition wrapped (df : DataFrame) (s : Series) : DataFrame :=
  setitem df (name s) (set_values s (map wrap_cell (values s))).

Definition labelled (words : list string) (df : DataFrame) : list string :=
  filter (fun col => existsb (fun w => contains w (lower col)) words) (columns df).

(** The [try] block of [_clean_tendencia_data]: whatever goes wrong in it
    leaves the frame as it was. *)
Definition sort_by_timestamp (df : DataFrame) : DataFrame :=
  match labelled ["time"; "date"] df with
  | [] => df
  | ts :: _ =>
      match getitem df ts with
      | [s] => sort_values (setitem df ts (to_datetime s)) ts
      | _ => df
      end
  end.

(** [_clean_tendencia_data] *)
Definition _clean_tendencia_data (df : DataFrame) : result DataFrame :=
  let df := sort_by_timestamp df in
  for_numeric_columns keep_nonnegative (labelled ["voltage"; "volt"] df) df.

(** [_clean_armonicos_potencia_data] *)
Definition _clean_armonicos_potencia_data (df : DataFrame) : result DataFrame :=
  df <- for_numeric_columns positive_rounded (labelled ["harmonic"] df) df ;;
  for_numeric_columns wrapped (labelled ["phase"; "angle"] df) df.

(** [_clean_armonicos_voltaje_data] *)
Definition _clean_armonicos_voltaje_data (df : DataFrame) : result DataFrame :=
  df <- for_numeric_columns positive_rounded (labelled ["harmonic"] df) df ;;
  df <- for_numeric_columns keep_nonnegative (labelled ["amplitude"; "magnitude"] df) df ;;
  for_numeric_columns wrapped (labelled ["phase"; "angle"] df) df.

(** [_apply_file_specific_cleaning] *)
Definition _apply_file_specific_cleaning (df : DataFrame) (file_type : string)
  : result DataFrame :=
  if String.eqb file_type "tendencia" then _clean_tendencia_data df
  else if String.eqb file_type "armonicos_potencia"
  then _clean_armonicos_potencia_data df
  else if String.eqb file_type "armonicos_voltaje"
  then _clean_armonicos_voltaje_data df
  else Ok df.

(** [clean_data]; [None] is the null table and [pd.DataFrame()] is []. *)
Definition clean_data (df : option DataFrame) (file_type : string)
  (interpolation_method : string) : result DataFrame :=
  match df with
  | None => Ok []
  | Some df =>
      if empty df then Ok []
      else
        cleaned_df <- _clean_column_names df ;;
        let cleaned_df := _remove_empty_rows_columns cleaned_df in
        cleaned_df <- _clean_numeric_columns cleaned_df file_type ;;
        let cleaned_df := _handle_missing_values cleaned_df interpolation_method in
        let cleaned_df := _remove_duplicates cleaned_df in
        _apply_file_specific_cleaning cleaned_df file_type
  end.

End FileSpecific.

End DataProcessor.

(* ================================================================== *)
(** ** The callers: [app_v2.py] and [database_manager_v2.py] *)

Module App.
Import Text.

(** [detect_file_type] *)
Definition detect_file_type (filename : string) : string :=
  let filename_lower := lower filename in
  if contains "tendencia" filename_lower then "tendencia"
  else if contains "armonic" filename_lower && contains "potencia" filename_lower
  then "armonicos_potencia"
  else if contains "armonic" filename_lower then "armonicos_potencia"
  else "tendencia".

End App.

Module DatabaseManagerV2.
Import Frame ElectricalAnalyzerV2.

(** [section in analysis_data and analysis_data[section]]: the section is
    there and its list is not empty. *)
Definition filled {A : Type} (section : list A) : bool :=
  match section with [] => false | _ => true end.

(** The value of [data_completeness] after the loop over
    [expected_sections]. *)
Definition data_completeness (analysis_data : FileResult) : nat :=
  match analysis_data with
  | ErrorResult _ => 0
  | FileAnalysis _ _ _ (Tendencia v f t) =>
      (if filled v then 25 else 0) + (if filled f then 25 else 0)
      + (if filled t then 25 else 0)
  | FileAnalysis _ _ _ (Armonicos h _) => if filled h then 25 else 0
  end.

(** [_calculate_validation_score] *)
Definition _calculate_validation_score (analysis_data : FileResult) : Q :=
  let score := match analysis_data with
               | ErrorResult _ => (100 - 50)%Q
               | FileAnalysis _ _ _ _ => 100%Q
               end in
  let score :=
    Qmaxb (score * (inject_Z (Z.of_nat (data_completeness analysis_data)) / 100))%Q
          0%Q in
  Qminb 100%Q score.

End DatabaseManagerV2.

Import Text Frame ElectricalAnalyzerV2 DataProcessor.
Import App DatabaseManagerV2.

(* ================================================================== *)
(** ** The vocabulary of the statements *)

(** [p] occurs in [s] as a substring. *)
Definition occurs (p s : string) : Prop :=
  exists pre post, s = pre ++ p ++ post.

Definition first_is_digit (s : string) : bool :=
  match s with
  | String c _ => is_digit c
  | EmptyString => false
  end.

(** The label denotes one numeric column of the frame that has a value. *)
Definition has_numeric_value (df : DataFrame) (col : string) : Prop :=
  exists s, getitem df col = [s] /\ dtype s = numeric /\ dropna (values s) <> [].

(** Every column has [n] cells. *)
Definition uniform (n : nat) (df : DataFrame) : Prop :=
  Forall (fun s => List.length (values s) = n) df.

Definition count_true (mask : list bool) : nat :=
  List.length (filter (fun b => b) mask).

Definition rows_from (n : nat) (df : DataFrame) : list (list cell) :=
  fold_right (fun s rs => zip_cons (values s) rs) (repeat [] n) df.

(** The pruning as C9 words it: the rows are judged on the table as it
    came in, by [empty_row], while the empty columns are dropped. *)
Definition rows_judged_on_original (empty_row : list cell -> bool)
  (df : DataFrame) : DataFrame :=
  select_rows (row_mask (fun r => negb (empty_row r)) df) (remove_empty_columns df).

(** [df] with the columns labelled [col] replaced by their image. *)
Definition update_column (col : string) (f : Series -> Series) (df : DataFrame)
  : DataFrame :=
  map (fun s => if String.eqb (name s) col then f s else s) df.

Definition member (col : string) (cols : list string) : bool :=
  existsb (String.eqb col) cols.

(** The effect of a loop that replaces numeric columns by an image. *)
Definition update_numeric (f : Series -> Series) (cols : list string)
  (df : DataFrame) : DataFrame :=
  map (fun s => if member (name s) cols && has_numeric_dtype s then f s else s) df.

(** [phase_cols]: the labels with "phase" or "angle" in them. *)
Definition is_phase_label (col : string) : bool :=
  existsb (fun w => contains w (lower col)) ["phase"; "angle"].

Definition wrap_series (s : Series) : Series :=
  set_values s (map wrap_cell (values s)).

(** The frame with every cell of its numeric phase and angle columns
    wrapped. *)
Definition wrap_phase_columns (df : DataFrame) : DataFrame :=
  map (fun s => if is_phase_label (name s) && has_numeric_dtype s
                then wrap_series s else s) df.

Fixpoint forall_chars (p : ascii -> bool) (s : string) : bool :=
  match s with
  | EmptyString => true
  | String c t => p c && forall_chars p t
  end.

Definition notna (c : cell) : bool := negb (isna c).

Definition not_text (c : cell) : bool :=
  match c with Str _ => false | _ => true end.

(** The missing cells come before all the others. *)
Fixpoint nan_first (l : list cell) : bool :=
  match l with
  | NaN :: t => nan_first t
  | _ => forallb notna l
  end.

(** The missing cells come after all the others. *)
Fixpoint nan_last (l : list cell) : bool :=
  match l with
  | [] => true
  | c :: t => (if isna c then forallb isna t else true) && nan_last t
  end.

(** The rows [duplicated] lets through. *)
Definition kept (seen rs : list (list cell)) : list (list cell) :=
  select (map negb (duplicated seen rs)) rs.

(** A numeric column holds no text. *)
Definition typed (s : Series) : Prop :=
  dtype s = numeric -> forallb not_text (values s) = true.

Definition well_typed (df : DataFrame) : Prop := Forall typed df.

(** The labels on which [_clean_dataframe] calls [pd.to_numeric]. *)
Definition numeric_label (col : string) : bool :=
  existsb (fun pattern => contains pattern (lower col)) numeric_patterns.

(** The rows and the columns that [dropna(how='all')] keeps. *)
Definition has_value (cells : list cell) : bool := negb (forallb isna cells).

(** A number, or a text in which [pd.to_numeric] reads one. *)
Definition reads_number (to_numeric_text : string -> option Q) (c : cell) : bool :=
  match c with
  | NaN => false
  | Num _ => true
  | Str t => match to_numeric_text t with Some _ => true | None => false end
  end.

(** The table [_clean_dataframe] gives when no label is repeated. *)
Definition loaded (to_numeric_text : string -> option Q) (df : DataFrame)
  : DataFrame :=
  map (fun s => if numeric_label (name s) then to_numeric to_numeric_text s else s)
      (filter (fun s => has_value (values s))
              (select_rows (row_mask has_value df) df)).

(** The records of a section of a result; the dictionary of an error has
    no section. *)
Definition records_of {R : Type} (section : Analysis -> list R)
  (result : FileResult) : list R :=
  match result with
  | FileAnalysis _ _ _ a => section a
  | ErrorResult _ => []
  end.

(** The keys of a dictionary of counts. *)
Definition keys (d : Counts) : list string := map fst d.


(** Every number of the column lies between [lo] and [hi]. *)
Definition within (lo hi : Q) (l : list cell) : Prop :=
  forall q, In (Num q) l -> (lo <= q <= hi)%Q.

(** The column is not of dtype [object] and holds no text. *)
Definition no_text (s : Series) : Prop :=
  dtype s <> object /\ forallb not_text (values s) = true.

(** The columns that [_is_numeric_column] designates hold no text. *)
Definition designated_without_text (file_type : string) (df : DataFrame) : Prop :=
  forall s, In s df -> _is_numeric_column (name s) file_type = true -> no_text s.

(* ================================================================== *)
(** ** Example tables *)

(** A table of a power-harmonic file: the fundamental has negative values,
    the third harmonic has none, the order of the last column is 0. *)
Definition harmonic_example : DataFrame :=
  [ mkSeries "P H 1 L1" numeric [Num (-2); Num (-1); Num 3];
    mkSeries "P H 3 L1" numeric [Num 2; Num 1; Num 3];
    mkSeries "P H 0 L1" numeric [Num 1; Num (-1); NaN] ].

(** A table of a trend file with three rows: a voltage column with one
    value above its band, a voltage column of texts, a voltage column
    without values, and a flicker column with one value above 1. *)
Definition trend_example : DataFrame :=
  [ mkSeries "U L1 avg. 10 min [V]" numeric [Num 120; Num 120; Num 150];
    mkSeries "U L2 avg. 10 min [V]" object [Str "a"; Str "b"; Str "c"];
    mkSeries "U L3 avg. 10 min [V]" numeric [NaN; NaN; NaN];
    mkSeries "Pst L1 instant. 10 min" numeric [Num 2; Num 0; Num 0] ].

(** The second column is blank in every row and is dropped; the first row
    is then missing in all that is left of it. *)
Definition pruning_example_a : DataFrame :=
  [ mkSeries "a" object [NaN; Str "x"];
    mkSeries "b" object [Str ""; Str " "] ].

(** No column is empty; the first row has a missing and a blank cell. *)
Definition pruning_example_b : DataFrame :=
  [ mkSeries "a" object [NaN; Str "x"];
    mkSeries "b" object [Str ""; Str "y"] ].

(** A table of a harmonic file with a phase column and an order column. *)
Definition phase_example : DataFrame :=
  [ mkSeries "phase_deg" numeric [Num 0; Num 360; Num 190; Num (-180); Num 180];
    mkSeries "harmonic_order" numeric [Num 1; Num (5 # 2); Num 3; Num 0; Num (7 # 2)] ].

(** A raw table of a trend file. *)
Definition raw_trend_example : DataFrame :=
  [ mkSeries "Time" object [Str "3"; Str "1"; Str "2"];
    mkSeries "Voltage A (V)" object [Str "230,5 V"; Str "n/a"; Str "-1"];
    mkSeries "Unnamed: 2" object [NaN; NaN; NaN] ].

(** A phase column that holds the binary64 number next below -180, which
    is -180 - 2 ^ -45 and prints as -180.00000000000003. *)
Definition edge_phase_example : DataFrame :=
  [ mkSeries "Phase" numeric [Num (-6333186975989761 # 35184372088832)] ].


(** A raw table in which the rules of the file types find nothing to do. *)
Definition plain_example : DataFrame :=
  [ mkSeries "Value (V)" object [Str "1"; Str "x"; Str "3"; Str "3 "];
    mkSeries "Note" object [Str "a"; Str "b"; Str "c"; Str "c"] ].


(** A trend file whose voltage column holds texts. *)
Definition text_voltage_example : DataFrame :=
  [ mkSeries "U L1 avg. 10 min [V]" object [Str "120"; NaN; Str "x"];
    mkSeries "Note" object [Str "a"; NaN; NaN] ].

(** A trend file with a channel for each of the three rules. *)
Definition full_trend_example : DataFrame :=
  [ mkSeries "U L1 avg. 10 min [V]" numeric [Num 120; Num 121];
    mkSeries "Pst L1 instant. 10 min" numeric [Num (1 # 2); Num 2];
    mkSeries "THD U L1 avg. 10 min [%]" numeric [Num 2; Num 3] ].


(** A table of harmonics with an order half way between two whole
    numbers, one below one half, a negative one and one beyond the range
    of [int64]. *)
Definition harmonic_order_example : DataFrame :=
  [ mkSeries "Harmonic" numeric
      [Num (7 # 2); Num (1 # 4); Num (-1); Num (inject_Z (10 ^ 19))];
    mkSeries "Magnitude" numeric [Num 10; Num 20; Num 30; Num 40] ].

(** A trend table whose rows are not in the order of time, with a
    negative and a missing voltage. *)
Definition measured_trend_example : DataFrame :=
  [ mkSeries "Time" numeric [Num 3; Num 1; Num 2; Num 4];
    mkSeries "Voltage A" numeric [Num 230; Num 231; Num (-1); NaN] ].


(* ================================================================== *)
(** ** Facts about texts *)

Lemma strip_prefix_spec (p s r : string) :
  strip_prefix p s = Some r <-> s = p ++ r.
Proof.
  revert s; induction p as [|a p IH]; intros s; simpl.
  - split; intros H; [injection H as ->|subst]; reflexivity.
  - destruct s as [|b s]; [split; discriminate|].
    destruct (Ascii.eqb_spec a b) as [->|Hab].
    + rewrite IH. split; intros H; [subst; reflexivity|injection H as ->; reflexivity].
    + split; [discriminate|]. intros H; injection H as H _. congruence.
Qed.

Lemma startswith_spec (p s : string) :
  startswith p s = true <-> exists r, s = p ++ r.
Proof.
  unfold startswith. destruct (strip_prefix p s) as [r|] eqn:E.
  - apply strip_prefix_spec in E. split; [eauto|reflexivity].
  - split; [discriminate|]. intros [r Hr].
    apply strip_prefix_spec in Hr. congruence.
Qed.

Lemma contains_spec (p s : string) : contains p s = true <-> occurs p s.
Proof.
  induction s as [|c s IH]; simpl.
  - rewrite orb_false_r, startswith_spec. split.
    + intros [r Hr]. exists EmptyString, r. exact Hr.
    + intros [pre [post H]]. destruct pre; [eauto|discriminate].
  - rewrite orb_true_iff, startswith_spec, IH. split.
    + intros [[r Hr]|[pre [post H]]].
      * exists EmptyString, r. exact Hr.
      * exists (String c pre), post. simpl. now rewrite H.
    + intros [pre [post H]]. destruct pre as [|a pre]; simpl in H.
      * left. eauto.
      * right. injection H as _ H. exists pre, post. exact H.
Qed.

Lemma contains_false (p s : string) : contains p s = false <-> ~ occurs p s.
Proof.
  rewrite <- contains_spec. destruct (contains p s); split; congruence.
Qed.

(* ================================================================== *)
(** ** Phase extraction *)

(** C6. The phase of a column is decided by the substrings "l1", "l2" and
    "l3" of its lower-cased label, looked for in that order: the first
    that occurs gives L1, L2 or L3, and a label with none of them gives
    GENERAL.  The label "Pst L2 instant. 10 min" gives L2. *)
Theorem phase_extraction_priority (column_name : string) :
  let col_lower := lower column_name in
  let phase := _extract_phase_from_column column_name in
  (phase = "L1" <-> occurs "l1" col_lower) /\
  (phase = "L2" <-> ~ occurs "l1" col_lower /\ occurs "l2" col_lower) /\
  (phase = "L3" <->
     ~ occurs "l1" col_lower /\ ~ occurs "l2" col_lower /\ occurs "l3" col_lower) /\
  (phase = "GENERAL" <->
     ~ occurs "l1" col_lower /\ ~ occurs "l2" col_lower /\ ~ occurs "l3" col_lower) /\
  _extract_phase_from_column "Pst L2 instant. 10 min" = "L2".
Proof.
  cbv zeta. unfold _extract_phase_from_column.
  destruct (contains "l1" (lower column_name)) eqn:E1;
    [apply contains_spec in E1|apply contains_false in E1];
  (destruct (contains "l2" (lower column_name)) eqn:E2;
    [apply contains_spec in E2|apply contains_false in E2]);
  (destruct (contains "l3" (lower column_name)) eqn:E3;
    [apply contains_spec in E3|apply contains_false in E3]);
  repeat split; intros; try discriminate; try tauto; try reflexivity.
Qed.

(* ================================================================== *)
(** ** Harmonic-order extraction *)

Lemma all_digits_cons (c : ascii) (ds : string) :
  is_digit c = true -> all_digits ds = true -> all_digits (String c ds) = true.
Proof.
  unfold all_digits. intros Hc Hds. simpl. rewrite Hc.
  apply String.eqb_eq in Hds. apply String.eqb_eq. now rewrite Hds.
Qed.

Lemma span_digits_spec (s ds r : string) :
  span_digits s = (ds, r) ->
  s = ds ++ r /\ all_digits ds = true /\ first_is_digit r = false.
Proof.
  revert ds r; induction s as [|c s IH]; intros ds r; simpl.
  - intros H; injection H as <- <-. repeat split.
  - destruct (is_digit c) eqn:Hc.
    + destruct (span_digits s) as [ds' r'] eqn:E.
      intros H; injection H as <- <-.
      destruct (IH _ _ eq_refl) as (-> & Hd & Hr).
      repeat split; auto using all_digits_cons.
    + intros H; injection H as <- <-. repeat split. simpl. exact Hc.
Qed.

Lemma span_digits_first (c : ascii) (t : string) :
  is_digit c = true -> fst (span_digits (String c t)) <> EmptyString.
Proof.
  intros Hc. simpl. rewrite Hc. destruct (span_digits t). discriminate.
Qed.

Lemma match_order_some (s ds : string) :
  match_order s = Some ds ->
  ds <> EmptyString /\ all_digits ds = true /\
  exists post, s = "P H " ++ ds ++ post /\ first_is_digit post = false.
Proof.
  unfold match_order. destruct (strip_prefix "P H " s) as [r|] eqn:E; [|discriminate].
  apply strip_prefix_spec in E. destruct (span_digits r) as [d r'] eqn:Es.
  apply span_digits_spec in Es. destruct Es as (-> & Hd & Hr).
  destruct d as [|c d]; [discriminate|]. intros H; injection H as <-.
  repeat split; [discriminate|exact Hd|]. exists r'. split; [exact E|exact Hr].
Qed.

Lemma match_order_none (s : string) :
  match_order s = None ->
  forall d post, s = "P H " ++ String d post -> is_digit d = false.
Proof.
  unfold match_order. intros H d post Hs.
  apply strip_prefix_spec in Hs. rewrite Hs in H.
  destruct (is_digit d) eqn:Hd; [|reflexivity].
  pose proof (span_digits_first d post Hd) as Hne.
  destruct (span_digits (String d post)) as [[|c ds] r]; [now elim Hne|discriminate].
Qed.

Lemma match_harmonic_order (s : string) :
  match_harmonic s = true -> match_order s <> None.
Proof.
  unfold match_harmonic, match_order.
  destruct (strip_prefix "P H " s) as [r|]; [|discriminate].
  destruct (span_digits r) as [[|c ds] r']; [discriminate|]. discriminate.
Qed.

Lemma search_order_some (s ds : string) :
  search_order s = Some ds ->
  ds <> EmptyString /\ all_digits ds = true /\
  exists pre post,
    s = pre ++ "P H " ++ ds ++ post /\ first_is_digit post = false /\
    forall a b, pre = a ++ b -> b <> EmptyString ->
                match_order (b ++ "P H " ++ ds ++ post) = None.
Proof.
  induction s as [|c s IH]; simpl.
  - discriminate.
  - destruct (match_order (String c s)) as [d|] eqn:Em.
    + intros H; injection H as ->.
      destruct (match_order_some _ _ Em) as (Hne & Hd & post & Hs & Hp).
      repeat split; auto. exists EmptyString, post. repeat split; auto.
      intros a b Hab Hb. destruct a; destruct b; try discriminate. now elim Hb.
    + intros H. destruct (IH H) as (Hne & Hd & pre & post & Hs & Hp & Hleft).
      repeat split; auto. exists (String c pre), post. repeat split.
      * simpl. now rewrite Hs.
      * exact Hp.
      * intros a b Hab Hb. destruct a as [|x a]; simpl in Hab.
        -- subst b. rewrite Hs in Em. exact Em.
        -- injection Hab as _ Hab. eauto.
Qed.

Lemma search_order_none (s : string) :
  search_order s = None ->
  search_harmonic s = false /\
  forall pre d post, s = pre ++ "P H " ++ String d post -> is_digit d = false.
Proof.
  induction s as [|c s IH]; simpl.
  - intros _. split; [reflexivity|]. intros [|x pre]; discriminate.
  - destruct (match_order (String c s)) as [d|] eqn:Em; [discriminate|].
    intros H. destruct (IH H) as (Hh & Hall). split.
    + rewrite Hh, orb_false_r.
      destruct (match_harmonic (String c s)) eqn:E; [|reflexivity].
      apply match_harmonic_order in E. congruence.
    + intros [|x pre] d post Hs.
      * eapply match_order_none; [exact Em|exact Hs].
      * injection Hs as _ Hs. exact (Hall pre d post Hs).
Qed.

Lemma harmonic_columns_spec (df : DataFrame) (col : string) :
  In col (harmonic_columns df) <->
  In col (columns df) /\ search_harmonic col = true
  /\ _extract_harmonic_order col <> 1%N.
Proof.
  unfold harmonic_columns. rewrite filter_In, andb_true_iff, negb_true_iff, N.eqb_neq.
  tauto.
Qed.

(** C7, as amended.  The order of a label is the integer written by the
    digits of the leftmost place where "P H " is followed by a digit, all
    the digits there being read; a label without such a place has order 1
    and is not a harmonic channel.  The order of a harmonic channel is a
    natural number other than 1; it may be 0. *)
Theorem harmonic_order_extraction (column_name : string) :
  match search_order column_name with
  | Some ds =>
      _extract_harmonic_order column_name = int ds /\
      ds <> EmptyString /\ all_digits ds = true /\
      exists pre post,
        column_name = pre ++ "P H " ++ ds ++ post /\
        first_is_digit post = false /\
        forall a b, pre = a ++ b -> b <> EmptyString ->
                    match_order (b ++ "P H " ++ ds ++ post) = None
  | None =>
      _extract_harmonic_order column_name = 1%N /\
      search_harmonic column_name = false /\
      forall pre d post,
        column_name = pre ++ "P H " ++ String d post -> is_digit d = false
  end /\
  (forall df, In column_name (harmonic_columns df) ->
              search_order column_name <> None /\
              _extract_harmonic_order column_name <> 1%N) /\
  (0 <= _extract_harmonic_order column_name)%N.
Proof.
  split; [|split].
  - unfold _extract_harmonic_order.
    destruct (search_order column_name) as [ds|] eqn:E.
    + destruct (search_order_some _ _ E) as (Hne & Hd & Hex). auto.
    + destruct (search_order_none _ E) as (Hh & Hall). auto.
  - intros df Hin. apply harmonic_columns_spec in Hin.
    destruct Hin as (_ & Hs & Ho). split; [|exact Ho].
    intros E. apply search_order_none in E. destruct E as [E _]. congruence.
  - apply N.le_0_l.
Qed.

(* ================================================================== *)
(** ** Rounding *)

Lemma round_half_even_cases (x : Q) :
  (round_half_even x = Qfloor x /\ (x - inject_Z (Qfloor x) <= 1 # 2)%Q) \/
  (round_half_even x = (Qfloor x + 1)%Z /\ (1 # 2 <= x - inject_Z (Qfloor x))%Q).
Proof.
  unfold round_half_even.
  destruct (Qcompare (x - inject_Z (Qfloor x)) (1 # 2)) eqn:E.
  - apply Qeq_alt in E. destruct (Z.even (Qfloor x)); [left|right];
      (split; [reflexivity|rewrite E; apply Qle_refl]).
  - apply Qlt_alt in E. left. split; [reflexivity|now apply Qlt_le_weak].
  - apply Qgt_alt in E. right. split; [reflexivity|now apply Qlt_le_weak].
Qed.

Lemma inject_Z_succ (z : Z) : (inject_Z (z + 1) == inject_Z z + 1)%Q.
Proof. now rewrite inject_Z_plus. Qed.

(** Rounding to an integer stays between the integers around the number. *)
Lemma round_half_even_bounds (a b : Z) (x : Q) :
  (inject_Z a <= x <= inject_Z b)%Q -> (a <= round_half_even x <= b)%Z.
Proof.
  intros [Ha Hb].
  pose proof (Qfloor_le x) as Hf. pose proof (Qlt_floor x) as Hf'.
  rewrite inject_Z_succ in Hf'.
  assert (Hfa : (a <= Qfloor x)%Z).
  { rewrite <- (Qfloor_Z a). now apply Qfloor_resp_le. }
  destruct (round_half_even_cases x) as [[-> H]|[-> H]].
  - split; [exact Hfa|]. rewrite Zle_Qle. lra.
  - split; [lia|].
    assert (Hlt : (inject_Z (Qfloor x) < inject_Z b)%Q) by lra.
    rewrite <- Zlt_Qlt in Hlt. lia.
Qed.

Lemma round_half_even_monotone (x y : Q) :
  (x <= y)%Q -> (round_half_even x <= round_half_even y)%Z.
Proof.
  intros Hxy.
  pose proof (Qfloor_resp_le x y Hxy) as Hf.
  pose proof (Qfloor_le x) as Hx. pose proof (Qlt_floor x) as Hx'.
  pose proof (Qfloor_le y) as Hy. pose proof (Qlt_floor y) as Hy'.
  rewrite inject_Z_succ in Hx', Hy'.
  destruct (Z.eq_dec (Qfloor x) (Qfloor y)) as [E|E].
  - unfold round_half_even. rewrite <- E.
    destruct (Qcompare (x - inject_Z (Qfloor x)) (1 # 2)) eqn:Ex;
      destruct (Qcompare (y - inject_Z (Qfloor x)) (1 # 2)) eqn:Ey;
      repeat match goal with
             | H : Qcompare _ _ = Eq |- _ => apply Qeq_alt in H
             | H : Qcompare _ _ = Lt |- _ => apply Qlt_alt in H
             | H : Qcompare _ _ = Gt |- _ => apply Qgt_alt in H
             end;
      try (destruct (Z.even (Qfloor x))); try lia; exfalso; lra.
  - assert (Hlt : (Qfloor x + 1 <= Qfloor y)%Z) by lia.
    destruct (round_half_even_cases x) as [[-> _]|[-> _]];
      destruct (round_half_even_cases y) as [[-> _]|[-> _]]; lia.
Qed.

Lemma scale_positive (ndigits : nat) : (0 < inject_Z (10 ^ Z.of_nat ndigits))%Q.
Proof.
  rewrite <- (Zlt_Qlt 0). apply Z.pow_pos_nonneg; lia.
Qed.

(** [round(q, ndigits)] stays between the integers around [q]. *)
Lemma round_bounds (a b : Z) (q : Q) (ndigits : nat) :
  (inject_Z a <= q <= inject_Z b)%Q ->
  (inject_Z a <= round q ndigits <= inject_Z b)%Q.
Proof.
  intros [Ha Hb]. unfold round. pose proof (scale_positive ndigits) as Hs.
  set (p := (10 ^ Z.of_nat ndigits)%Z) in *.
  assert (H : (a * p <= round_half_even (q * inject_Z p) <= b * p)%Z).
  { apply round_half_even_bounds. rewrite !inject_Z_mult. split.
    - apply Qmult_le_compat_r; [exact Ha|now apply Qlt_le_weak].
    - apply Qmult_le_compat_r; [exact Hb|now apply Qlt_le_weak]. }
  destruct H as [H1 H2]. rewrite Zle_Qle, inject_Z_mult in H1, H2.
  split.
  - apply Qle_shift_div_l; assumption.
  - apply Qle_shift_div_r; assumption.
Qed.

(** The exponent of a number below [2 ^ 53] in magnitude is at most 52. *)
Lemma ilog2_small (q : Q) :
  (Qabs q < inject_Z (2 ^ 53))%Q -> (ilog2 q <= 52)%Z.
Proof.
  intros H. unfold ilog2. destruct (Qle_bool 1 (Qabs q)) eqn:E.
  - apply Qle_bool_iff in E.
    assert (H1 : (1 <= Qfloor (Qabs q))%Z).
    { rewrite <- (Qfloor_Z 1). now apply Qfloor_resp_le. }
    assert (H2 : (Qfloor (Qabs q) < 2 ^ 53)%Z).
    { rewrite Zlt_Qlt. eapply Qle_lt_trans; [apply Qfloor_le|exact H]. }
    assert (H3 : (Z.log2 (Qfloor (Qabs q)) < 53)%Z) by (apply Z.log2_lt_pow2; lia).
    lia.
  - pose proof (Z.log2_up_nonneg (Qceiling (/ Qabs q))). lia.
Qed.

(** A power of two whose exponent is not positive is the inverse of a whole
    number. *)
Lemma pow2_nonpos (k : Z) :
  (k <= 0)%Z -> (2 ^ k == / inject_Z (2 ^ (- k)))%Q /\ (0 < 2 ^ (- k))%Z.
Proof.
  intros Hk. split; [|apply Z.pow_pos_nonneg; lia].
  rewrite Zpower_Qpower by lia.
  replace k with (- - k)%Z at 1 by lia. now rewrite Qpower_opp.
Qed.

(** Rounding to binary64 does not cross a whole number below [2 ^ 53]. *)
Lemma b64_between (a b : Z) (q : Q) :
  (- 2 ^ 53 < a)%Z -> (b < 2 ^ 53)%Z ->
  (inject_Z a <= q <= inject_Z b)%Q ->
  (inject_Z a <= b64 q <= inject_Z b)%Q.
Proof.
  intros Ha Hb [Hlo Hhi].
  assert (Hq : (Qabs q < inject_Z (2 ^ 53))%Q).
  { rewrite Zlt_Qlt in Ha, Hb. rewrite inject_Z_opp in Ha.
    apply Qabs_case; intros _; lra. }
  pose proof (ilog2_small q Hq) as He.
  unfold b64. rewrite Qred_correct.
  set (k := Z.max (ilog2 q - 52) (-1074)).
  assert (Hk : (k <= 0)%Z) by (unfold k; lia).
  destruct (pow2_nonpos k Hk) as [Hpow Hp].
  set (p := (2 ^ (- k))%Z) in *.
  assert (Hpq : (0 < inject_Z p)%Q) by now rewrite <- (Zlt_Qlt 0).
  assert (E : (q / 2 ^ k == q * inject_Z p)%Q) by (rewrite Hpow; field; lra).
  assert (H : (a * p <= round_half_even (q / 2 ^ k) <= b * p)%Z).
  { apply round_half_even_bounds. rewrite !inject_Z_mult, E.
    split; apply Qmult_le_compat_r; lra. }
  destruct H as [H1 H2]. rewrite Zle_Qle, inject_Z_mult in H1, H2.
  set (r := round_half_even (q / 2 ^ k)) in *. rewrite Hpow. split.
  - apply Qle_shift_div_l; assumption.
  - apply Qle_shift_div_r; assumption.
Qed.

(** A whole number below [2 ^ 53] is a binary64 number. *)
Lemma b64_whole (n : Z) :
  (- 2 ^ 53 < n < 2 ^ 53)%Z -> b64 (inject_Z n) = inject_Z n.
Proof.
  intros [H1 H2].
  assert (H : (b64 (inject_Z n) == inject_Z n)%Q).
  { apply Qle_antisym; apply (b64_between n n); try assumption; lra. }
  unfold b64 in *. rewrite Qred_correct in H. apply Qred_complete in H.
  rewrite H. unfold Qred, inject_Z. simpl.
  pose proof (Z.ggcd_gcd n 1) as Hg. pose proof (Z.ggcd_correct_divisors n 1) as Hd.
  destruct (Z.ggcd n 1) as (g & aa & bb). simpl in *.
  rewrite Z.gcd_1_r in Hg. subst g. destruct Hd as [Hn Hb].
  rewrite Z.mul_1_l in Hn, Hb. subst. reflexivity.
Qed.

(* ================================================================== *)
(** ** The records of the four rules *)

Lemma getitem_In (df : DataFrame) (col : string) (s : Series) :
  In s (getitem df col) <-> In s df /\ name s = col.
Proof.
  unfold getitem. rewrite filter_In, String.eqb_eq. tauto.
Qed.

Lemma numeric_values_spec (df : DataFrame) (col : string) (vals : list Q) :
  numeric_values df col = Some vals <->
  exists s, getitem df col = [s] /\ dtype s = numeric /\ vals = dropna (values s).
Proof.
  unfold numeric_values, is_numeric_dtype.
  destruct (getitem df col) as [|s [|s' l]].
  - split; [discriminate|]. intros (s & H & _). discriminate.
  - destruct (dtype s) eqn:Ed.
    + split; [discriminate|]. intros (s0 & H & Hd & _).
      injection H as <-. congruence.
    + split.
      * intros H; injection H as <-. exists s. auto.
      * intros (s0 & H & _ & ->). injection H as <-. reflexivity.
    + split; [discriminate|]. intros (s0 & H & Hd & _).
      injection H as <-. congruence.
  - split; [discriminate|]. intros (s0 & H & _). discriminate.
Qed.

Lemma matching_cols_spec (df : DataFrame) (target_col col : string) :
  In col (matching_cols df target_col) <->
  In col (columns df) /\ occurs (lower target_col) (lower col).
Proof.
  unfold matching_cols. rewrite filter_In, contains_spec. tauto.
Qed.

(** The records of a rule that goes through the targets, then through the
    columns that match a target, and keeps the numeric columns that have a
    value. *)
Lemma in_rule_records {R : Type} (mk : string -> list Q -> R)
  (df : DataFrame) (targets : list string) (r : R) :
  In r (flat_map (fun target_col =>
          flat_map (fun col =>
            match numeric_values df col with
            | Some (v :: vs) => [mk col (v :: vs)]
            | _ => []
            end) (matching_cols df target_col)) targets) <->
  exists target_col col v vs,
    In target_col targets /\ In col (matching_cols df target_col) /\
    numeric_values df col = Some (v :: vs) /\ r = mk col (v :: vs).
Proof.
  rewrite in_flat_map. split.
  - intros (t & Ht & Hr). apply in_flat_map in Hr. destruct Hr as (col & Hc & Hr).
    destruct (numeric_values df col) as [[|v vs]|] eqn:E; try contradiction.
    destruct Hr as [<-|[]]. exists t, col, v, vs. auto.
  - intros (t & col & v & vs & Ht & Hc & Hn & ->). exists t. split; [exact Ht|].
    apply in_flat_map. exists col. split; [exact Hc|]. rewrite Hn. now left.
Qed.

Lemma in_voltage_deviations (df : DataFrame) (total : nat) (r : VoltageRecord) :
  In r (_analyze_voltage_deviations df total) <->
  exists target_col col v vs,
    In target_col voltage_target_columns /\ In col (matching_cols df target_col) /\
    numeric_values df col = Some (v :: vs) /\ r = voltage_record col (v :: vs) total.
Proof.
  exact (in_rule_records (fun col vals => voltage_record col vals total)
           df voltage_target_columns r).
Qed.

Lemma in_flickers (df : DataFrame) (total : nat) (r : LimitRecord) :
  In r (_analyze_flickers df total) <->
  exists target_col col v vs,
    In target_col flicker_target_columns /\ In col (matching_cols df target_col) /\
    numeric_values df col = Some (v :: vs) /\
    r = limit_record flicker_limit col (v :: vs) total.
Proof.
  exact (in_rule_records (fun col vals => limit_record flicker_limit col vals total)
           df flicker_target_columns r).
Qed.

Lemma in_thd (df : DataFrame) (total : nat) (r : LimitRecord) :
  In r (_analyze_thd df total) <->
  exists target_col col v vs,
    In target_col thd_target_columns /\ In col (matching_cols df target_col) /\
    numeric_values df col = Some (v :: vs) /\
    r = limit_record thd_limit col (v :: vs) total.
Proof.
  exact (in_rule_records (fun col vals => limit_record thd_limit col vals total)
           df thd_target_columns r).
Qed.

Lemma in_harmonics_results (df : DataFrame) (r : HarmonicRecord) :
  In r (harmonics_results df) <->
  exists col v vs,
    In col (harmonic_columns df) /\ numeric_values df col = Some (v :: vs) /\
    r = harmonic_record col (v :: vs) harmonic_total_measurements.
Proof.
  unfold harmonics_results. rewrite in_flat_map. split.
  - intros (col & Hc & Hr).
    destruct (numeric_values df col) as [[|v vs]|] eqn:E; try contradiction.
    destruct Hr as [<-|[]]. exists col, v, vs. auto.
  - intros (col & v & vs & Hc & Hn & ->). exists col. split; [exact Hc|].
    rewrite Hn. now left.
Qed.

Lemma analyze_cases (df : DataFrame) (file_type : string) :
  analyze df file_type = _analyze_tendencia_complete df \/
  analyze df file_type = _analyze_armonicos_complete df.
Proof.
  unfold analyze. destruct (String.eqb file_type "tendencia"); [now left|].
  destruct (String.eqb file_type "armonicos_potencia"); [now right|now left].
Qed.

(** C3. No harmonic record of an analysis has order 1: a column whose
    extracted order is 1 yields no record, whatever the table holds. *)
Theorem no_fundamental_harmonic_record (df : DataFrame) (file_type : string)
  (r : HarmonicRecord) :
  In r (harmonics_analysis_of (analyze df file_type)) ->
  orden_armonico r <> 1%N /\ _extract_harmonic_order (h_parametro r) <> 1%N.
Proof.
  destruct (analyze_cases df file_type) as [-> | ->]; simpl; [contradiction|].
  intros Hr. apply in_harmonics_results in Hr.
  destruct Hr as (col & v & vs & Hc & _ & ->). simpl.
  apply harmonic_columns_spec in Hc. destruct Hc as (_ & _ & Ho). auto.
Qed.

Lemma no_fundamental_harmonic_record_witness :
  let r := harmonic_record "P H 3 L1" [2; 1; 3]%Q 2150 in
  In r (harmonics_analysis_of (analyze harmonic_example "armonicos_potencia"))
  /\ orden_armonico r <> 1%N.
Proof.
  cbv zeta. split.
  - vm_compute. left. reflexivity.
  - apply (no_fundamental_harmonic_record harmonic_example "armonicos_potencia").
    vm_compute. left. reflexivity.
Defined.

(** C7, as stated, fails: the column "P H 0 L1" is a harmonic channel, it
    yields a record, and its order is 0. *)
Lemma harmonic_order_zero :
  search_harmonic "P H 0 L1" = true /\
  _extract_harmonic_order "P H 0 L1" = 0%N /\
  (exists r, In r (harmonics_results harmonic_example)
             /\ h_parametro r = "P H 0 L1" /\ orden_armonico r = 0%N) /\
  ~ (forall df r, In r (harmonics_results df) -> (1 <= orden_armonico r)%N).
Proof.
  assert (Hex : exists r, In r (harmonics_results harmonic_example)
                          /\ h_parametro r = "P H 0 L1" /\ orden_armonico r = 0%N).
  { exists (harmonic_record "P H 0 L1" [1; -1]%Q 2150). split.
    - vm_compute. right. left. reflexivity.
    - split; reflexivity. }
  repeat split; try reflexivity; [exact Hex|].
  intros H. destruct Hex as (r & Hin & _ & Ho).
  specialize (H _ _ Hin). rewrite Ho in H. now apply H.
Qed.

Lemma numeric_values_cons (df : DataFrame) (col : string) (v : Q) (vs : list Q) :
  numeric_values df col = Some (v :: vs) -> has_numeric_value df col.
Proof.
  intros H. apply numeric_values_spec in H. destruct H as (s & Hg & Hd & Hv).
  exists s. repeat split; auto. rewrite <- Hv. discriminate.
Qed.

Lemma has_numeric_value_excludes (df : DataFrame) (s : Series) :
  In s df -> dtype s <> numeric \/ dropna (values s) = [] ->
  ~ has_numeric_value df (name s).
Proof.
  intros Hin Hbad (s' & Hg & Hd & Hv).
  assert (Hs : In s (getitem df (name s))) by (apply getitem_In; auto).
  rewrite Hg in Hs. destruct Hs as [->|[]]. tauto.
Qed.

(** C10. In each of the four rules, a column that is not numeric or has no
    value that is not missing yields no record; every record comes from a
    label that denotes one numeric column with such a value. *)
Theorem records_only_for_numeric_channels (df : DataFrame) (s : Series) :
  In s df ->
  dtype s <> numeric \/ dropna (values s) = [] ->
  (forall r, In r (_analyze_voltage_deviations df (len df)) ->
             v_parametro r <> name s /\ has_numeric_value df (v_parametro r)) /\
  (forall r, In r (_analyze_flickers df (len df)) ->
             l_parametro r <> name s /\ has_numeric_value df (l_parametro r)) /\
  (forall r, In r (_analyze_thd df (len df)) ->
             l_parametro r <> name s /\ has_numeric_value df (l_parametro r)) /\
  (forall r, In r (harmonics_results df) ->
             h_parametro r <> name s /\ has_numeric_value df (h_parametro r)).
Proof.
  intros Hin Hbad. pose proof (has_numeric_value_excludes df s Hin Hbad) as Hno.
  assert (Hne : forall col, has_numeric_value df col ->
                            col <> name s /\ has_numeric_value df col).
  { intros col Hc. split; [|exact Hc]. intros ->. contradiction. }
  split; [|split; [|split]].
  - intros r Hr. apply in_voltage_deviations in Hr.
    destruct Hr as (t & col & v & vs & _ & _ & Hn & ->).
    apply Hne. simpl. eapply numeric_values_cons; eauto.
  - intros r Hr. apply in_flickers in Hr.
    destruct Hr as (t & col & v & vs & _ & _ & Hn & ->).
    apply Hne. simpl. eapply numeric_values_cons; eauto.
  - intros r Hr. apply in_thd in Hr.
    destruct Hr as (t & col & v & vs & _ & _ & Hn & ->).
    apply Hne. simpl. eapply numeric_values_cons; eauto.
  - intros r Hr. apply in_harmonics_results in Hr.
    destruct Hr as (col & v & vs & _ & Hn & ->).
    apply Hne. simpl. eapply numeric_values_cons; eauto.
Qed.

Lemma records_only_for_numeric_channels_witness :
  let r := voltage_record "U L1 avg. 10 min [V]" [120; 120; 150]%Q 3 in
  In r (_analyze_voltage_deviations trend_example (len trend_example)) /\
  v_parametro r <> "U L2 avg. 10 min [V]" /\
  has_numeric_value trend_example (v_parametro r).
Proof.
  cbv zeta. split.
  - vm_compute. left. reflexivity.
  - refine (proj1 (records_only_for_numeric_channels trend_example
                     (mkSeries "U L2 avg. 10 min [V]" object
                        [Str "a"; Str "b"; Str "c"]) _ _) _ _).
    + simpl. right. left. reflexivity.
    + left. simpl. discriminate.
    + vm_compute. left. reflexivity.
Defined.

Lemma Qltb_spec (a b : Q) : Qltb a b = true <-> (a < b)%Q.
Proof.
  unfold Qltb. rewrite negb_true_iff. split.
  - intros H. apply Qnot_le_lt. intros Hle.
    apply Qle_bool_iff in Hle. congruence.
  - intros H. destruct (Qle_bool b a) eqn:E; [|reflexivity].
    apply Qle_bool_iff in E. exfalso. exact (Qlt_not_le _ _ H E).
Qed.

Lemma in_voltage_deviations_binary64 (sum_of : list Q -> Q) (df : DataFrame)
  (total : nat) (r : VoltageRecord) :
  In r (Binary64._analyze_voltage_deviations sum_of df total) <->
  exists target_col col v vs,
    In target_col voltage_target_columns /\ In col (matching_cols df target_col) /\
    numeric_values df col = Some (v :: vs) /\
    r = Binary64.voltage_record sum_of col (v :: vs) total.
Proof.
  exact (in_rule_records (fun col vals => Binary64.voltage_record sum_of col vals total)
           df voltage_target_columns r).
Qed.

Lemma in_limit_records_binary64 (sum_of : list Q -> Q) (df : DataFrame)
  (total : nat) (r : LimitRecord) :
  In r (Binary64._analyze_flickers sum_of df total) \/
  In r (Binary64._analyze_thd sum_of df total) ->
  exists the_limit col vals, r = Binary64.limit_record sum_of the_limit col vals total.
Proof.
  intros [Hr|Hr];
    apply (in_rule_records
             (fun col vals => Binary64.limit_record sum_of _ col vals total)) in Hr;
    destruct Hr as (t & col & v & vs & _ & _ & _ & ->); eauto.
Qed.

Lemma in_harmonics_results_binary64 (sum_of : list Q -> Q) (df : DataFrame)
  (r : HarmonicRecord) :
  In r (Binary64.harmonics_results sum_of df) ->
  exists col vals,
    r = Binary64.harmonic_record sum_of col vals harmonic_total_measurements.
Proof.
  unfold Binary64.harmonics_results. rewrite in_flat_map.
  intros (col & Hc & Hr).
  destruct (numeric_values df col) as [[|v vs]|] eqn:E; try contradiction.
  destruct Hr as [<-|[]]. eauto.
Qed.

Lemma analyze_cases_binary64 (sum_of : list Q -> Q) (df : DataFrame)
  (file_type : string) :
  Binary64.analyze sum_of df file_type = Binary64._analyze_tendencia_complete sum_of df \/
  Binary64.analyze sum_of df file_type = Binary64._analyze_armonicos_complete sum_of df.
Proof.
  unfold Binary64.analyze. destruct (String.eqb file_type "tendencia"); [now left|].
  destruct (String.eqb file_type "armonicos_potencia"); [now right|now left].
Qed.



(** C2, as stated, fails: with one flicker violation in three rows the
    record holds the binary64 number of 33.333333, which is neither the
    binary64 number that (1 / 3) * 100 is nor the third of a hundred. *)
Lemma percentage_is_rounded :
  exists r, In r (flickers_of (Binary64.analyze Binary64.sum_in_order
                                 trend_example "tendencia")) /\
            l_violaciones r = 1%nat /\ l_total_mediciones r = 3%nat /\
            l_porcentaje r = b64 (33333333 # 1000000) /\
            ~ (l_porcentaje r ==
               b64 (b64 (inject_Z (Z.of_nat (l_violaciones r))
                         / inject_Z (Z.of_nat (l_total_mediciones r))) * 100))%Q /\
            ~ (l_porcentaje r ==
               inject_Z (Z.of_nat (l_violaciones r))
               / inject_Z (Z.of_nat (l_total_mediciones r)) * 100)%Q.
Proof.
  exists (Binary64.limit_record Binary64.sum_in_order flicker_limit
            "Pst L1 instant. 10 min" [2; 0; 0]%Q 3).
  split; [vm_compute; left; reflexivity|].
  split; [reflexivity|]. split; [reflexivity|]. split; [vm_compute; reflexivity|].
  split; vm_compute; discriminate.
Qed.

(** C2, as amended.  The percentage of a record is the violation count
    over the total of the record, times 100, computed in binary64 and
    rounded to six decimals, and to eight in a harmonic record; the total
    is the number of rows of the table in the voltage, flicker and THD
    records and 2150 in every harmonic record. *)
Theorem percentage_denominators (sum_of : list Q -> Q) (df : DataFrame)
  (file_type : string) :
  let a := Binary64.analyze sum_of df file_type in
  let percentage := fun count total : nat =>
    b64 (b64 (inject_Z (Z.of_nat count) / inject_Z (Z.of_nat total)) * 100) in
  (forall r, In r (voltage_deviations_of a) ->
     v_total_mediciones r = len df /\
     porcentaje_desviacion r =
       b64 (round (percentage (v_violaciones r) (v_total_mediciones r)) 6)) /\
  (forall r, In r (flickers_of a) ->
     l_total_mediciones r = len df /\
     l_porcentaje r =
       b64 (round (percentage (l_violaciones r) (l_total_mediciones r)) 6)) /\
  (forall r, In r (thd_analysis_of a) ->
     l_total_mediciones r = len df /\
     l_porcentaje r =
       b64 (round (percentage (l_violaciones r) (l_total_mediciones r)) 6)) /\
  (forall r, In r (harmonics_analysis_of a) ->
     h_total_mediciones r = 2150%nat /\
     porcentaje r = b64 (round (percentage (valores_negativos r) 2150) 8)).
Proof.
  cbv zeta. destruct (analyze_cases_binary64 sum_of df file_type) as [-> | ->]; simpl;
    (split; [|split; [|split]]); intros r Hr; try contradiction.
  - apply in_voltage_deviations_binary64 in Hr.
    destruct Hr as (t & col & v & vs & _ & _ & _ & ->). split; reflexivity.
  - destruct (in_limit_records_binary64 sum_of df (len df) r (or_introl Hr))
      as (l & col & vals & ->). split; reflexivity.
  - destruct (in_limit_records_binary64 sum_of df (len df) r (or_intror Hr))
      as (l & col & vals & ->). split; reflexivity.
  - destruct (in_harmonics_results_binary64 sum_of df r Hr) as (col & vals & ->).
    split; reflexivity.
Qed.

(* ================================================================== *)
(** ** Rows and row selection *)

Lemma aligned_uniform (df : DataFrame) : aligned df <-> uniform (len df) df.
Proof. unfold aligned, uniform. now rewrite Forall_forall. Qed.

Lemma uniform_len (n : nat) (df : DataFrame) :
  uniform n df -> df <> [] -> len df = n.
Proof.
  intros H Hne. destruct df as [|s t]; [contradiction|].
  inversion H; subst. reflexivity.
Qed.

Lemma uniform_aligned (n : nat) (df : DataFrame) : uniform n df -> aligned df.
Proof.
  intros H. apply aligned_uniform. destruct df as [|s t]; [constructor|].
  rewrite (uniform_len n); [exact H|exact H|discriminate].
Qed.

Lemma uniform_filter (n : nat) (f : Series -> bool) (df : DataFrame) :
  uniform n df -> uniform n (filter f df).
Proof.
  unfold uniform. rewrite !Forall_forall. intros H s Hs.
  apply filter_In in Hs. apply H. tauto.
Qed.

Lemma select_nil_r {A : Type} (mask : list bool) : select mask (@nil A) = [].
Proof. destruct mask; reflexivity. Qed.

Lemma zip_cons_nil_r (cells : list cell) : zip_cons cells [] = [].
Proof. destruct cells; reflexivity. Qed.

Lemma select_zip_cons (mask : list bool) (cells : list cell) (rs : list (list cell)) :
  select mask (zip_cons cells rs) = zip_cons (select mask cells) (select mask rs).
Proof.
  revert cells rs; induction mask as [|b m IH]; intros cells rs.
  - reflexivity.
  - destruct cells as [|c cells]; [reflexivity|].
    destruct rs as [|r rs].
    + simpl. now rewrite zip_cons_nil_r.
    + simpl. destruct b; simpl; now rewrite IH.
Qed.

Lemma select_repeat {A : Type} (x : A) (mask : list bool) :
  select mask (repeat x (List.length mask)) = repeat x (count_true mask).
Proof.
  induction mask as [|b m IH]; [reflexivity|].
  simpl. destruct b; unfold count_true in *; simpl; now rewrite IH.
Qed.

Lemma select_length {A : Type} (mask : list bool) (l : list A) :
  List.length l = List.length mask -> List.length (select mask l) = count_true mask.
Proof.
  revert l; induction mask as [|b m IH]; intros l Hl.
  - reflexivity.
  - destruct l as [|x l]; [discriminate|]. simpl in Hl. injection Hl as Hl.
    unfold count_true in *. simpl. destruct b; simpl; now rewrite IH.
Qed.

Lemma select_map_filter {A : Type} (p : A -> bool) (l : list A) :
  select (map p l) l = filter p l.
Proof.
  induction l as [|x l IH]; [reflexivity|].
  simpl. destruct (p x); now rewrite IH.
Qed.

Lemma select_rows_uniform (mask : list bool) (df : DataFrame) :
  uniform (List.length mask) df -> uniform (count_true mask) (select_rows mask df).
Proof.
  unfold uniform, select_rows. intros H. apply Forall_map.
  eapply Forall_impl; [|exact H]. simpl. intros s Hs. now apply select_length.
Qed.

Lemma rows_from_select (mask : list bool) (df : DataFrame) :
  select mask (rows_from (List.length mask) df)
  = rows_from (count_true mask) (select_rows mask df).
Proof.
  induction df as [|s t IH]; simpl.
  - apply select_repeat.
  - rewrite select_zip_cons. fold (rows_from (List.length mask) t). now rewrite IH.
Qed.

Lemma rows_uniform (n : nat) (df : DataFrame) :
  uniform n df -> df <> [] -> rows df = rows_from n df.
Proof.
  intros H Hne. unfold rows. now rewrite (uniform_len n).
Qed.

Lemma rows_select_rows (mask : list bool) (df : DataFrame) :
  uniform (List.length mask) df ->
  rows (select_rows mask df) = select mask (rows df).
Proof.
  intros H. destruct df as [|s t] eqn:E.
  - destruct mask; reflexivity.
  - rewrite <- E in *. rewrite (rows_uniform (List.length mask) df); [|exact H|congruence].
    rewrite rows_from_select.
    apply rows_uniform; [now apply select_rows_uniform|].
    subst df. discriminate.
Qed.

Lemma zip_cons_length (n : nat) (cells : list cell) (rs : list (list cell)) :
  List.length cells = n -> List.length rs = n -> List.length (zip_cons cells rs) = n.
Proof.
  revert cells rs; induction n as [|n IH]; intros [|c cells] [|r rs];
    simpl; intros H1 H2; try discriminate; try reflexivity.
  f_equal. apply IH; congruence.
Qed.

Lemma rows_from_length (n : nat) (df : DataFrame) :
  uniform n df -> List.length (rows_from n df) = n.
Proof.
  induction 1 as [|s t Hs Ht IH]; simpl.
  - apply repeat_length.
  - now apply zip_cons_length.
Qed.

Lemma row_mask_length (n : nat) (p : list cell -> bool) (df : DataFrame) :
  uniform n df -> df <> [] -> List.length (row_mask p df) = n.
Proof.
  intros H Hne. unfold row_mask. rewrite length_map, (rows_uniform n); auto.
  now apply rows_from_length.
Qed.

(** Dropping the rows a predicate rejects keeps the rows it accepts. *)
Lemma rows_select_row_mask (n : nat) (p : list cell -> bool) (df : DataFrame) :
  uniform n df ->
  rows (select_rows (row_mask p df) df) = filter p (rows df)
  /\ exists k, uniform k (select_rows (row_mask p df) df).
Proof.
  intros H. destruct df as [|s t] eqn:E.
  - split; [reflexivity|]. exists 0. constructor.
  - rewrite <- E in *. assert (Hne : df <> []) by congruence.
    pose proof (row_mask_length n p df H Hne) as Hl.
    assert (Hu : uniform (List.length (row_mask p df)) df) by now rewrite Hl.
    split.
    + rewrite rows_select_rows by exact Hu. apply select_map_filter.
    + eexists. apply select_rows_uniform. exact Hu.
Qed.

Lemma filter_filter {A : Type} (p q : A -> bool) (l : list A) :
  filter q (filter p l) = filter (fun x => p x && q x) l.
Proof.
  induction l as [|x l IH]; [reflexivity|].
  simpl. destruct (p x); simpl; [destruct (q x)|]; now rewrite IH.
Qed.

Lemma remove_empty_rows_spec (n : nat) (df : DataFrame) :
  uniform n df ->
  rows (remove_empty_rows df)
  = filter (fun r => negb (all_nan r) && negb (all_blank r)) (rows df).
Proof.
  intros H. unfold remove_empty_rows.
  destruct (rows_select_row_mask n (fun r => negb (all_nan r)) df H) as (E1 & k & Hk).
  destruct (rows_select_row_mask k (fun r => negb (all_blank r)) _ Hk) as (E2 & _).
  rewrite E2, E1. apply filter_filter.
Qed.

(* ================================================================== *)
(** ** The pruning of empty rows *)

(** C9, as stated, fails.  In the first table the first row has its only
    cell that is not missing in a column that is dropped: judged on the
    table as it came in it would stay, and it is dropped.  In the second
    table the first row holds only missing and blank cells, and it stays. *)
Lemma rows_not_judged_on_original :
  (_remove_empty_rows_columns pruning_example_a = [ mkSeries "a" object [Str "x"] ] /\
   rows_judged_on_original (fun r => all_nan r || all_blank r) pruning_example_a
   = [ mkSeries "a" object [NaN; Str "x"] ]) /\
  (_remove_empty_rows_columns pruning_example_b = pruning_example_b /\
   rows_judged_on_original (forallb (fun c => isna c || blank c)) pruning_example_b
   = [ mkSeries "a" object [Str "x"]; mkSeries "b" object [Str "y"] ]).
Proof. repeat split. Qed.

Lemma columns_select_rows (mask : list bool) (df : DataFrame) :
  columns (select_rows mask df) = columns df.
Proof.
  unfold columns, select_rows. rewrite map_map. reflexivity.
Qed.

(** C9, as amended.  The rows are judged on the table that the pruning of
    the columns leaves: a row of that table is dropped exactly when its
    cells are all missing or are all blank texts, and the other rows stay
    as they are, in their order. *)
Theorem rows_pruned_after_columns (df : DataFrame) :
  aligned df ->
  rows (_remove_empty_rows_columns df)
  = filter (fun r => negb (all_nan r) && negb (all_blank r))
           (rows (remove_empty_columns df))
  /\ columns (_remove_empty_rows_columns df) = columns (remove_empty_columns df).
Proof.
  intros H. apply aligned_uniform in H. split.
  - apply (remove_empty_rows_spec (len df)).
    unfold remove_empty_columns. now do 2 apply uniform_filter.
  - unfold _remove_empty_rows_columns, remove_empty_rows.
    now rewrite !columns_select_rows.
Qed.

Lemma rows_pruned_after_columns_witness :
  rows (_remove_empty_rows_columns pruning_example_a)
  = filter (fun r => negb (all_nan r) && negb (all_blank r))
           (rows (remove_empty_columns pruning_example_a))
  /\ columns (_remove_empty_rows_columns pruning_example_a)
     = columns (remove_empty_columns pruning_example_a).
Proof.
  apply (rows_pruned_after_columns pruning_example_a).
  intros s [<-|[<-|[]]]; reflexivity.
Defined.

(* ================================================================== *)
(** ** Loops over the columns of a frame with distinct labels *)

Lemma member_In (col : string) (cols : list string) :
  member col cols = true <-> In col cols.
Proof.
  unfold member. rewrite existsb_exists. split.
  - intros (x & Hx & E). apply String.eqb_eq in E. now subst.
  - intros H. exists col. split; [exact H|apply String.eqb_refl].
Qed.

Lemma getitem_unique (df : DataFrame) (col : string) :
  NoDup (columns df) ->
  getitem df col = [] \/ exists s, getitem df col = [s].
Proof.
  induction df as [|s t IH]; simpl; intros Hnd; [now left|].
  inversion Hnd as [|x l Hnotin Hnd']; subst.
  destruct (String.eqb_spec (name s) col) as [E|E].
  - right. exists s. f_equal.
    destruct (getitem t col) as [|s' l'] eqn:Eg; [reflexivity|exfalso].
    assert (Hin : In s' (getitem t col)) by (rewrite Eg; now left).
    apply getitem_In in Hin. destruct Hin as [Hin Hname].
    apply Hnotin. rewrite E, <- Hname. now apply in_map.
  - now apply IH.
Qed.

Lemma columns_setitem (df : DataFrame) (col : string) (new : Series) :
  columns (setitem df col new) = columns df.
Proof.
  unfold columns, setitem. rewrite map_map. apply map_ext.
  intros s. now destruct (String.eqb (name s) col).
Qed.

Lemma columns_update_column (col : string) (f : Series -> Series) (df : DataFrame) :
  (forall s, name (f s) = name s) ->
  columns (update_column col f df) = columns df.
Proof.
  intros Hf. unfold columns, update_column. rewrite map_map. apply map_ext.
  intros s. destruct (String.eqb (name s) col); [apply Hf|reflexivity].
Qed.

(** Setting the one column a label denotes to an image of that column. *)
Lemma setitem_update (df : DataFrame) (s : Series) (f : Series -> Series) :
  getitem df (name s) = [s] ->
  (forall s0, name (f s0) = name s0) ->
  setitem df (name s) (f s) = update_column (name s) f df.
Proof.
  intros Hg Hf. unfold setitem, update_column. apply map_ext_in.
  intros s0 Hin. destruct (String.eqb_spec (name s0) (name s)) as [E|E]; [|reflexivity].
  assert (Hs0 : In s0 (getitem df (name s))) by (apply getitem_In; auto).
  rewrite Hg in Hs0. destruct Hs0 as [<-|[]].
  specialize (Hf s). destruct (f s) as [n d v]. simpl in *. now subst.
Qed.

Lemma getitem_name (df : DataFrame) (col : string) (s : Series) :
  getitem df col = [s] -> name s = col.
Proof.
  intros H. assert (Hin : In s (getitem df col)) by (rewrite H; now left).
  now apply getitem_In in Hin.
Qed.

(** A loop whose body keeps the labels raises nothing on distinct labels. *)
Lemma for_numeric_columns_ok (body : DataFrame -> Series -> DataFrame)
  (cols : list string) (df : DataFrame) :
  (forall d s, columns (body d s) = columns d) ->
  NoDup (columns df) ->
  exists df', for_numeric_columns body cols df = Ok df' /\ columns df' = columns df.
Proof.
  intros Hbody. revert df. induction cols as [|col rest IH]; intros df Hnd; simpl.
  - eauto.
  - destruct (getitem_unique df col Hnd) as [-> | [s ->]]; [now apply IH|].
    destruct (has_numeric_dtype s); [|now apply IH].
    destruct (IH (body df s)) as (df' & E & Hc); [now rewrite Hbody|].
    exists df'. split; [exact E|]. now rewrite Hc, Hbody.
Qed.

Lemma for_numeric_columns_update (f : Series -> Series) (cols : list string)
  (df : DataFrame) :
  (forall s, name (f s) = name s) ->
  (forall s, dtype (f s) = dtype s) ->
  NoDup cols -> NoDup (columns df) ->
  for_numeric_columns (fun d s => setitem d (name s) (f s)) cols df
  = Ok (update_numeric f cols df).
Proof.
  intros Hname Hdtype. revert df.
  induction cols as [|col rest IH]; intros df Hcols Hnd; simpl.
  - unfold update_numeric. simpl. now rewrite map_id.
  - inversion Hcols as [|x l Hnotin Hrest]; subst.
    assert (Hskip : forall df0, (forall s0, In s0 df0 -> name s0 = col ->
                                  has_numeric_dtype s0 = false) ->
              update_numeric f rest df0 = update_numeric f (col :: rest) df0).
    { intros df0 H0. unfold update_numeric. apply map_ext_in. intros s0 Hin. simpl.
      destruct (String.eqb_spec (name s0) col) as [E|E]; [|reflexivity].
      rewrite (H0 s0 Hin E), !andb_false_r. reflexivity. }
    destruct (getitem_unique df col Hnd) as [Eg | [s Eg]]; rewrite Eg.
    + rewrite IH by assumption. f_equal. apply Hskip.
      intros s0 Hin E. assert (H : In s0 (getitem df col)) by (apply getitem_In; auto).
      rewrite Eg in H. contradiction.
    + pose proof (getitem_name _ _ _ Eg) as Es.
      destruct (has_numeric_dtype s) eqn:Hnum.
      * rewrite <- Es in Eg. rewrite setitem_update by assumption.
        rewrite IH; [|assumption|now rewrite columns_update_column].
        f_equal. unfold update_numeric, update_column. rewrite map_map.
        apply map_ext_in. intros s0 Hin. simpl. rewrite Es.
        destruct (String.eqb_spec (name s0) col) as [E|E].
        -- assert (H : In s0 (getitem df (name s))) by (apply getitem_In; split; congruence).
           rewrite Eg in H. destruct H as [<-|[]].
           rewrite Hname, Hnum, andb_true_r.
           replace (member (name s) rest) with false; [reflexivity|].
           symmetry. destruct (member (name s) rest) eqn:Em; [|reflexivity].
           apply member_In in Em. rewrite Es in Em. contradiction.
        -- reflexivity.
      * rewrite IH by assumption. f_equal. apply Hskip.
        intros s0 Hin E. assert (H : In s0 (getitem df col)) by (apply getitem_In; auto).
        rewrite Eg in H. destruct H as [<-|[]]. exact Hnum.
Qed.

(* ================================================================== *)
(** ** The wrapping of phases *)

(** The remainder of [fmod] is smaller than the divisor. *)
Lemma fmod_range (x m : Q) : (0 < m)%Q -> (- m < fmod x m < m)%Q.
Proof.
  intros Hm. unfold fmod.
  assert (Ht : (inject_Z (trunc (x / m)) - 1 < x / m < inject_Z (trunc (x / m)) + 1)%Q).
  { unfold trunc. destruct (Qle_bool 0 (x / m)).
    - pose proof (Qfloor_le (x / m)). pose proof (Qlt_floor (x / m)) as H1.
      rewrite inject_Z_succ in H1. lra.
    - pose proof (Qle_ceiling (x / m)). pose proof (Qceiling_lt (x / m)) as H1.
      unfold Z.sub in H1. rewrite inject_Z_plus in H1.
      change (inject_Z (- (1))) with (-1 # 1)%Q in H1. lra. }
  set (t := inject_Z (trunc (x / m))) in *.
  assert (Hx : (x == x / m * m)%Q) by (field; lra).
  assert (H1 : ((t - 1) * m < x / m * m)%Q) by (apply Qmult_lt_compat_r; lra).
  assert (H2 : (x / m * m < (t + 1) * m)%Q) by (apply Qmult_lt_compat_r; lra).
  split; lra.
Qed.

(** [x % m] lies between 0 and [m]; it can be [m], by the rounding of the
    sum of a negative remainder and [m]. *)
Lemma pymod_range (x : Q) (m : Z) :
  (0 < m < 2 ^ 53)%Z -> (0 <= pymod x (inject_Z m) <= inject_Z m)%Q.
Proof.
  intros [Hm Hm']. assert (Hq : (0 < inject_Z m)%Q) by now rewrite <- (Zlt_Qlt 0).
  pose proof (fmod_range x (inject_Z m) Hq) as [Hlo Hhi].
  unfold pymod. destruct (Qltb (fmod x (inject_Z m)) 0) eqn:E.
  - apply Qltb_spec in E. apply (b64_between 0 m); [lia|lia|].
    change (inject_Z 0) with 0%Q. lra.
  - assert (H : ~ (fmod x (inject_Z m) < 0)%Q).
    { intros H. apply Qltb_spec in H. congruence. }
    apply Qnot_lt_le in H. lra.
Qed.

(** A wrapped phase lies between -180 and 180. *)
Lemma wrap_phase_range (x : Q) : (-180 <= wrap_phase x <= 180)%Q.
Proof.
  unfold wrap_phase.
  pose proof (pymod_range (b64 (x + 180)) 360 ltac:(lia)) as H.
  change (inject_Z 360) with 360%Q in H.
  apply (b64_between (-180) 180); [lia|lia|].
  change (inject_Z (-180)) with (-180)%Q. change (inject_Z 180) with 180%Q. lra.
Qed.

Lemma labelled_spec (words : list string) (df : DataFrame) (col : string) :
  In col (labelled words df) <->
  In col (columns df) /\ existsb (fun w => contains w (lower col)) words = true.
Proof. unfold labelled. now rewrite filter_In. Qed.

Lemma wrap_loop (df : DataFrame) :
  NoDup (columns df) ->
  for_numeric_columns wrapped (labelled ["phase"; "angle"] df) df
  = Ok (wrap_phase_columns df).
Proof.
  intros Hnd.
  change wrapped with (fun d s => setitem d (name s) (wrap_series s)).
  rewrite for_numeric_columns_update; auto.
  - f_equal. unfold update_numeric, wrap_phase_columns. apply map_ext_in.
    intros s Hin. replace (member (name s) (labelled ["phase"; "angle"] df))
      with (is_phase_label (name s)); [reflexivity|].
    unfold is_phase_label.
    destruct (existsb _ ["phase"; "angle"]) eqn:E; symmetry.
    + apply member_In, labelled_spec. split; [now apply in_map|exact E].
    + destruct (member _ _) eqn:Em; [|reflexivity].
      apply member_In, labelled_spec in Em. destruct Em as [_ Em]. congruence.
  - unfold labelled. now apply NoDup_filter.
Qed.

Lemma columns_positive_rounded (df : DataFrame) (s : Series) :
  columns (positive_rounded df s) = columns df.
Proof.
  unfold positive_rounded.
  destruct (getitem (select_rows _ df) (name s)) as [|s' [|s'' l]];
    rewrite ?columns_setitem; apply columns_select_rows.
Qed.

Lemma columns_keep_nonnegative (df : DataFrame) (s : Series) :
  columns (keep_nonnegative df s) = columns df.
Proof. apply columns_select_rows. Qed.

(** On distinct labels the two cleanings of harmonic tables end in the
    wrapping of the numeric phase and angle columns of the frame that the
    loops before it give. *)
Lemma harmonic_cleanings_wrap (df : DataFrame) :
  NoDup (columns df) ->
  (exists df1,
     for_numeric_columns positive_rounded (labelled ["harmonic"] df) df = Ok df1 /\
     columns df1 = columns df /\
     _clean_armonicos_potencia_data df = Ok (wrap_phase_columns df1)) /\
  (exists df1 df2,
     for_numeric_columns positive_rounded (labelled ["harmonic"] df) df = Ok df1 /\
     for_numeric_columns keep_nonnegative (labelled ["amplitude"; "magnitude"] df1) df1
     = Ok df2 /\
     columns df2 = columns df /\
     _clean_armonicos_voltaje_data df = Ok (wrap_phase_columns df2)).
Proof.
  intros Hnd.
  destruct (for_numeric_columns_ok positive_rounded (labelled ["harmonic"] df) df
              columns_positive_rounded Hnd) as (df1 & E1 & Hc1).
  assert (Hnd1 : NoDup (columns df1)) by now rewrite Hc1.
  destruct (for_numeric_columns_ok keep_nonnegative
              (labelled ["amplitude"; "magnitude"] df1) df1
              columns_keep_nonnegative Hnd1) as (df2 & E2 & Hc2).
  assert (Hnd2 : NoDup (columns df2)) by now rewrite Hc2.
  split.
  - exists df1. split; [exact E1|]. split; [exact Hc1|].
    unfold _clean_armonicos_potencia_data. rewrite E1. simpl. now apply wrap_loop.
  - exists df1, df2. split; [exact E1|]. split; [exact E2|].
    split; [congruence|].
    unfold _clean_armonicos_voltaje_data. rewrite E1. simpl. rewrite E2. simpl.
    now apply wrap_loop.
Qed.

(** C8, as stated, fails: the phase -180 - 2 ^ -45 is wrapped to 180, which
    is not in [-180, 180).  The remainder of the sum of that phase and 180
    is the sum itself, -2 ^ -45; moved up by 360 it is rounded to 360. *)
Lemma wrapped_phase_reaches_180 :
  b64 (-6333186975989761 # 35184372088832) = (-6333186975989761 # 35184372088832)%Q /\
  _clean_armonicos_potencia_data edge_phase_example
  = Ok [ mkSeries "Phase" numeric [Num 180] ] /\
  _clean_armonicos_voltaje_data edge_phase_example
  = Ok [ mkSeries "Phase" numeric [Num 180] ] /\
  ~ (forall x, -180 <= wrap_phase x < 180)%Q.
Proof.
  split; [vm_compute; reflexivity|].
  split; [vm_compute; reflexivity|].
  split; [vm_compute; reflexivity|].
  intros H. destruct (H (-6333186975989761 # 35184372088832)%Q) as [_ H1].
  vm_compute in H1. discriminate.
Qed.

(** C8, as amended.  In the cleaning of power-harmonic and of
    voltage-harmonic tables, the last loop replaces every value x of every
    numeric phase or angle column by the binary64 number that
    ((x + 180) mod 360) - 180 is, and every value of such a column of the
    result lies in the closed interval [-180, 180]. *)
Theorem phase_columns_wrapped (df : DataFrame) :
  NoDup (columns df) ->
  (exists df1,
     for_numeric_columns positive_rounded (labelled ["harmonic"] df) df = Ok df1 /\
     _clean_armonicos_potencia_data df = Ok (wrap_phase_columns df1)) /\
  (exists df1 df2,
     for_numeric_columns positive_rounded (labelled ["harmonic"] df) df = Ok df1 /\
     for_numeric_columns keep_nonnegative (labelled ["amplitude"; "magnitude"] df1) df1
     = Ok df2 /\
     _clean_armonicos_voltaje_data df = Ok (wrap_phase_columns df2)) /\
  (forall d s,
     In s d ->
     is_phase_label (name s) = true -> dtype s = numeric ->
     exists s', In s' (wrap_phase_columns d) /\ name s' = name s /\
       dtype s' = numeric /\
       values s' = map (fun c => match c with
                                 | Num x => Num (b64 (pymod (b64 (x + 180)) 360 - 180))
                                 | _ => c
                                 end) (values s) /\
       forall y, In (Num y) (values s') -> (-180 <= y <= 180)%Q).
Proof.
  intros Hnd.
  destruct (harmonic_cleanings_wrap df Hnd)
    as ((p1 & Ep1 & _ & Ep) & (v1 & v2 & Ev1 & Ev2 & _ & Ev)).
  split; [eauto|split; [eauto|]].
  intros d s Hin Hlab Hnum. exists (wrap_series s).
  split; [|split; [reflexivity|split; [exact Hnum|split; [reflexivity|]]]].
  - unfold wrap_phase_columns. apply in_map_iff. exists s. split; [|exact Hin].
    unfold has_numeric_dtype. now rewrite Hlab, Hnum.
  - intros y Hy. change (In (Num y) (map wrap_cell (values s))) in Hy.
    apply in_map_iff in Hy. destruct Hy as (c & Hc & _).
    destruct c as [|t|x]; unfold wrap_cell in Hc; try discriminate.
    injection Hc as <-. apply wrap_phase_range.
Qed.

Ltac distinct_labels :=
  simpl; repeat (constructor; [simpl; intuition discriminate|]); constructor.

Lemma phase_columns_wrapped_witness :
  _clean_armonicos_potencia_data phase_example
  = Ok [ mkSeries "phase_deg" numeric [Num 0; Num 0; Num (-170); Num (-180)];
         mkSeries "harmonic_order" numeric
           [Num (inject_Z 1); Num (inject_Z 2); Num (inject_Z 3); Num (inject_Z 4)] ] /\
  exists df1,
    for_numeric_columns positive_rounded (labelled ["harmonic"] phase_example)
      phase_example = Ok df1 /\
    _clean_armonicos_potencia_data phase_example = Ok (wrap_phase_columns df1).
Proof.
  split; [vm_compute; reflexivity|].
  apply (phase_columns_wrapped phase_example). distinct_labels.
Defined.

(* ================================================================== *)
(** ** The labels that the steps of the cleaning keep *)

Lemma columns_filter (f : Series -> bool) (df : DataFrame) :
  NoDup (columns df) -> NoDup (columns (filter f df)).
Proof.
  induction df as [|s t IH]; simpl; intros H; [constructor|].
  inversion H as [|x l Hx Hl]; subst.
  destruct (f s); simpl; [constructor|]; auto.
  intros Hin. apply Hx. unfold columns in *. apply in_map_iff in Hin.
  destruct Hin as (s' & E & Hin). apply filter_In in Hin.
  rewrite <- E. apply in_map. tauto.
Qed.

Lemma columns_map_values (f : list cell -> list cell) (df : DataFrame) :
  columns (map_values f df) = columns df.
Proof. unfold columns, map_values. rewrite map_map. reflexivity. Qed.

Lemma columns_handle_missing_values (df : DataFrame) (method : string) :
  columns (_handle_missing_values df method) = columns df.
Proof.
  unfold _handle_missing_values.
  destruct (String.eqb method "linear_interpolation").
  - unfold columns. rewrite map_map. apply map_ext. intros s.
    now destruct (dtype s).
  - destruct (String.eqb method "forward_fill"); [apply columns_map_values|].
    destruct (String.eqb method "backward_fill"); [apply columns_map_values|].
    destruct (String.eqb method "remove"); [apply columns_select_rows|reflexivity].
Qed.

Lemma columns_remove_duplicates (df : DataFrame) :
  columns (_remove_duplicates df) = columns df.
Proof. apply columns_select_rows. Qed.

Section LabelsOfTrend.

Variable parse_datetime : string -> option Z.

Lemma columns_sort_by_timestamp (df : DataFrame) :
  columns (sort_by_timestamp parse_datetime df) = columns df.
Proof.
  unfold sort_by_timestamp. destruct (labelled ["time"; "date"] df) as [|ts l]; [reflexivity|].
  destruct (getitem df ts) as [|s [|s' l']]; try reflexivity.
  unfold sort_values. destruct (getitem (setitem df ts _) ts) as [|s1 [|s2 l2]];
    rewrite ?columns_map_values; apply columns_setitem.
Qed.

End LabelsOfTrend.

(* ================================================================== *)
(** ** [clean_data] *)

Lemma convert_text_cases (t : string) :
  convert_text t = NaN \/ exists q, convert_text t = Num q.
Proof.
  unfold convert_text. destruct (String.eqb (keep numeric_char t) ""); [now left|].
  destruct (parse_float (keep numeric_char t)) as [q|]; [right; eauto|now left].
Qed.

Lemma convert_cell_cases (d : DType) (c : cell) :
  convert_cell d c = NaN \/ exists q, convert_cell d c = Num q.
Proof.
  destruct c as [|t|q]; simpl.
  - now left.
  - apply convert_text_cases.
  - destruct d; [right; eauto|right; eauto|now left].
Qed.

(** [_clean_column_names] raises on every table that has a column. *)
Lemma clean_column_names_raises (df : DataFrame) :
  df <> [] -> _clean_column_names df = Raise IndexingError.
Proof. destruct df; [contradiction|reflexivity]. Qed.

Lemma not_empty_has_column (df : DataFrame) : empty df = false -> df <> [].
Proof. intros H ->. discriminate. Qed.

(** What [clean_data] returns: the empty table of a null table and of a
    table without rows, and [IndexingError] of every other table. *)
Lemma clean_data_cases (parse_datetime : string -> option Z)
  (df : option DataFrame) (file_type method : string) :
  clean_data parse_datetime df file_type method
  = match df with
    | None => Ok []
    | Some df => if empty df then Ok [] else Raise IndexingError
    end.
Proof.
  destruct df as [df|]; [|reflexivity]. unfold clean_data.
  destruct (empty df) eqn:E; [reflexivity|].
  now rewrite (clean_column_names_raises df (not_empty_has_column df E)).
Qed.

(** C5.  [clean_data] gives the empty table for a null table and for a
    table without rows, and the coercion of a column makes a missing cell
    of every text that does not read as a number; but [clean_data] raises
    on every table that has a row: [_clean_column_names] indexes the
    columns with a mask that pandas cannot align with their labels, and
    the [IndexingError] is not caught. *)
Theorem clean_data_raises_on_every_table (parse_datetime : string -> option Z)
  (df : DataFrame) (file_type interpolation_method : string) :
  clean_data parse_datetime None file_type interpolation_method = Ok [] /\
  (empty df = true ->
   clean_data parse_datetime (Some df) file_type interpolation_method = Ok []) /\
  (forall d t, parse_float (keep numeric_char t) = None ->
               convert_cell d (Str t) = NaN) /\
  (empty df = false ->
   _clean_column_names df = Raise IndexingError /\
   clean_data parse_datetime (Some df) file_type interpolation_method
   = Raise IndexingError).
Proof.
  split; [reflexivity|]. split; [|split].
  - intros E. now rewrite clean_data_cases, E.
  - intros d t E. simpl. unfold convert_text. rewrite E.
    now destruct (String.eqb (keep numeric_char t) "").
  - intros E. split.
    + apply clean_column_names_raises, not_empty_has_column, E.
    + now rewrite clean_data_cases, E.
Qed.

Lemma clean_data_raises_on_every_table_witness :
  empty plain_example = false /\
  _clean_column_names plain_example = Raise IndexingError /\
  clean_data (fun _ => None) (Some plain_example) "tendencia" "linear_interpolation"
  = Raise IndexingError.
Proof.
  split; [reflexivity|].
  apply (clean_data_raises_on_every_table (fun _ => None) plain_example
           "tendencia" "linear_interpolation").
  reflexivity.
Defined.



(* ================================================================== *)
(** ** The characters of a text *)

Ltac by_cases_on_ascii c :=
  destruct c as [[] [] [] [] [] [] [] []]; vm_compute; intuition congruence.

Lemma forall_chars_impl (p q : ascii -> bool) (s : string) :
  (forall c, p c = true -> q c = true) ->
  forall_chars p s = true -> forall_chars q s = true.
Proof.
  intros Hpq. induction s as [|c t IH]; simpl; [reflexivity|].
  rewrite !andb_true_iff. intuition.
Qed.

Lemma keep_fixed (p : ascii -> bool) (s : string) :
  forall_chars p s = true -> keep p s = s.
Proof.
  induction s as [|c t IH]; simpl; [reflexivity|].
  intros H. apply andb_prop in H. destruct H as [Hc Ht]. now rewrite Hc, IH.
Qed.

(* ================================================================== *)
(** ** The filling of gaps in a column *)

Lemma forallb_select {A : Type} (p : A -> bool) (mask : list bool) (l : list A) :
  forallb p l = true -> forallb p (select mask l) = true.
Proof.
  revert l; induction mask as [|b m IH]; intros l; [reflexivity|].
  destruct l as [|x t]; [reflexivity|]. simpl.
  intros H. apply andb_prop in H. destruct H as [Hx Ht].
  destruct b; simpl; [rewrite Hx|]; now apply IH.
Qed.

Lemma In_select {A : Type} (mask : list bool) (l : list A) (x : A) :
  In x (select mask l) -> In x l.
Proof.
  revert l; induction mask as [|b m IH]; intros l; [contradiction|].
  destruct l as [|y t]; [contradiction|]. simpl.
  destruct b; simpl; intuition.
Qed.

Lemma interpolate_from_anchored (a : Q) (j : nat) (l : list cell) :
  forallb not_text l = true ->
  forallb notna (interpolate_from (Some (a, j)) l) = true.
Proof.
  revert a j; induction l as [|c t IH]; intros a j H; [reflexivity|].
  simpl in H. apply andb_prop in H. destruct H as [Hc Ht].
  destruct c as [|s|q]; try discriminate; simpl.
  - destruct (next_valid t) as [[k b]|]; simpl; now apply IH.
  - now apply IH.
Qed.

Lemma interpolate_nan_first (l : list cell) :
  forallb not_text l = true -> nan_first (interpolate l) = true.
Proof.
  unfold interpolate. induction l as [|c t IH]; intros H; [reflexivity|].
  simpl in H. apply andb_prop in H. destruct H as [Hc Ht].
  destruct c as [|s|q]; try discriminate; simpl.
  - now apply IH.
  - now apply interpolate_from_anchored.
Qed.

Lemma interpolate_from_length (anchor : option (Q * nat)) (l : list cell) :
  List.length (interpolate_from anchor l) = List.length l.
Proof.
  revert anchor; induction l as [|c t IH]; intros anchor; [reflexivity|].
  destruct c as [|s|q]; simpl; try now rewrite IH.
  destruct anchor as [[a j]|]; [|simpl; now rewrite IH].
  destruct (next_valid t) as [[k b]|]; simpl; now rewrite IH.
Qed.

Lemma interpolate_not_text (anchor : option (Q * nat)) (l : list cell) :
  forallb not_text l = true -> forallb not_text (interpolate_from anchor l) = true.
Proof.
  revert anchor; induction l as [|c t IH]; intros anchor H; [reflexivity|].
  simpl in H. apply andb_prop in H. destruct H as [Hc Ht].
  destruct c as [|s|q]; try discriminate; simpl; try now apply IH.
  destruct anchor as [[a j]|]; [|simpl; now apply IH].
  destruct (next_valid t) as [[k b]|]; simpl; now apply IH.
Qed.

Lemma ffill_from_notna (prev : cell) (l : list cell) :
  notna prev = true -> forallb notna (ffill_from prev l) = true.
Proof.
  revert prev; induction l as [|c t IH]; intros prev H; [reflexivity|].
  simpl. destruct (isna c) eqn:E; simpl.
  - rewrite H. now apply IH.
  - unfold notna at 1. rewrite E. simpl. apply IH. unfold notna. now rewrite E.
Qed.

Lemma ffill_nan_first (l : list cell) : nan_first (ffill l) = true.
Proof.
  unfold ffill. induction l as [|c t IH]; [reflexivity|].
  destruct c as [|s|q]; simpl.
  - exact IH.
  - now apply ffill_from_notna.
  - now apply ffill_from_notna.
Qed.

Lemma ffill_from_length (prev : cell) (l : list cell) :
  List.length (ffill_from prev l) = List.length l.
Proof.
  revert prev; induction l as [|c t IH]; intros prev; [reflexivity|].
  simpl. destruct (isna c); simpl; now rewrite IH.
Qed.

Lemma ffill_from_not_text (prev : cell) (l : list cell) :
  not_text prev = true -> forallb not_text l = true ->
  forallb not_text (ffill_from prev l) = true.
Proof.
  revert prev; induction l as [|c t IH]; intros prev Hp H; [reflexivity|].
  simpl in H. apply andb_prop in H. destruct H as [Hc Ht].
  simpl. destruct (isna c); simpl; [rewrite Hp|rewrite Hc]; now apply IH.
Qed.

Lemma bfill_cons (c : cell) (t : list cell) :
  bfill (c :: t)
  = match c, bfill t with
    | NaN, x :: _ => x :: bfill t
    | _, _ => c :: bfill t
    end.
Proof. reflexivity. Qed.

Lemma bfill_nan_last (l : list cell) : nan_last (bfill l) = true.
Proof.
  induction l as [|c t IH]; [reflexivity|].
  rewrite bfill_cons. destruct c as [|s|q]; try (simpl; exact IH).
  destruct (bfill t) as [|x r] eqn:E; [reflexivity|].
  change (nan_last (x :: x :: r)) with
    ((if isna x then forallb isna (x :: r) else true) && nan_last (x :: r)).
  rewrite IH, andb_true_r. simpl in IH. apply andb_prop in IH.
  destruct IH as [Hx _]. destruct (isna x) eqn:Ex; [|reflexivity].
  simpl. now rewrite Ex.
Qed.

Lemma bfill_length (l : list cell) : List.length (bfill l) = List.length l.
Proof.
  induction l as [|c t IH]; [reflexivity|].
  rewrite bfill_cons. destruct c; [destruct (bfill t) eqn:E| |]; simpl in *; congruence.
Qed.

Lemma bfill_not_text (l : list cell) :
  forallb not_text l = true -> forallb not_text (bfill l) = true.
Proof.
  induction l as [|c t IH]; intros H; [reflexivity|].
  simpl in H. apply andb_prop in H. destruct H as [Hc Ht]. specialize (IH Ht).
  rewrite bfill_cons. destruct c as [|s|q]; try discriminate.
  - destruct (bfill t) as [|x r]; [reflexivity|].
    simpl in *. apply andb_prop in IH. destruct IH as [Hx Hr]. now rewrite Hx, Hr.
  - simpl. exact IH.
Qed.

(* ================================================================== *)
(** ** Selections that keep every row *)

Lemma select_all {A : Type} (mask : list bool) (l : list A) :
  forallb (fun b => b) mask = true -> List.length l = List.length mask ->
  select mask l = l.
Proof.
  revert l; induction mask as [|b m IH]; intros l Hm Hl.
  - destruct l; [reflexivity|discriminate].
  - destruct l as [|x t]; [reflexivity|]. simpl in *.
    apply andb_prop in Hm. destruct Hm as [-> Hm]. f_equal. apply IH; congruence.
Qed.

Lemma set_values_same (s : Series) : set_values s (values s) = s.
Proof. now destruct s. Qed.

Lemma select_rows_all (mask : list bool) (df : DataFrame) :
  forallb (fun b => b) mask = true -> uniform (List.length mask) df ->
  select_rows mask df = df.
Proof.
  intros Hm Hu. unfold select_rows. rewrite <- (map_id df) at 2.
  apply map_ext_in. intros s Hs. unfold uniform in Hu.
  rewrite Forall_forall in Hu. rewrite select_all; auto using set_values_same.
Qed.

Lemma rows_length (n : nat) (df : DataFrame) :
  uniform n df -> df <> [] -> List.length (rows df) = n.
Proof.
  intros H Hne. rewrite (rows_uniform n) by assumption. now apply rows_from_length.
Qed.


(* ================================================================== *)
(** ** The removal of duplicates *)

Lemma duplicated_length (seen rs : list (list cell)) :
  List.length (duplicated seen rs) = List.length rs.
Proof.
  revert seen; induction rs as [|r t IH]; intros seen; simpl; [reflexivity|].
  now rewrite IH.
Qed.

Lemma kept_not_duplicated (seen seen' rs : list (list cell)) :
  incl seen' seen ->
  forallb (fun b => b) (map negb (duplicated seen' (kept seen rs))) = true.
Proof.
  revert seen seen'; induction rs as [|r t IH]; intros seen seen' Hincl; [reflexivity|].
  unfold kept. simpl. destruct (existsb (row_eqb r) seen) eqn:E; simpl.
  - apply IH. intros x Hx. right. now apply Hincl.
  - assert (E' : existsb (row_eqb r) seen' = false).
    { destruct (existsb (row_eqb r) seen') eqn:E'; [|reflexivity].
      apply existsb_exists in E'. destruct E' as (x & Hx & Hr).
      assert (existsb (row_eqb r) seen = true); [|congruence].
      apply existsb_exists. exists x. split; [now apply Hincl|exact Hr]. }
    rewrite E'. simpl. apply IH.
    intros x [<-|Hx]; [now left|right; now apply Hincl].
Qed.

Lemma rows_remove_duplicates (n : nat) (df : DataFrame) :
  uniform n df ->
  rows (_remove_duplicates df) = kept [] (rows df)
  /\ exists k, uniform k (_remove_duplicates df).
Proof.
  intros Hu. unfold _remove_duplicates, kept.
  destruct df as [|s t] eqn:E; [split; [reflexivity|exists 0; constructor]|].
  rewrite <- E in *. assert (Hne : df <> []) by congruence.
  assert (Hl : List.length (map negb (duplicated [] (rows df))) = n).
  { now rewrite length_map, duplicated_length, (rows_length n). }
  assert (Hu' : uniform (List.length (map negb (duplicated [] (rows df)))) df)
    by now rewrite Hl.
  split; [now apply rows_select_rows|].
  eexists. apply select_rows_uniform. exact Hu'.
Qed.

Lemma remove_duplicates_fixed (n k : nat) (df : DataFrame) :
  uniform n df -> uniform k (_remove_duplicates df) ->
  _remove_duplicates (_remove_duplicates df) = _remove_duplicates df.
Proof.
  intros Hu Hk. destruct (rows_remove_duplicates n df Hu) as (Er & _).
  destruct (_remove_duplicates df) as [|s t] eqn:E; [reflexivity|].
  rewrite <- E in *. assert (Hne : _remove_duplicates df <> []) by congruence.
  unfold _remove_duplicates at 1. apply select_rows_all.
  - rewrite Er. now apply kept_not_duplicated.
  - now rewrite length_map, duplicated_length, (rows_length k).
Qed.

(* ================================================================== *)
(** ** The cells of a coerced column *)

Lemma convert_not_text (s : Series) :
  forallb not_text (values (_convert_to_numeric s)) = true.
Proof.
  simpl. apply forallb_forall. intros c Hc. apply in_map_iff in Hc.
  destruct Hc as (c0 & <- & _).
  destruct (convert_cell_cases (dtype s) c0) as [-> | [q ->]]; reflexivity.
Qed.

(* ================================================================== *)
(** * Further properties of the code *)

(* ================================================================== *)
(** ** The phase of a record *)

Lemma lower_append (a b : string) : lower (a ++ b) = lower a ++ lower b.
Proof. induction a as [|c a IH]; simpl; [reflexivity|now rewrite IH]. Qed.

Lemma append_assoc (a b c : string) : (a ++ b) ++ c = a ++ (b ++ c).
Proof. induction a as [|x a IH]; simpl; [reflexivity|now rewrite IH]. Qed.

Lemma occurs_lower (p s : string) : occurs p s -> occurs (lower p) (lower s).
Proof.
  intros (pre & post & ->). exists (lower pre), (lower post).
  now rewrite !lower_append.
Qed.

Lemma occurs_trans (p q s : string) : occurs p q -> occurs q s -> occurs p s.
Proof.
  intros (a & b & ->) (c & d & ->). exists (c ++ a), (b ++ d).
  now rewrite !append_assoc.
Qed.

Lemma phase_of_label (col : string) :
  occurs "l1" (lower col) \/ occurs "l2" (lower col) \/ occurs "l3" (lower col) ->
  In (_extract_phase_from_column col) ["L1"; "L2"; "L3"].
Proof.
  intros H. unfold _extract_phase_from_column.
  destruct (contains "l1" (lower col)) eqn:E1; [simpl; tauto|].
  destruct (contains "l2" (lower col)) eqn:E2; [simpl; tauto|].
  destruct (contains "l3" (lower col)) eqn:E3; [simpl; tauto|].
  apply contains_false in E1, E2, E3. tauto.
Qed.

(** A label that a target occurs in, when the target names a phase. *)
Lemma phase_of_target (targets : list string) (target_col col : string) :
  forallb (fun t => contains "l1" (lower t) || contains "l2" (lower t)
                    || contains "l3" (lower t)) targets = true ->
  In target_col targets ->
  occurs (lower target_col) (lower col) ->
  In (_extract_phase_from_column col) ["L1"; "L2"; "L3"].
Proof.
  intros Hall Hin Hocc. rewrite forallb_forall in Hall. specialize (Hall _ Hin).
  apply phase_of_label. rewrite !orb_true_iff, !contains_spec in Hall.
  destruct Hall as [[H|H]|H]; eauto using occurs_trans.
Qed.

Lemma match_harmonic_phase (s : string) :
  match_harmonic s = true ->
  exists c, is_phase_digit c = true /\ occurs (" L" ++ String c EmptyString) s.
Proof.
  unfold match_harmonic.
  destruct (strip_prefix "P H " s) as [r|] eqn:E; [|discriminate].
  apply strip_prefix_spec in E. destruct (span_digits r) as [ds r'] eqn:Es.
  apply span_digits_spec in Es. destruct Es as (-> & _ & _).
  destruct ds as [|d ds]; [discriminate|].
  destruct (strip_prefix " L" r') as [[|c post]|] eqn:Ep; try discriminate.
  apply strip_prefix_spec in Ep. intros Hc. exists c. split; [exact Hc|].
  exists ("P H " ++ String d ds), post. rewrite E, Ep.
  now rewrite !append_assoc.
Qed.

Lemma search_harmonic_phase (s : string) :
  search_harmonic s = true ->
  exists c, is_phase_digit c = true /\ occurs (" L" ++ String c EmptyString) s.
Proof.
  induction s as [|x s IH]; intros H.
  - discriminate.
  - change (search_harmonic (String x s))
      with (match_harmonic (String x s) || search_harmonic s) in H.
    apply orb_true_iff in H. destruct H as [H|H]; [now apply match_harmonic_phase|].
    destruct (IH H) as (c & Hc & pre & post & ->).
    exists c. split; [exact Hc|]. now exists (String x pre), post.
Qed.

Lemma phase_of_harmonic (col : string) :
  search_harmonic col = true ->
  In (_extract_phase_from_column col) ["L1"; "L2"; "L3"].
Proof.
  intros H. destruct (search_harmonic_phase col H) as (c & Hc & Hocc).
  apply occurs_lower in Hocc. apply phase_of_label.
  unfold is_phase_digit in Hc. rewrite !orb_true_iff, !Ascii.eqb_eq in Hc.
  destruct Hc as [[->| ->]| ->]; [left|right; left|right; right];
    (eapply occurs_trans; [|exact Hocc]);
    now exists " ", EmptyString.
Qed.

(** X1.  Every record of an analysis is attributed to L1, L2 or L3: the phase
    GENERAL that [_extract_phase_from_column] falls back on is never the
    phase of a record, since a label that matches a target or the harmonic
    pattern names a phase. *)
Theorem records_name_a_phase (df : DataFrame) (file_type : string) :
  let a := analyze df file_type in
  (forall r, In r (voltage_deviations_of a) -> In (v_fase r) ["L1"; "L2"; "L3"]) /\
  (forall r, In r (flickers_of a) -> In (l_fase r) ["L1"; "L2"; "L3"]) /\
  (forall r, In r (thd_analysis_of a) -> In (l_fase r) ["L1"; "L2"; "L3"]) /\
  (forall r, In r (harmonics_analysis_of a) -> In (h_fase r) ["L1"; "L2"; "L3"]).
Proof.
  cbv zeta. destruct (analyze_cases df file_type) as [-> | ->]; simpl;
    (split; [|split; [|split]]); intros r Hr; try contradiction.
  - apply in_voltage_deviations in Hr.
    destruct Hr as (t & col & v & vs & Ht & Hc & _ & ->).
    apply matching_cols_spec in Hc. destruct Hc as [_ Hc].
    exact (phase_of_target voltage_target_columns t col eq_refl Ht Hc).
  - apply in_flickers in Hr.
    destruct Hr as (t & col & v & vs & Ht & Hc & _ & ->).
    apply matching_cols_spec in Hc. destruct Hc as [_ Hc].
    exact (phase_of_target flicker_target_columns t col eq_refl Ht Hc).
  - apply in_thd in Hr.
    destruct Hr as (t & col & v & vs & Ht & Hc & _ & ->).
    apply matching_cols_spec in Hc. destruct Hc as [_ Hc].
    exact (phase_of_target thd_target_columns t col eq_refl Ht Hc).
  - apply in_harmonics_results in Hr.
    destruct Hr as (col & v & vs & Hc & _ & ->).
    apply harmonic_columns_spec in Hc. destruct Hc as (_ & Hs & _).
    now apply phase_of_harmonic.
Qed.

(* ================================================================== *)
(** ** Counts, percentages and statistics of the records *)

Lemma dropna_length (l : list cell) : (List.length (dropna l) <= List.length l)%nat.
Proof.
  induction l as [|c t IH]; simpl; [lia|]. destruct c; simpl; lia.
Qed.

Lemma percentage_of_bounds (count total : nat) :
  (count <= total)%nat -> (0 < total)%nat ->
  (inject_Z 0 <= percentage_of count total <= inject_Z 100)%Q.
Proof.
  intros Hc Ht. unfold percentage_of.
  assert (H0 : (0 <= inject_Z (Z.of_nat count))%Q) by (rewrite <- (Zle_Qle 0); lia).
  assert (H1 : (0 < inject_Z (Z.of_nat total))%Q) by (rewrite <- (Zlt_Qlt 0); lia).
  assert (H2 : (inject_Z (Z.of_nat count) <= inject_Z (Z.of_nat total))%Q)
    by (rewrite <- Zle_Qle; lia).
  set (c := inject_Z (Z.of_nat count)) in *. set (t := inject_Z (Z.of_nat total)) in *.
  assert (Hd0 : (0 <= c / t)%Q) by (apply Qle_shift_div_l; lra).
  assert (Hd1 : (c / t <= 1)%Q) by (apply Qle_shift_div_r; lra).
  change (inject_Z 0) with 0%Q. change (inject_Z 100) with 100%Q. split; lra.
Qed.

Lemma percentage_of_nonnegative (count total : nat) :
  (inject_Z 0 <= percentage_of count total)%Q.
Proof.
  unfold percentage_of.
  assert (H0 : (0 <= inject_Z (Z.of_nat count))%Q) by (rewrite <- (Zle_Qle 0); lia).
  assert (H1 : (0 <= inject_Z (Z.of_nat total))%Q) by (rewrite <- (Zle_Qle 0); lia).
  set (c := inject_Z (Z.of_nat count)) in *. set (t := inject_Z (Z.of_nat total)) in *.
  assert (Hd0 : (0 <= c / t)%Q).
  { unfold Qdiv. apply Qmult_le_0_compat; [exact H0|]. now apply Qinv_le_0_compat. }
  change (inject_Z 0) with 0%Q. lra.
Qed.

(** The numbers of a numeric column of a table with one cell per row are
    no more than its rows. *)
Lemma numeric_values_length (df : DataFrame) (col : string) (vals : list Q) :
  aligned df -> numeric_values df col = Some vals ->
  (List.length vals <= len df)%nat.
Proof.
  intros Hal H. apply numeric_values_spec in H. destruct H as (s & Hg & _ & ->).
  assert (Hin : In s df).
  { apply (getitem_In df col s). rewrite Hg. now left. }
  rewrite <- (Hal s Hin). apply dropna_length.
Qed.

Lemma round_percentage_bounds (count total ndigits : nat) :
  (count <= total)%nat -> (0 < total)%nat ->
  (0 <= round (percentage_of count total) ndigits <= 100)%Q.
Proof.
  intros Hc Ht. apply (round_bounds 0 100), percentage_of_bounds; assumption.
Qed.

(** X2.  In a table with one cell per row in every column, the violations of
    a voltage, flicker or THD record are no more than the rows of the
    table and its percentage lies between 0 and 100.  The negative values
    of a harmonic record are no more than the values of its column, which
    are no more than the rows; its percentage is not negative, and it is
    at most 100 when there are at most 2150 negative values. *)
Theorem record_counts_and_percentages (df : DataFrame) (file_type : string) :
  aligned df ->
  let a := analyze df file_type in
  (forall r, In r (voltage_deviations_of a) ->
     (v_violaciones r <= v_total_mediciones r)%nat /\
     (0 <= porcentaje_desviacion r <= 100)%Q) /\
  (forall r, In r (flickers_of a) ->
     (l_violaciones r <= l_total_mediciones r)%nat /\
     (0 <= l_porcentaje r <= 100)%Q) /\
  (forall r, In r (thd_analysis_of a) ->
     (l_violaciones r <= l_total_mediciones r)%nat /\
     (0 <= l_porcentaje r <= 100)%Q) /\
  (forall r, In r (harmonics_analysis_of a) ->
     (valores_negativos r <= total_valores_archivo r <= len df)%nat /\
     (0 <= porcentaje r)%Q /\
     ((valores_negativos r <= 2150)%nat -> (porcentaje r <= 100)%Q)).
Proof.
  intros Hal. cbv zeta.
  assert (Hcount : forall (f : Q -> bool) col v vs,
             numeric_values df col = Some (v :: vs) ->
             (List.length (filter f (v :: vs)) <= len df)%nat /\ (0 < len df)%nat).
  { intros f col v vs Hn. pose proof (numeric_values_length df col _ Hal Hn) as Hl.
    pose proof (filter_length_le f (v :: vs)) as Hf.
    pose proof Hl as Hl'. simpl in Hl'. split; lia. }
  destruct (analyze_cases df file_type) as [-> | ->]; simpl;
    (split; [|split; [|split]]); intros r Hr; try contradiction.
  - apply in_voltage_deviations in Hr.
    destruct Hr as (t & col & v & vs & _ & _ & Hn & ->).
    destruct (Hcount (fun x => Qltb (mean (v :: vs) * (108 # 100)) x
                               || Qltb x (mean (v :: vs) * (92 # 100))) _ _ _ Hn)
      as [H1 H2].
    split; [exact H1|]. now apply round_percentage_bounds.
  - apply in_flickers in Hr.
    destruct Hr as (t & col & v & vs & _ & _ & Hn & ->).
    destruct (Hcount (fun x => Qltb flicker_limit x) _ _ _ Hn) as [H1 H2].
    split; [exact H1|]. now apply round_percentage_bounds.
  - apply in_thd in Hr.
    destruct Hr as (t & col & v & vs & _ & _ & Hn & ->).
    destruct (Hcount (fun x => Qltb thd_limit x) _ _ _ Hn) as [H1 H2].
    split; [exact H1|]. now apply round_percentage_bounds.
  - apply in_harmonics_results in Hr.
    destruct Hr as (col & v & vs & _ & Hn & ->).
    pose proof (numeric_values_length df col _ Hal Hn) as Hl.
    pose proof (filter_length_le (fun x => Qltb x 0) (v :: vs)) as Hf.
    split; [split; [exact Hf|exact Hl]|]. split.
    + apply (round_bounds 0 (Z.of_nat (List.length (filter (fun x => Qltb x 0) (v :: vs)))
                             * 100)).
      split; [apply percentage_of_nonnegative|].
      unfold percentage_of, harmonic_total_measurements.
      rewrite inject_Z_mult.
      set (c := inject_Z (Z.of_nat _)).
      assert (H0 : (0 <= c)%Q) by (unfold c; rewrite <- (Zle_Qle 0); lia).
      change (inject_Z (Z.of_nat 2150)) with 2150%Q. change (inject_Z 100) with 100%Q.
      assert (Hd : (c / 2150 <= c)%Q) by (apply Qle_shift_div_r; lra).
      lra.
    + intros Hle. apply (round_percentage_bounds _ 2150 8); [exact Hle|lia].
Qed.

Lemma record_counts_and_percentages_witness :
  aligned trend_example /\
  (forall r, In r (flickers_of (analyze trend_example "tendencia")) ->
     (l_violaciones r <= l_total_mediciones r)%nat /\
     (0 <= l_porcentaje r <= 100)%Q).
Proof.
  assert (H : aligned trend_example)
    by (intros s [<-|[<-|[<-|[<-|[]]]]]; reflexivity).
  split; [exact H|].
  exact (proj1 (proj2 (record_counts_and_percentages trend_example "tendencia" H))).
Defined.






(* ================================================================== *)
(** ** Flags and the values behind them *)


(** A filter keeps something exactly when some element passes it. *)
Lemma filter_length_positive {A : Type} (f : A -> bool) (l : list A) :
  (0 <? List.length (filter f l))%nat = true <-> exists x, In x l /\ f x = true.
Proof.
  rewrite Nat.ltb_lt. split.
  - intros H. destruct (filter f l) as [|x t] eqn:E; [simpl in H; lia|].
    exists x. apply filter_In. rewrite E. now left.
  - intros (x & Hx & Hf).
    assert (Hin : In x (filter f l)) by (apply filter_In; auto).
    destruct (filter f l); [contradiction|simpl; lia].
Qed.

Lemma maximum_le (v : Q) (vs : list Q) (b : Q) :
  (forall x, In x (v :: vs) -> (x <= b)%Q) -> (maximum (v :: vs) <= b)%Q.
Proof.
  simpl maximum. revert v. induction vs as [|a t IH]; intros v H; simpl.
  - apply H. now left.
  - apply IH. intros x [<-|Hx].
    + unfold Qmaxb. destruct (Qle_bool v a); apply H; simpl; auto.
    + apply H. simpl. auto.
Qed.

Lemma minimum_ge (v : Q) (vs : list Q) (a : Q) :
  (forall x, In x (v :: vs) -> (a <= x)%Q) -> (a <= minimum (v :: vs))%Q.
Proof.
  simpl minimum. revert v. induction vs as [|c t IH]; intros v H; simpl.
  - apply H. now left.
  - apply IH. intros x [<-|Hx].
    + unfold Qminb. destruct (Qle_bool v c); apply H; simpl; auto.
    + apply H. simpl. auto.
Qed.

(** Rounding does not carry a number across an integer. *)
Lemma round_le_integer (q : Q) (b : Z) (ndigits : nat) :
  (q <= inject_Z b)%Q -> (round q ndigits <= inject_Z b)%Q.
Proof.
  intros H. apply (round_bounds (Qfloor q) b). split; [apply Qfloor_le|exact H].
Qed.

Lemma round_ge_integer (q : Q) (a : Z) (ndigits : nat) :
  (inject_Z a <= q)%Q -> (inject_Z a <= round q ndigits)%Q.
Proof.
  intros H. apply (round_bounds a (Qceiling q)). split; [exact H|apply Qle_ceiling].
Qed.

Lemma limit_record_flag (l : Z) (col : string) (v : Q) (vs : list Q) (total : nat) :
  let r := limit_record (inject_Z l) col (v :: vs) total in
  (l_excede_limite r = true <-> exists x, In x (v :: vs) /\ (inject_Z l < x)%Q) /\
  ((inject_Z l < maximo r)%Q -> l_excede_limite r = true).
Proof.
  cbv zeta. unfold limit_record. cbn [l_excede_limite maximo].
  assert (H : (0 <? List.length (filter (fun x => Qltb (inject_Z l) x) (v :: vs)))%nat
              = true <-> exists x, In x (v :: vs) /\ (inject_Z l < x)%Q).
  { rewrite filter_length_positive. split; intros (x & Hx & Hl); exists x;
      (split; [exact Hx|]); now apply Qltb_spec. }
  split; [exact H|]. intros Hmax.
  destruct (0 <? List.length (filter (fun x => Qltb (inject_Z l) x) (v :: vs)))%nat
    eqn:E; [reflexivity|]. exfalso.
  assert (Hall : forall x, In x (v :: vs) -> (x <= inject_Z l)%Q).
  { intros x Hx. apply Qnot_lt_le. intros Hl.
    assert (false = true) by (apply H; eauto). discriminate. }
  pose proof (round_le_integer _ l 6 (maximum_le v vs _ Hall)). lra.
Qed.

(** X4.  The flag of a flicker record is set exactly when a value of its
    column that is not missing is above 1, the flag of a THD record when
    one is above 5; a record whose stored maximum is above the limit is
    flagged. *)
Theorem flag_follows_values (df : DataFrame) (file_type : string) :
  let a := analyze df file_type in
  (forall r, In r (flickers_of a) ->
     exists vals, numeric_values df (l_parametro r) = Some vals /\
       (l_excede_limite r = true <-> exists x, In x vals /\ (1 < x)%Q) /\
       ((1 < maximo r)%Q -> l_excede_limite r = true)) /\
  (forall r, In r (thd_analysis_of a) ->
     exists vals, numeric_values df (l_parametro r) = Some vals /\
       (l_excede_limite r = true <-> exists x, In x vals /\ (5 < x)%Q) /\
       ((5 < maximo r)%Q -> l_excede_limite r = true)).
Proof.
  cbv zeta.
  destruct (analyze_cases df file_type) as [-> | ->]; simpl;
    split; intros r Hr; try contradiction.
  - apply in_flickers in Hr.
    destruct Hr as (t & col & v & vs & _ & _ & Hn & ->).
    exists (v :: vs). split; [exact Hn|]. exact (limit_record_flag 1 col v vs (len df)).
  - apply in_thd in Hr.
    destruct Hr as (t & col & v & vs & _ & _ & Hn & ->).
    exists (v :: vs). split; [exact Hn|]. exact (limit_record_flag 5 col v vs (len df)).
Qed.

(** X5.  The negative values counted by a harmonic record are those of its
    column: there is one exactly when a value that is not missing is below
    zero; a record whose stored minimum is negative counts one, and a
    record that counts none stores the percentage 0. *)
Theorem negative_count_follows_values (df : DataFrame) (file_type : string) :
  forall r, In r (harmonics_analysis_of (analyze df file_type)) ->
    exists vals, numeric_values df (h_parametro r) = Some vals /\
      ((0 < valores_negativos r)%nat <-> exists x, In x vals /\ (x < 0)%Q) /\
      ((valor_minimo r < 0)%Q -> (0 < valores_negativos r)%nat) /\
      (valores_negativos r = 0%nat -> (porcentaje r == 0)%Q).
Proof.
  intros r Hr.
  destruct (analyze_cases df file_type) as [E | E]; rewrite E in Hr; simpl in Hr;
    [contradiction|].
  apply in_harmonics_results in Hr. destruct Hr as (col & v & vs & _ & Hn & ->).
  exists (v :: vs). split; [exact Hn|].
  unfold harmonic_record. cbn [valores_negativos valor_minimo porcentaje].
  assert (H : (0 < List.length (filter (fun x => Qltb x 0) (v :: vs)))%nat
              <-> exists x, In x (v :: vs) /\ (x < 0)%Q).
  { rewrite <- Nat.ltb_lt, filter_length_positive.
    split; intros (x & Hx & Hl); exists x; (split; [exact Hx|]); now apply Qltb_spec. }
  split; [exact H|]. split.
  - intros Hmin.
    destruct (Nat.eq_dec (List.length (filter (fun x => Qltb x 0) (v :: vs))) 0)
      as [E0|E0]; [|lia]. exfalso.
    assert (Hall : forall x, In x (v :: vs) -> (inject_Z 0 <= x)%Q).
    { intros x Hx. apply Qnot_lt_le. intros Hl.
      assert (0 < 0)%nat by (rewrite <- E0 at 2; apply H; eauto). lia. }
    pose proof (round_ge_integer _ 0 6 (minimum_ge v vs _ Hall)) as Hr.
    change (inject_Z 0) with 0%Q in Hr. lra.
  - intros ->. vm_compute. reflexivity.
Qed.

Lemma negative_count_follows_values_witness :
  let r := harmonic_record "P H 3 L1" [2; 1; 3]%Q 2150 in
  In r (harmonics_analysis_of (analyze harmonic_example "armonicos_potencia")) /\
  exists vals, numeric_values harmonic_example (h_parametro r) = Some vals /\
    ((0 < valores_negativos r)%nat <-> exists x, In x vals /\ (x < 0)%Q) /\
    ((valor_minimo r < 0)%Q -> (0 < valores_negativos r)%nat) /\
    (valores_negativos r = 0%nat -> (porcentaje r == 0)%Q).
Proof.
  cbv zeta.
  assert (H : In (harmonic_record "P H 3 L1" [2; 1; 3]%Q 2150)
                 (harmonics_analysis_of (analyze harmonic_example "armonicos_potencia")))
    by (vm_compute; left; reflexivity).
  split; [exact H|].
  exact (negative_count_follows_values harmonic_example "armonicos_potencia" _ H).
Defined.



(* ================================================================== *)
(** ** The table [analyze_file] analyses *)

Lemma to_numeric_loop_spec (to_numeric_text : string -> option Q)
  (cols : list string) (df : DataFrame) :
  NoDup cols -> incl cols (columns df) -> NoDup (columns df) ->
  to_numeric_loop to_numeric_text cols df
  = Some (map (fun s => if member (name s) cols && numeric_label (name s)
                        then to_numeric to_numeric_text s else s) df).
Proof.
  revert df. induction cols as [|col rest IH]; intros df Hcols Hincl Hnd.
  - simpl. now rewrite map_id.
  - inversion Hcols as [|x l Hnotin Hrest]; subst.
    assert (Hincl' : incl rest (columns df)) by (intros c Hc; apply Hincl; now right).
    cbn [to_numeric_loop].
    change (existsb (fun pattern => contains pattern (lower col)) numeric_patterns)
      with (numeric_label col).
    destruct (numeric_label col) eqn:Hnum.
    + destruct (getitem_unique df col Hnd) as [Eg | [s Eg]]; rewrite Eg.
      * exfalso. assert (Hin : In col (columns df)) by (apply Hincl; now left).
        apply in_map_iff in Hin. destruct Hin as (s & Es & Hin).
        assert (H : In s (getitem df col)) by (apply getitem_In; auto).
        rewrite Eg in H. contradiction.
      * pose proof (getitem_name _ _ _ Eg) as Es. rewrite <- Es in Eg.
        rewrite <- Es, setitem_update; [|exact Eg|reflexivity].
        rewrite IH; [|assumption|now rewrite columns_update_column|
                        now rewrite columns_update_column].
        f_equal. unfold update_column. rewrite map_map. apply map_ext_in.
        intros s0 Hin. cbn [member existsb].
        destruct (String.eqb_spec (name s0) (name s)) as [E|E]; [|reflexivity].
        assert (H : In s0 (getitem df (name s))) by (apply getitem_In; auto).
        rewrite Eg in H. destruct H as [<-|[]].
        cbn [name to_numeric]. rewrite Es, Hnum, andb_true_r. unfold member.
        replace (existsb (String.eqb col) rest) with false; [reflexivity|].
        symmetry. destruct (existsb (String.eqb col) rest) eqn:Em; [|reflexivity].
        apply member_In in Em. contradiction.
    + rewrite IH by assumption. f_equal. apply map_ext. intros s0.
      cbn [member existsb].
      destruct (String.eqb_spec (name s0) col) as [E|E]; [|reflexivity].
      rewrite E, Hnum, !andb_false_r. reflexivity.
Qed.

(** With distinct labels [_clean_dataframe] raises nothing: it drops the
    rows and then the columns without a value and converts the columns
    whose label matches a pattern. *)
Lemma clean_dataframe_loaded (to_numeric_text : string -> option Q) (df : DataFrame) :
  NoDup (columns df) ->
  _clean_dataframe to_numeric_text df = Some (loaded to_numeric_text df).
Proof.
  intros Hnd. unfold _clean_dataframe, loaded.
  set (pruned := filter _ (select_rows _ df)).
  assert (Hp : NoDup (columns pruned)).
  { apply columns_filter. now rewrite columns_select_rows. }
  rewrite to_numeric_loop_spec; [|exact Hp|apply incl_refl|exact Hp].
  apply f_equal. apply map_ext_in. intros s Hs.
  replace (member (name s) (columns pruned)) with true; [reflexivity|].
  symmetry. apply member_In. now apply in_map.
Qed.

Lemma analyze_file_loaded (to_numeric_text : string -> option Q) (df : DataFrame)
  (file_path file_type : string) :
  NoDup (columns df) ->
  analyze_file to_numeric_text df file_path file_type
  = if empty df then ErrorResult "Archivo vacío o sin datos válidos"
    else if empty (loaded to_numeric_text df)
         then ErrorResult "No hay datos válidos después de la limpieza"
         else FileAnalysis file_type (last_segment EmptyString file_path)
                (len (loaded to_numeric_text df))
                (analyze (loaded to_numeric_text df) file_type).
Proof.
  intros Hnd. unfold analyze_file. now rewrite clean_dataframe_loaded.
Qed.

(** Every cell of a column lies in the row of its position. *)
Lemma zip_cons_head (cells : list cell) (rs : list (list cell)) :
  List.length rs = List.length cells ->
  Forall2 (fun c r => In c r) cells (zip_cons cells rs).
Proof.
  revert rs. induction cells as [|c t IH]; intros [|r rs] H; try discriminate;
    simpl; constructor; [now left|]. apply IH. simpl in H. congruence.
Qed.

Lemma zip_cons_tail (vals cells : list cell) (rs : list (list cell)) :
  Forall2 (fun c r => In c r) vals rs -> List.length cells = List.length rs ->
  Forall2 (fun c r => In c r) vals (zip_cons cells rs).
Proof.
  intros H. revert cells. induction H as [|c r vals rs Hc H IH]; intros cells Hl.
  - destruct cells; [constructor|discriminate].
  - destruct cells as [|x cells]; [discriminate|]. simpl.
    constructor; [now right|]. apply IH. simpl in Hl. congruence.
Qed.

Lemma cells_in_rows (n : nat) (df : DataFrame) (s : Series) :
  uniform n df -> In s df ->
  Forall2 (fun c r => In c r) (values s) (rows_from n df).
Proof.
  induction 1 as [|s0 t Hs0 Ht IH]; intros Hin; [contradiction|].
  simpl. pose proof (rows_from_length n t Ht) as Hl. destruct Hin as [->|Hin].
  - apply zip_cons_head. congruence.
  - apply zip_cons_tail; [now apply IH|congruence].
Qed.

Lemma has_value_In (c : cell) (cells : list cell) :
  In c cells -> isna c = false -> has_value cells = true.
Proof.
  intros Hin Hc. unfold has_value. apply negb_true_iff.
  destruct (forallb isna cells) eqn:E; [|reflexivity].
  rewrite forallb_forall in E. rewrite (E c Hin) in Hc. discriminate.
Qed.

Lemma has_value_false (cells : list cell) :
  (forall c, In c cells -> isna c = true) -> has_value cells = false.
Proof.
  intros H. unfold has_value. apply negb_false_iff. now apply forallb_forall.
Qed.

Lemma select_keeps_values (vals : list cell) (rs : list (list cell)) (c : cell) :
  Forall2 (fun c r => In c r) vals rs -> In c vals -> isna c = false ->
  In c (select (map has_value rs) vals).
Proof.
  induction 1 as [|x r vals rs Hx H IH]; intros Hin Hc; [contradiction|].
  simpl. destruct Hin as [->|Hin].
  - rewrite (has_value_In c r Hx Hc). now left.
  - destruct (has_value r); [right|]; now apply IH.
Qed.

(** A cell that is not missing is not dropped with the empty rows. *)
Lemma value_survives (df : DataFrame) (s : Series) (c : cell) :
  aligned df -> In s df -> In c (values s) -> isna c = false ->
  In c (select (row_mask has_value df) (values s)).
Proof.
  intros Hal Hs Hin Hc. apply aligned_uniform in Hal.
  unfold row_mask. rewrite (rows_uniform (len df)); [|exact Hal|].
  - apply select_keeps_values; auto. now apply cells_in_rows.
  - intros ->. contradiction.
Qed.

Lemma count_true_map {A : Type} (p : A -> bool) (l : list A) :
  count_true (map p l) = List.length (filter p l).
Proof.
  unfold count_true. induction l as [|x l IH]; [reflexivity|].
  simpl. destruct (p x); simpl; now rewrite IH.
Qed.

Lemma getitem_member (df : DataFrame) (s : Series) :
  NoDup (columns df) -> In s df -> getitem df (name s) = [s].
Proof.
  intros Hnd Hin. assert (H : In s (getitem df (name s))) by (apply getitem_In; auto).
  destruct (getitem_unique df (name s) Hnd) as [E | [s' E]]; rewrite E in *.
  - contradiction.
  - destruct H as [->|[]]. reflexivity.
Qed.

Lemma same_label_same_column (df : DataFrame) (s s' : Series) :
  NoDup (columns df) -> In s df -> In s' df -> name s' = name s -> s' = s.
Proof.
  intros Hnd Hs Hs' E. pose proof (getitem_member df s Hnd Hs) as Hg.
  assert (H : In s' (getitem df (name s))) by (apply getitem_In; auto).
  rewrite Hg in H. destruct H as [->|[]]. reflexivity.
Qed.

Lemma columns_loaded (to_numeric_text : string -> option Q) (df : DataFrame) :
  columns (loaded to_numeric_text df)
  = columns (filter (fun s => has_value (values s))
                    (select_rows (row_mask has_value df) df)).
Proof.
  unfold loaded, columns. rewrite map_map. apply map_ext.
  intros s. now destruct (numeric_label (name s)).
Qed.

Lemma loaded_distinct (to_numeric_text : string -> option Q) (df : DataFrame) :
  NoDup (columns df) -> NoDup (columns (loaded to_numeric_text df)).
Proof.
  intros H. rewrite columns_loaded. apply columns_filter.
  now rewrite columns_select_rows.
Qed.

(** The columns of the analysed table, in terms of the columns read. *)
Lemma In_loaded (to_numeric_text : string -> option Q) (df : DataFrame) (s' : Series) :
  In s' (loaded to_numeric_text df) <->
  exists s, In s df /\
    has_value (select (row_mask has_value df) (values s)) = true /\
    s' = (if numeric_label (name s)
          then mkSeries (name s) numeric
                 (map (to_numeric_cell to_numeric_text (dtype s))
                      (select (row_mask has_value df) (values s)))
          else set_values s (select (row_mask has_value df) (values s))).
Proof.
  unfold loaded. rewrite in_map_iff. split.
  - intros (s0 & <- & H0). apply filter_In in H0. destruct H0 as [H0 Hv].
    unfold select_rows in H0. apply in_map_iff in H0. destruct H0 as (s & <- & Hs).
    exists s. auto.
  - intros (s & Hs & Hv & ->).
    exists (set_values s (select (row_mask has_value df) (values s))).
    split; [reflexivity|]. apply filter_In. split; [|exact Hv].
    unfold select_rows. apply in_map_iff. eauto.
Qed.

Lemma dropna_In (l : list cell) (q : Q) : In q (dropna l) <-> In (Num q) l.
Proof.
  induction l as [|c t IH]; simpl; [tauto|].
  destruct c; simpl; rewrite IH; split; intros H; try tauto.
  - destruct H as [H|H]; [discriminate|exact H].
  - destruct H as [H|H]; [discriminate|exact H].
  - destruct H as [->|H]; auto.
  - destruct H as [H|H]; [injection H as ->|]; auto.
Qed.

Lemma reads_number_cell (to_numeric_text : string -> option Q) (d : DType) (c : cell) :
  d <> datetime64 ->
  reads_number to_numeric_text c = true <->
  exists q, to_numeric_cell to_numeric_text d c = Num q.
Proof.
  intros Hd. destruct c as [|t|q]; simpl.
  - destruct d; try contradiction; split; try discriminate;
      intros (q & H); discriminate.
  - destruct (to_numeric_text t) as [q|]; split; eauto; try discriminate.
    intros (q & H); discriminate.
  - split; eauto.
Qed.

(** In the analysed table a column that [_clean_dataframe] converts has a
    number exactly when the column read has a number or a text that reads
    as a number. *)
Lemma loaded_numeric_values (to_numeric_text : string -> option Q) (df : DataFrame)
  (s : Series) :
  aligned df -> NoDup (columns df) -> In s df ->
  numeric_label (name s) = true -> dtype s <> datetime64 ->
  (exists c, In c (values s) /\ reads_number to_numeric_text c = true) <->
  In (name s) (columns (loaded to_numeric_text df)) /\
  exists v vs, numeric_values (loaded to_numeric_text df) (name s) = Some (v :: vs).
Proof.
  intros Hal Hnd Hs Hnum Hd.
  set (kept := select (row_mask has_value df) (values s)).
  set (s' := mkSeries (name s) numeric
               (map (to_numeric_cell to_numeric_text (dtype s)) kept)).
  pose proof (loaded_distinct to_numeric_text df Hnd) as Hnd'.
  split.
  - intros (c & Hc & Hr).
    assert (Hna : isna c = false) by (destruct c; [discriminate|reflexivity..]).
    pose proof (value_survives df s c Hal Hs Hc Hna) as Hk. fold kept in Hk.
    assert (Hin : In s' (loaded to_numeric_text df)).
    { apply In_loaded. exists s. rewrite Hnum. fold kept.
      split; [exact Hs|]. split; [|reflexivity]. exact (has_value_In c kept Hk Hna). }
    split; [exact (in_map name _ _ Hin)|].
    apply (reads_number_cell to_numeric_text (dtype s) c Hd) in Hr.
    destruct Hr as (q & Hq).
    assert (Hdq : In q (dropna (values s'))).
    { apply dropna_In. simpl. rewrite <- Hq. now apply in_map. }
    destruct (dropna (values s')) as [|v vs] eqn:E; [contradiction|].
    exists v, vs. apply numeric_values_spec. exists s'.
    split; [exact (getitem_member _ s' Hnd' Hin)|]. split; [reflexivity|now rewrite E].
  - intros (_ & v & vs & Hn). apply numeric_values_spec in Hn.
    destruct Hn as (s0 & Hg & _ & Hv).
    assert (Hin0 : In s0 (loaded to_numeric_text df)).
    { apply (getitem_In _ (name s) s0). rewrite Hg. now left. }
    pose proof (getitem_name _ _ _ Hg) as Hname.
    apply In_loaded in Hin0. destruct Hin0 as (s1 & Hs1 & _ & E).
    assert (Hs1s : s1 = s).
    { apply (same_label_same_column df); auto. rewrite <- Hname, E.
      now destruct (numeric_label (name s1)). }
    subst s1. rewrite Hnum in E. fold kept in E. subst s0.
    assert (Hq : In v (dropna (map (to_numeric_cell to_numeric_text (dtype s)) kept)))
      by (simpl in Hv; rewrite <- Hv; now left).
    apply dropna_In, in_map_iff in Hq. destruct Hq as (c & Hc & Hk).
    exists c. split; [exact (In_select _ _ _ Hk)|].
    apply (reads_number_cell to_numeric_text (dtype s) c Hd). eauto.
Qed.

Lemma loaded_uniform (to_numeric_text : string -> option Q) (df : DataFrame) :
  aligned df -> df <> [] ->
  uniform (List.length (filter has_value (rows df))) (loaded to_numeric_text df).
Proof.
  intros Hal Hne. apply aligned_uniform in Hal.
  pose proof (row_mask_length (len df) has_value df Hal Hne) as Hl.
  rewrite <- count_true_map. change (map has_value (rows df)) with (row_mask has_value df).
  unfold loaded, uniform. apply Forall_map.
  assert (H : uniform (count_true (row_mask has_value df))
                (filter (fun s => has_value (values s))
                        (select_rows (row_mask has_value df) df))).
  { apply uniform_filter, select_rows_uniform. now rewrite Hl. }
  eapply Forall_impl; [|exact H]. intros s Hs. cbv beta in *.
  destruct (numeric_label (name s)); [|exact Hs]. simpl. now rewrite length_map.
Qed.

(** A table without a value has no column left after the pruning. *)
Lemma loaded_without_values (to_numeric_text : string -> option Q) (df : DataFrame) :
  (forall s c, In s df -> In c (values s) -> isna c = true) ->
  loaded to_numeric_text df = [].
Proof.
  intros H. destruct (loaded to_numeric_text df) as [|s' t] eqn:E; [reflexivity|].
  assert (Hin : In s' (loaded to_numeric_text df)) by (rewrite E; now left).
  apply In_loaded in Hin. destruct Hin as (s & Hs & Hv & _).
  rewrite has_value_false in Hv; [discriminate|].
  intros c Hc. apply (H s c Hs). exact (In_select _ _ _ Hc).
Qed.

Lemma loaded_with_value (to_numeric_text : string -> option Q) (df : DataFrame) :
  aligned df ->
  (exists s c, In s df /\ In c (values s) /\ isna c = false) ->
  len (loaded to_numeric_text df) = List.length (filter has_value (rows df)) /\
  empty (loaded to_numeric_text df) = false /\ empty df = false.
Proof.
  intros Hal (s & c & Hs & Hc & Hna).
  assert (Hne : df <> []) by (intros ->; contradiction).
  pose proof (value_survives df s c Hal Hs Hc Hna) as Hk.
  pose proof (loaded_uniform to_numeric_text df Hal Hne) as Hu.
  assert (Hin : exists s', In s' (loaded to_numeric_text df)).
  { eexists. apply In_loaded. exists s. split; [exact Hs|]. split; [|reflexivity].
    exact (has_value_In c _ Hk Hna). }
  destruct Hin as (s' & Hin).
  assert (Hne' : loaded to_numeric_text df <> []) by (intros E; rewrite E in Hin; contradiction).
  pose proof (uniform_len _ _ Hu Hne') as Hlen.
  assert (Hpos : (0 < List.length (filter has_value (rows df)))%nat).
  { rewrite <- count_true_map. change (map has_value (rows df)) with (row_mask has_value df).
    apply aligned_uniform in Hal.
    rewrite <- (select_length (row_mask has_value df) (values s)).
    - destruct (select (row_mask has_value df) (values s)); [contradiction|simpl; lia].
    - rewrite (row_mask_length (len df)); auto.
      unfold uniform in Hal. rewrite Forall_forall in Hal. now apply Hal. }
  split; [exact Hlen|]. unfold empty. rewrite Hlen. split; apply Nat.eqb_neq; [lia|].
  apply aligned_uniform in Hal. unfold uniform in Hal. rewrite Forall_forall in Hal.
  rewrite <- (Hal s Hs). destruct (values s); [contradiction|discriminate].
Qed.

(** X7.  What [analyze_file] returns for the table read from a file whose
    labels are distinct and whose columns have one cell per row.  A table
    without a cell that is not missing is reported as an error: as an
    empty file when it has no row, as a file without valid data
    otherwise.  Any other table is analysed, under the given file type
    and the last segment of the path, and its [total_measurements] is the
    number of rows that hold a cell that is not missing. *)
Theorem analyze_file_outcome (to_numeric_text : string -> option Q) (df : DataFrame)
  (file_path file_type : string) :
  aligned df -> NoDup (columns df) ->
  ((forall s c, In s df -> In c (values s) -> isna c = true) ->
   analyze_file to_numeric_text df file_path file_type
   = ErrorResult (if empty df then "Archivo vacío o sin datos válidos"
                  else "No hay datos válidos después de la limpieza")) /\
  ((exists s c, In s df /\ In c (values s) /\ isna c = false) ->
   exists cleaned_df,
     _clean_dataframe to_numeric_text df = Some cleaned_df /\
     analyze_file to_numeric_text df file_path file_type
     = FileAnalysis file_type (last_segment EmptyString file_path)
         (List.length (filter has_value (rows df)))
         (analyze cleaned_df file_type)).
Proof.
  intros Hal Hnd. rewrite (analyze_file_loaded _ _ _ _ Hnd). split.
  - intros H. rewrite (loaded_without_values _ _ H). now destruct (empty df).
  - intros H. exists (loaded to_numeric_text df).
    split; [now apply clean_dataframe_loaded|].
    destruct (loaded_with_value to_numeric_text df Hal H) as (-> & -> & ->).
    reflexivity.
Qed.

Lemma analyze_file_outcome_witness :
  aligned text_voltage_example /\ NoDup (columns text_voltage_example) /\
  exists cleaned_df,
    _clean_dataframe parse_float text_voltage_example = Some cleaned_df /\
    analyze_file parse_float text_voltage_example "uploads/temp_trend.xls" "tendencia"
    = FileAnalysis "tendencia" "temp_trend.xls" 2 (analyze cleaned_df "tendencia").
Proof.
  assert (Hal : aligned text_voltage_example)
    by (intros s [<-|[<-|[]]]; reflexivity).
  assert (Hnd : NoDup (columns text_voltage_example)) by distinct_labels.
  split; [exact Hal|]. split; [exact Hnd|].
  apply (analyze_file_outcome parse_float text_voltage_example
           "uploads/temp_trend.xls" "tendencia" Hal Hnd).
  exists (mkSeries "Note" object [Str "a"; NaN; NaN]), (Str "a").
  split; [right; left; reflexivity|]. split; [left; reflexivity|reflexivity].
Defined.

Lemma numeric_label_of (pattern col : string) :
  In pattern numeric_patterns -> occurs pattern (lower col) -> numeric_label col = true.
Proof.
  intros Hp Hocc. unfold numeric_label. apply existsb_exists.
  exists pattern. split; [exact Hp|now apply contains_spec].
Qed.

(** A label that matches a target of the trend rules, or the pattern of
    the harmonic columns, is a label [_clean_dataframe] converts. *)
Lemma numeric_label_of_target (pattern : string) (targets : list string)
  (target_col col : string) :
  In pattern numeric_patterns ->
  forallb (fun t => contains pattern (lower t)) targets = true ->
  In target_col targets -> occurs (lower target_col) (lower col) ->
  numeric_label col = true.
Proof.
  intros Hp Hall Ht Hocc. apply (numeric_label_of pattern); [exact Hp|].
  rewrite forallb_forall in Hall. specialize (Hall target_col Ht).
  apply contains_spec in Hall. exact (occurs_trans _ _ _ Hall Hocc).
Qed.

Lemma match_harmonic_prefix (s : string) : match_harmonic s = true -> occurs "P H " s.
Proof.
  unfold match_harmonic.
  destruct (strip_prefix "P H " s) as [r|] eqn:E; [|discriminate].
  apply strip_prefix_spec in E. intros _. exists EmptyString, r. exact E.
Qed.

Lemma search_harmonic_prefix (s : string) : search_harmonic s = true -> occurs "P H " s.
Proof.
  induction s as [|x s IH]; intros H.
  - discriminate.
  - change (search_harmonic (String x s))
      with (match_harmonic (String x s) || search_harmonic s) in H.
    apply orb_true_iff in H. destruct H as [H|H]; [now apply match_harmonic_prefix|].
    destruct (IH H) as (pre & post & ->). now exists (String x pre), post.
Qed.

Lemma numeric_label_of_harmonic (col : string) :
  search_harmonic col = true -> numeric_label col = true.
Proof.
  intros H. apply search_harmonic_prefix, occurs_lower in H.
  apply (numeric_label_of "p h"); [simpl; tauto|].
  eapply occurs_trans; [|exact H]. now exists EmptyString, " ".
Qed.

(** The records of a rule for one column of the table. *)
Lemma rule_record_of_column {R : Type} (mk : string -> list Q -> R)
  (parametro : R -> string) (df : DataFrame) (targets : list string) (col : string) :
  (forall c vals, parametro (mk c vals) = c) ->
  (exists target_col, In target_col targets /\ occurs (lower target_col) (lower col)) ->
  (In col (columns df) /\ exists v vs, numeric_values df col = Some (v :: vs)) <->
  exists r,
    In r (flat_map (fun target_col =>
            flat_map (fun col =>
              match numeric_values df col with
              | Some (v :: vs) => [mk col (v :: vs)]
              | _ => []
              end) (matching_cols df target_col)) targets) /\
    parametro r = col.
Proof.
  intros Hp (t & Ht & Hocc). split.
  - intros (Hc & v & vs & Hn). exists (mk col (v :: vs)). split; [|apply Hp].
    apply in_rule_records. exists t, col, v, vs.
    split; [exact Ht|]. split; [|auto]. apply matching_cols_spec. auto.
  - intros (r & Hr & E). apply in_rule_records in Hr.
    destruct Hr as (t' & c & v & vs & _ & Hm & Hn & ->). rewrite Hp in E. subst c.
    apply matching_cols_spec in Hm. split; [tauto|eauto].
Qed.

(** X8.  [analyze_file] analyses the texts of a channel too.  When the labels
    are distinct and the columns have one cell per row, a column whose
    label matches a target of a trend rule gets a record of that rule
    exactly when it holds a number or a text in which [pd.to_numeric]
    reads a number; so does a harmonic column of an order other than 1 in
    a file of harmonics. *)
Theorem channels_with_numbers_are_analysed (to_numeric_text : string -> option Q)
  (df : DataFrame) (file_path file_type : string) (s : Series) :
  aligned df -> NoDup (columns df) -> In s df -> dtype s <> datetime64 ->
  forall ft filename n a,
    analyze_file to_numeric_text df file_path file_type = FileAnalysis ft filename n a ->
    let has_number :=
      exists c, In c (values s) /\ reads_number to_numeric_text c = true in
    let matches targets :=
      exists target_col,
        In target_col targets /\ occurs (lower target_col) (lower (name s)) in
    (file_type <> "armonicos_potencia" ->
       (matches voltage_target_columns ->
        (has_number <->
         exists r, In r (voltage_deviations_of a) /\ v_parametro r = name s)) /\
       (matches flicker_target_columns ->
        (has_number <-> exists r, In r (flickers_of a) /\ l_parametro r = name s)) /\
       (matches thd_target_columns ->
        (has_number <-> exists r, In r (thd_analysis_of a) /\ l_parametro r = name s)))
    /\
    (file_type = "armonicos_potencia" ->
       search_harmonic (name s) = true -> _extract_harmonic_order (name s) <> 1%N ->
       (has_number <->
        exists r, In r (harmonics_analysis_of a) /\ h_parametro r = name s)).
Proof.
  intros Hal Hnd Hs Hd ft filename n a Ha has_number matches.
  rewrite (analyze_file_loaded _ _ _ _ Hnd) in Ha.
  destruct (empty df); [discriminate|].
  destruct (empty (loaded to_numeric_text df)); [discriminate|].
  injection Ha as _ _ _ <-.
  set (cleaned_df := loaded to_numeric_text df).
  assert (Hvalues : numeric_label (name s) = true ->
            (has_number <->
             In (name s) (columns cleaned_df) /\
             exists v vs, numeric_values cleaned_df (name s) = Some (v :: vs))).
  { intros Hnum. now apply loaded_numeric_values. }
  split.
  - intros Hft.
    assert (E : analyze cleaned_df file_type = _analyze_tendencia_complete cleaned_df).
    { unfold analyze. destruct (String.eqb file_type "tendencia"); [reflexivity|].
      destruct (String.eqb_spec file_type "armonicos_potencia"); [contradiction|].
      reflexivity. }
    rewrite E. cbn [_analyze_tendencia_complete voltage_deviations_of flickers_of
                    thd_analysis_of].
    split; [|split]; intros Hm.
    + rewrite Hvalues.
      * exact (rule_record_of_column
                 (fun col vals => voltage_record col vals (len cleaned_df))
                 v_parametro cleaned_df voltage_target_columns (name s)
                 (fun _ _ => eq_refl) Hm).
      * destruct Hm as (t & Ht & Hocc).
        now apply (numeric_label_of_target "u l" voltage_target_columns t);
          [simpl; tauto|reflexivity| |].
    + rewrite Hvalues.
      * exact (rule_record_of_column
                 (fun col vals => limit_record flicker_limit col vals (len cleaned_df))
                 l_parametro cleaned_df flicker_target_columns (name s)
                 (fun _ _ => eq_refl) Hm).
      * destruct Hm as (t & Ht & Hocc).
        now apply (numeric_label_of_target "pst" flicker_target_columns t);
          [simpl; tauto|reflexivity| |].
    + rewrite Hvalues.
      * exact (rule_record_of_column
                 (fun col vals => limit_record thd_limit col vals (len cleaned_df))
                 l_parametro cleaned_df thd_target_columns (name s)
                 (fun _ _ => eq_refl) Hm).
      * destruct Hm as (t & Ht & Hocc).
        now apply (numeric_label_of_target "thd" thd_target_columns t);
          [simpl; tauto|reflexivity| |].
  - intros -> Hsearch Horder.
    change (analyze cleaned_df "armonicos_potencia")
      with (_analyze_armonicos_complete cleaned_df).
    cbn [_analyze_armonicos_complete harmonics_analysis_of].
    rewrite (Hvalues (numeric_label_of_harmonic _ Hsearch)). split.
    + intros (Hc & v & vs & Hn).
      exists (harmonic_record (name s) (v :: vs) harmonic_total_measurements).
      split; [|reflexivity]. apply in_harmonics_results. exists (name s), v, vs.
      split; [|auto]. apply harmonic_columns_spec. auto.
    + intros (r & Hr & E). apply in_harmonics_results in Hr.
      destruct Hr as (c & v & vs & Hc & Hn & ->). simpl in E. subst c.
      apply harmonic_columns_spec in Hc. split; [tauto|eauto].
Qed.

Lemma channels_with_numbers_are_analysed_witness :
  let a := analyze (loaded parse_float text_voltage_example) "tendencia" in
  analyze_file parse_float text_voltage_example "temp_trend.xls" "tendencia"
  = FileAnalysis "tendencia" "temp_trend.xls" 2 a /\
  exists r, In r (voltage_deviations_of a) /\ v_parametro r = "U L1 avg. 10 min [V]".
Proof.
  cbv zeta.
  assert (Ha : analyze_file parse_float text_voltage_example "temp_trend.xls" "tendencia"
               = FileAnalysis "tendencia" "temp_trend.xls" 2
                   (analyze (loaded parse_float text_voltage_example) "tendencia"))
    by reflexivity.
  split; [exact Ha|].
  assert (Hal : aligned text_voltage_example)
    by (intros s [<-|[<-|[]]]; reflexivity).
  assert (Hnd : NoDup (columns text_voltage_example)) by distinct_labels.
  destruct (channels_with_numbers_are_analysed parse_float text_voltage_example
              "temp_trend.xls" "tendencia"
              (mkSeries "U L1 avg. 10 min [V]" object [Str "120"; NaN; Str "x"])
              Hal Hnd (or_introl eq_refl) ltac:(discriminate) _ _ _ _ Ha) as [H _].
  destruct (H ltac:(discriminate)) as (Hv & _ & _).
  apply Hv.
  - exists "U L1 avg. 10 min [V]". split; [left; reflexivity|].
    now exists EmptyString, EmptyString.
  - exists (Str "120"). split; [left; reflexivity|reflexivity].
Defined.

(* ================================================================== *)
(** ** The format validation of an analysed file *)

Lemma to_numeric_loop_columns (to_numeric_text : string -> option Q)
  (cols : list string) (df cleaned_df : DataFrame) :
  to_numeric_loop to_numeric_text cols df = Some cleaned_df ->
  columns cleaned_df = columns df.
Proof.
  revert df. induction cols as [|col rest IH]; intros df H.
  - injection H as <-. reflexivity.
  - cbn [to_numeric_loop] in H.
    destruct (existsb (fun pattern => contains pattern (lower col)) numeric_patterns).
    + destruct (getitem df col) as [|series [|]]; try discriminate.
      rewrite (IH _ H). apply columns_setitem.
    + exact (IH _ H).
Qed.

Lemma columns_pruned (mask : list bool) (df : DataFrame) :
  columns (filter (fun s => negb (forallb isna (values s))) (select_rows mask df))
  = columns (filter (fun s => negb (forallb isna (select mask (values s)))) df).
Proof.
  unfold select_rows, columns.
  induction df as [|s t IH]; [reflexivity|]. simpl.
  destruct (negb (forallb isna (select mask (values s)))); simpl; now rewrite IH.
Qed.

(** [_clean_dataframe] adds no column and renames none. *)
Lemma clean_dataframe_columns (to_numeric_text : string -> option Q)
  (df cleaned_df : DataFrame) :
  _clean_dataframe to_numeric_text df = Some cleaned_df ->
  exists keep, columns cleaned_df = columns (filter keep df).
Proof.
  unfold _clean_dataframe. intros H. apply to_numeric_loop_columns in H.
  eexists. rewrite H. apply columns_pruned.
Qed.

Lemma In_columns_filter (keep : Series -> bool) (df : DataFrame) (col : string) :
  In col (columns (filter keep df)) -> In col (columns df).
Proof.
  unfold columns. rewrite !in_map_iff. intros (s & E & H).
  apply filter_In in H. exists s. tauto.
Qed.

Lemma filter_columns_length (p : string -> bool) (keep : Series -> bool)
  (df : DataFrame) :
  (List.length (filter p (columns (filter keep df)))
   <= List.length (filter p (columns df)))%nat.
Proof.
  induction df as [|s t IH]; simpl; [lia|].
  destruct (keep s); simpl; destruct (p (name s)); simpl; lia.
Qed.

Lemma harmonics_results_length (df : DataFrame) :
  (List.length (harmonics_results df) <= List.length (found_harmonics df))%nat.
Proof.
  unfold harmonics_results, harmonic_columns, found_harmonics.
  induction (columns df) as [|col cols IH]; simpl; [lia|].
  destruct (search_harmonic col); simpl; [|exact IH].
  destruct (negb (_extract_harmonic_order col =? 1)%N); simpl; [|lia].
  rewrite length_app.
  destruct (numeric_values df col) as [[|v vs]|]; simpl; lia.
Qed.

Lemma pattern_found_of_target (df : DataFrame) (keep : Series -> bool)
  (pattern target_col col : string) :
  contains pattern (lower target_col) = true ->
  In col (columns (filter keep df)) -> occurs (lower target_col) (lower col) ->
  pattern_found df pattern = true.
Proof.
  intros Hp Hc Hocc. unfold pattern_found. apply existsb_exists. exists col.
  split; [exact (In_columns_filter _ _ _ Hc)|].
  apply contains_spec. apply contains_spec in Hp. exact (occurs_trans _ _ _ Hp Hocc).
Qed.

(** X9.  A file that [analyze_file] has analysed with a record of each of the
    three trend rules passes [validate_file_format] as a trend file, and
    one analysed with three harmonic records or more passes it as a file
    of harmonics: the patterns of the validation occur in the labels the
    rules match. *)
Theorem analysed_file_passes_validation (to_numeric_text : string -> option Q)
  (df : DataFrame) (file_path file_type : string) :
  forall ft filename n a,
    analyze_file to_numeric_text df file_path file_type = FileAnalysis ft filename n a ->
    (voltage_deviations_of a <> [] -> flickers_of a <> [] -> thd_analysis_of a <> [] ->
     is_valid (validate_file_format df "tendencia") = true) /\
    ((3 <= List.length (harmonics_analysis_of a))%nat ->
     is_valid (validate_file_format df "armonicos_potencia") = true).
Proof.
  intros ft filename n a Ha. unfold analyze_file in Ha.
  destruct (empty df); [discriminate|].
  destruct (_clean_dataframe to_numeric_text df) as [cleaned_df|] eqn:Ec;
    [|discriminate].
  destruct (empty cleaned_df); [discriminate|]. injection Ha as _ _ _ <-.
  destruct (clean_dataframe_columns _ _ _ Ec) as (keep & Hcols).
  assert (Hfound : forall target_col col pattern,
             In col (matching_cols cleaned_df target_col) ->
             contains pattern (lower target_col) = true ->
             pattern_found df pattern = true).
  { intros t col pattern Hm Hp. apply matching_cols_spec in Hm. rewrite Hcols in Hm.
    destruct Hm as [Hc Hocc]. exact (pattern_found_of_target df keep _ _ _ Hp Hc Hocc). }
  split.
  - intros Hv Hf Ht.
    destruct (analyze_cases cleaned_df file_type) as [E|E]; rewrite E in *;
      cbn [_analyze_tendencia_complete _analyze_armonicos_complete
           voltage_deviations_of flickers_of thd_analysis_of] in *;
      [|contradiction].
    assert (H1 : pattern_found df "u l" = true).
    { destruct (_analyze_voltage_deviations cleaned_df (len cleaned_df))
        as [|r l] eqn:Er; [contradiction|].
      assert (Hr : In r (_analyze_voltage_deviations cleaned_df (len cleaned_df)))
        by (rewrite Er; now left).
      apply in_voltage_deviations in Hr.
      destruct Hr as (t & col & _ & _ & Hin & Hm & _).
      apply (Hfound t col); [exact Hm|].
      destruct Hin as [<-|[<-|[<-|[]]]]; reflexivity. }
    assert (H2 : pattern_found df "pst" = true).
    { destruct (_analyze_flickers cleaned_df (len cleaned_df))
        as [|r l] eqn:Er; [contradiction|].
      assert (Hr : In r (_analyze_flickers cleaned_df (len cleaned_df)))
        by (rewrite Er; now left).
      apply in_flickers in Hr.
      destruct Hr as (t & col & _ & _ & Hin & Hm & _).
      apply (Hfound t col); [exact Hm|].
      destruct Hin as [<-|[<-|[<-|[]]]]; reflexivity. }
    assert (H3 : pattern_found df "thd" = true).
    { destruct (_analyze_thd cleaned_df (len cleaned_df))
        as [|r l] eqn:Er; [contradiction|].
      assert (Hr : In r (_analyze_thd cleaned_df (len cleaned_df)))
        by (rewrite Er; now left).
      apply in_thd in Hr.
      destruct Hr as (t & col & _ & _ & Hin & Hm & _).
      apply (Hfound t col); [exact Hm|].
      destruct Hin as [<-|[<-|[<-|[]]]]; reflexivity. }
    unfold validate_file_format, validation_issues, required_patterns.
    cbn [String.eqb Ascii.eqb Bool.eqb flat_map is_valid]. rewrite H1, H2, H3. reflexivity.
  - intros Hh.
    destruct (analyze_cases cleaned_df file_type) as [E|E]; rewrite E in *;
      cbn [_analyze_tendencia_complete _analyze_armonicos_complete
           harmonics_analysis_of] in *; [simpl in Hh; lia|].
    pose proof (harmonics_results_length cleaned_df) as Hl.
    assert (Hle : (List.length (found_harmonics cleaned_df)
                   <= List.length (found_harmonics df))%nat).
    { unfold found_harmonics. rewrite Hcols. apply filter_columns_length. }
    unfold validate_file_format, validation_issues. cbn [is_valid].
    change (String.eqb "armonicos_potencia" "tendencia") with false.
    change (String.eqb "armonicos_potencia" "armonicos_potencia") with true.
    cbv iota.
    destruct (Nat.ltb_spec (List.length (found_harmonics df)) 3); [lia|reflexivity].
Qed.

Lemma analysed_file_passes_validation_witness :
  let a := analyze full_trend_example "tendencia" in
  analyze_file parse_float full_trend_example "trend.xls" "tendencia"
  = FileAnalysis "tendencia" "trend.xls" 2 a /\
  is_valid (validate_file_format full_trend_example "tendencia") = true.
Proof.
  cbv zeta.
  assert (Ha : analyze_file parse_float full_trend_example "trend.xls" "tendencia"
               = FileAnalysis "tendencia" "trend.xls" 2
                   (analyze full_trend_example "tendencia")) by reflexivity.
  split; [exact Ha|].
  apply (proj1 (analysed_file_passes_validation parse_float full_trend_example
                  "trend.xls" "tendencia" _ _ _ _ Ha)); vm_compute; discriminate.
Defined.

(* ================================================================== *)
(** ** The summary of several analyses *)

Lemma get_set_count (d : Counts) (key key' : string) (n : nat) :
  get_count (set_count d key n) key'
  = if String.eqb key key' then n else get_count d key'.
Proof.
  induction d as [|[k m] t IH]; simpl.
  - reflexivity.
  - destruct (String.eqb_spec k key) as [->|E]; simpl.
    + destruct (String.eqb key key'); reflexivity.
    + rewrite IH. destruct (String.eqb_spec k key') as [->|E'];
        [|reflexivity].
      destruct (String.eqb_spec key key'); [congruence|reflexivity].
Qed.

Lemma keys_set_count (d : Counts) (key : string) (n : nat) (k : string) :
  In k (keys (set_count d key n)) <-> k = key \/ In k (keys d).
Proof.
  unfold keys. induction d as [|[k0 m] t IH]; simpl.
  - intuition.
  - destruct (String.eqb_spec k0 key) as [->|E]; simpl; [intuition|].
    rewrite IH. intuition.
Qed.

Lemma keys_set_count_distinct (d : Counts) (key : string) (n : nat) :
  NoDup (keys d) -> NoDup (keys (set_count d key n)).
Proof.
  unfold keys. induction d as [|[k0 m] t IH]; simpl; intros H.
  - constructor; [intros []|constructor].
  - inversion H as [|x l Hx Hl]; subst.
    destruct (String.eqb_spec k0 key) as [->|E]; simpl; [now constructor|].
    constructor; [|now apply IH].
    intros Hin. apply (keys_set_count t key n k0) in Hin.
    destruct Hin as [Hin|Hin]; [congruence|contradiction].
Qed.

Lemma sum_set_count (d : Counts) (key : string) (n : nat) :
  list_sum (map snd (set_count d key n)) + get_count d key
  = list_sum (map snd d) + n.
Proof.
  induction d as [|[k0 m] t IH]; simpl; [lia|].
  destruct (String.eqb_spec k0 key) as [->|E]; simpl; lia.
Qed.

Lemma files_by_type_add_result (summary : Summary) (result : FileResult) :
  files_by_type (add_result summary result)
  = set_count (files_by_type summary) (file_type_of result)
              (get_count (files_by_type summary) (file_type_of result) + 1).
Proof. destruct result as [e|ft fn n [v f t|h b]]; reflexivity. Qed.

Lemma fold_add_result_by_type (results : list FileResult) (summary : Summary) :
  let s := fold_left add_result results summary in
  total_files_processed s = total_files_processed summary /\
  (NoDup (keys (files_by_type summary)) -> NoDup (keys (files_by_type s))) /\
  list_sum (map snd (files_by_type s))
  = list_sum (map snd (files_by_type summary)) + List.length results /\
  (forall file_type,
     get_count (files_by_type s) file_type
     = get_count (files_by_type summary) file_type
       + List.length (filter (fun r => String.eqb (file_type_of r) file_type) results)) /\
  (forall file_type,
     In file_type (keys (files_by_type s)) <->
     In file_type (keys (files_by_type summary)) \/
     exists r, In r results /\ file_type_of r = file_type).
Proof.
  revert summary. induction results as [|r rs IH]; intros summary; cbv zeta.
  - simpl. split; [reflexivity|]. split; [auto|]. split; [lia|].
    split; [intros; lia|]. intros ft. split; [auto|]. intros [H|(r & [] & _)]. exact H.
  - cbn [fold_left]. destruct (IH (add_result summary r)) as (H1 & H2 & H3 & H4 & H5).
    pose proof (files_by_type_add_result summary r) as E.
    split; [|split; [|split; [|split]]].
    + rewrite H1. now destruct r as [e|ft fn n [v f t|h b]].
    + intros Hnd. apply H2. rewrite E. now apply keys_set_count_distinct.
    + rewrite H3, E.
      pose proof (sum_set_count (files_by_type summary) (file_type_of r)
                    (get_count (files_by_type summary) (file_type_of r) + 1)).
      simpl List.length. lia.
    + intros ft. rewrite H4, E, get_set_count. cbn [filter].
      destruct (String.eqb_spec (file_type_of r) ft) as [->|Hne]; simpl; lia.
    + intros ft. rewrite H5, E, keys_set_count. split.
      * intros [[->|H]|(r' & Hr' & Er')]; eauto.
        -- right. exists r. split; [now left|reflexivity].
        -- right. exists r'. split; [now right|exact Er'].
      * intros [H|(r' & [<-|Hr'] & Er')]; eauto.
Qed.

(** X10.  The dictionary [files_by_type] of a summary counts every result once,
    under its file type, and a dictionary of an error under "unknown":
    the count of a type is the number of results of that type, the types
    listed are those of the results, each listed once, and the counts add
    up to [total_files_processed], the number of results. *)
Theorem summary_counts_every_result (analysis_results : list FileResult) :
  let summary := generate_analysis_summary analysis_results in
  total_files_processed summary = List.length analysis_results /\
  list_sum (map snd (files_by_type summary)) = total_files_processed summary /\
  NoDup (keys (files_by_type summary)) /\
  (forall file_type,
     get_count (files_by_type summary) file_type
     = List.length (filter (fun r => String.eqb (file_type_of r) file_type)
                           analysis_results)) /\
  (forall file_type,
     In file_type (keys (files_by_type summary)) <->
     exists r, In r analysis_results /\ file_type_of r = file_type) /\
  (forall e, file_type_of (ErrorResult e) = "unknown").
Proof.
  cbv zeta. unfold generate_analysis_summary.
  destruct (fold_add_result_by_type analysis_results
              {| total_files_processed := List.length analysis_results;
                 files_by_type := [];
                 s_voltage_deviations := 0; s_flickers := 0;
                 s_thd_exceeded := 0; s_harmonics_analyzed := 0 |})
    as (H1 & H2 & H3 & H4 & H5).
  cbv zeta in *. cbn [total_files_processed files_by_type] in *.
  split; [exact H1|]. split; [rewrite H3, H1; reflexivity|].
  split; [apply H2; constructor|]. split; [intros ft; now rewrite H4|].
  split; [|reflexivity].
  intros ft. rewrite H5. split; [intros [[]|H]; exact H|auto].
Qed.

Lemma fold_add_result_totals (results : list FileResult) (summary : Summary) :
  let s := fold_left add_result results summary in
  s_voltage_deviations s
  = s_voltage_deviations summary
    + List.length (filter v_excede_limite
                     (flat_map (records_of voltage_deviations_of) results)) /\
  s_flickers s
  = s_flickers summary
    + List.length (filter l_excede_limite (flat_map (records_of flickers_of) results)) /\
  s_thd_exceeded s
  = s_thd_exceeded summary
    + List.length (filter l_excede_limite
                     (flat_map (records_of thd_analysis_of) results)) /\
  s_harmonics_analyzed s
  = s_harmonics_analyzed summary
    + List.length (flat_map (records_of harmonics_analysis_of) results).
Proof.
  revert summary. induction results as [|r rs IH]; intros summary; cbv zeta.
  - simpl. lia.
  - cbn [fold_left flat_map]. destruct (IH (add_result summary r)) as (H1 & H2 & H3 & H4).
    rewrite H1, H2, H3, H4, !filter_app, !length_app.
    destruct r as [e|ft fn n [v f t|h b]]; simpl; unfold count_exceeding; lia.
Qed.

(** X11.  The totals of a summary are taken over the records of all the
    results: the voltage, flicker and THD totals are the numbers of
    flagged records, the harmonics total is the number of harmonic
    records, with or without negative values; the dictionary of an error
    adds nothing to them. *)
Theorem summary_totals (analysis_results : list FileResult) :
  let summary := generate_analysis_summary analysis_results in
  s_voltage_deviations summary
  = List.length (filter v_excede_limite
                   (flat_map (records_of voltage_deviations_of) analysis_results)) /\
  s_flickers summary
  = List.length (filter l_excede_limite
                   (flat_map (records_of flickers_of) analysis_results)) /\
  s_thd_exceeded summary
  = List.length (filter l_excede_limite
                   (flat_map (records_of thd_analysis_of) analysis_results)) /\
  s_harmonics_analyzed summary
  = List.length (flat_map (records_of harmonics_analysis_of) analysis_results) /\
  (forall e, generate_analysis_summary (ErrorResult e :: analysis_results)
             = {| total_files_processed := S (List.length analysis_results);
                  files_by_type :=
                    files_by_type
                      (generate_analysis_summary (ErrorResult e :: analysis_results));
                  s_voltage_deviations := s_voltage_deviations summary;
                  s_flickers := s_flickers summary;
                  s_thd_exceeded := s_thd_exceeded summary;
                  s_harmonics_analyzed := s_harmonics_analyzed summary |}).
Proof.
  cbv zeta.
  assert (H : forall rs n,
             let s := fold_left add_result rs
                        {| total_files_processed := n; files_by_type := [];
                           s_voltage_deviations := 0; s_flickers := 0;
                           s_thd_exceeded := 0; s_harmonics_analyzed := 0 |} in
             total_files_processed s = n /\
             s_voltage_deviations s
             = List.length (filter v_excede_limite
                              (flat_map (records_of voltage_deviations_of) rs)) /\
             s_flickers s
             = List.length (filter l_excede_limite
                              (flat_map (records_of flickers_of) rs)) /\
             s_thd_exceeded s
             = List.length (filter l_excede_limite
                              (flat_map (records_of thd_analysis_of) rs)) /\
             s_harmonics_analyzed s
             = List.length (flat_map (records_of harmonics_analysis_of) rs)).
  { intros rs n. cbv zeta.
    destruct (fold_add_result_totals rs
                {| total_files_processed := n; files_by_type := [];
                   s_voltage_deviations := 0; s_flickers := 0;
                   s_thd_exceeded := 0; s_harmonics_analyzed := 0 |})
      as (H1 & H2 & H3 & H4).
    destruct (fold_add_result_by_type rs
                {| total_files_processed := n; files_by_type := [];
                   s_voltage_deviations := 0; s_flickers := 0;
                   s_thd_exceeded := 0; s_harmonics_analyzed := 0 |})
      as (H0 & _).
    cbv zeta in *. simpl in *. tauto. }
  unfold generate_analysis_summary.
  destruct (H analysis_results (List.length analysis_results))
    as (_ & H1 & H2 & H3 & H4).
  split; [exact H1|]. split; [exact H2|]. split; [exact H3|]. split; [exact H4|].
  intros e.
  destruct (H (ErrorResult e :: analysis_results)
              (List.length (ErrorResult e :: analysis_results)))
    as (G0 & G1 & G2 & G3 & G4).
  cbv zeta in *. cbn [flat_map records_of app] in *.
  destruct (fold_left add_result (ErrorResult e :: analysis_results) _) as [n0 d a b c g].
  cbn [total_files_processed s_voltage_deviations s_flickers s_thd_exceeded
       s_harmonics_analyzed files_by_type] in *.
  simpl List.length in G0. congruence.
Qed.

(* ================================================================== *)
(** ** The validation score and the detection of the file type *)

(** X12.  The score [save_analysis] stores for a result is 25 for each section
    of the result that has a record.  A result has the three sections of
    a trend file or the one section of a file of harmonics, so the score
    is 0, 25, 50 or 75 and never reaches 100; it is at most 25 for a file
    of harmonics; the dictionary of an error scores 0. *)
Theorem validation_score_values (analysis_data : FileResult) :
  let score := _calculate_validation_score analysis_data in
  (score == inject_Z (Z.of_nat (data_completeness analysis_data)))%Q /\
  In (data_completeness analysis_data) [0; 25; 50; 75]%nat /\
  (forall e, analysis_data = ErrorResult e -> (score == 0)%Q) /\
  (forall ft fn n h b,
     analysis_data = FileAnalysis ft fn n (Armonicos h b) ->
     (score == if filled h then 25 else 0)%Q) /\
  (forall ft fn n v f t,
     analysis_data = FileAnalysis ft fn n (Tendencia v f t) ->
     (score == 0)%Q <-> v = [] /\ f = [] /\ t = []).
Proof.
  cbv zeta. split; [|split; [|split; [|split]]].
  - destruct analysis_data as [e|ft fn n [[|v0 v] [|f0 f] [|t0 t]|[|h0 h] b]];
      vm_compute; reflexivity.
  - destruct analysis_data as [e|ft fn n [[|v0 v] [|f0 f] [|t0 t]|[|h0 h] b]];
      simpl; tauto.
  - intros e ->. vm_compute. reflexivity.
  - intros ft fn n h b ->. destruct h; vm_compute; reflexivity.
  - intros ft fn n v f t ->.
    destruct v as [|v0 v], f as [|f0 f], t as [|t0 t]; split; intros H;
      try (vm_compute in H; discriminate);
      try (destruct H as (H1 & H2 & H3); discriminate).
    + auto.
    + vm_compute. reflexivity.
Qed.

(** X13.  [detect_file_type] answers "tendencia" or "armonicos_potencia" and
    nothing else: "armonicos_potencia" exactly for a name in which,
    letter case apart, "armonic" occurs and "tendencia" does not, whether
    or not "potencia" occurs; the analysis of the detected type is the
    one of harmonics in that case and the one of trends otherwise. *)
Theorem detect_file_type_cases (filename : string) :
  (detect_file_type filename = "armonicos_potencia" <->
   occurs "armonic" (lower filename) /\ ~ occurs "tendencia" (lower filename)) /\
  (detect_file_type filename = "tendencia" <->
   occurs "tendencia" (lower filename) \/ ~ occurs "armonic" (lower filename)) /\
  (forall df,
     analyze df (detect_file_type filename)
     = if contains "armonic" (lower filename)
          && negb (contains "tendencia" (lower filename))
       then _analyze_armonicos_complete df
       else _analyze_tendencia_complete df).
Proof.
  unfold detect_file_type. cbv zeta.
  rewrite <- !contains_false, <- !contains_spec.
  destruct (contains "tendencia" (lower filename)),
           (contains "armonic" (lower filename)),
           (contains "potencia" (lower filename)); cbn [andb negb];
    (split; [|split]); try reflexivity;
    intuition (discriminate || congruence).
Qed.

(* ================================================================== *)
(** ** The rows [_remove_duplicates] keeps *)

Lemma cell_eqb_refl (c : cell) : cell_eqb c c = true.
Proof.
  destruct c as [|s|q]; simpl; [reflexivity|apply String.eqb_refl|].
  apply Qeq_bool_iff. reflexivity.
Qed.

Lemma cell_eqb_trans (a b c : cell) :
  cell_eqb a b = true -> cell_eqb b c = true -> cell_eqb a c = true.
Proof.
  destruct a as [|s|p], b as [|t|q], c as [|u|r]; simpl; try discriminate; auto.
  - rewrite !String.eqb_eq. congruence.
  - rewrite !Qeq_bool_iff. intros H1 H2. now rewrite H1.
Qed.

Lemma row_eqb_refl (r : list cell) : row_eqb r r = true.
Proof.
  induction r as [|c t IH]; [reflexivity|]. simpl. now rewrite cell_eqb_refl.
Qed.

Lemma row_eqb_trans (r1 r2 r3 : list cell) :
  row_eqb r1 r2 = true -> row_eqb r2 r3 = true -> row_eqb r1 r3 = true.
Proof.
  revert r2 r3. induction r1 as [|a t1 IH]; intros [|b t2] [|c t3]; simpl;
    try discriminate; auto.
  rewrite !andb_true_iff. intros [H1 H2] [H3 H4]. split.
  - exact (cell_eqb_trans _ _ _ H1 H3).
  - exact (IH _ _ H2 H4).
Qed.

Lemma kept_cons (seen : list (list cell)) (r : list cell) (rs : list (list cell)) :
  kept seen (r :: rs)
  = if existsb (row_eqb r) seen then kept (r :: seen) rs else r :: kept (r :: seen) rs.
Proof.
  unfold kept. simpl. now destruct (existsb (row_eqb r) seen).
Qed.

(** Every row is equal to a row above the table or to a row that is
    kept. *)
Lemma kept_represents (seen rs : list (list cell)) (r : list cell) :
  In r rs ->
  exists r', (In r' seen \/ In r' (kept seen rs)) /\ row_eqb r r' = true.
Proof.
  revert seen. induction rs as [|x t IH]; intros seen Hin; [contradiction|].
  rewrite kept_cons. destruct Hin as [->|Hin].
  - destruct (existsb (row_eqb r) seen) eqn:E.
    + apply existsb_exists in E. destruct E as (y & Hy & Hr). eauto.
    + exists r. split; [right; now left|apply row_eqb_refl].
  - destruct (IH (x :: seen) Hin) as (r' & [[<-|Hs]|Hk] & Hr).
    + destruct (existsb (row_eqb x) seen) eqn:E.
      * apply existsb_exists in E. destruct E as (y & Hy & Hxy).
        exists y. split; [now left|exact (row_eqb_trans _ _ _ Hr Hxy)].
      * exists x. split; [right; now left|exact Hr].
    + exists r'. split; [now left|exact Hr].
    + exists r'. split; [|exact Hr]. right.
      destruct (existsb (row_eqb x) seen); [exact Hk|now right].
Qed.

(** X15.  [_remove_duplicates] on a table with one cell per row in every
    column: the columns stay, every row left is a row of the table, every
    row of the table is equal to a row left, no row left is a duplicate
    of a row above it, and removing the duplicates again changes
    nothing. *)
Theorem remove_duplicates_keeps_one_of_each (df : DataFrame) :
  aligned df ->
  let out := _remove_duplicates df in
  columns out = columns df /\
  (forall r, In r (rows out) -> In r (rows df)) /\
  (forall r, In r (rows df) -> exists r', In r' (rows out) /\ row_eqb r r' = true) /\
  existsb (fun b => b) (duplicated [] (rows out)) = false /\
  _remove_duplicates out = out.
Proof.
  intros Hal. cbv zeta. apply aligned_uniform in Hal.
  destruct (rows_remove_duplicates _ df Hal) as (Er & k & Hk).
  split; [apply columns_remove_duplicates|]. rewrite Er.
  split; [intros r; apply In_select|].
  split.
  - intros r Hr. destruct (kept_represents [] _ r Hr) as (r' & [[]|H] & E). eauto.
  - split.
    + pose proof (kept_not_duplicated [] [] (rows df) (incl_refl _)) as H.
      destruct (existsb (fun b => b) (duplicated [] (kept [] (rows df)))) eqn:E;
        [|reflexivity].
      apply existsb_exists in E. destruct E as (b & Hb & ->).
      rewrite forallb_forall in H. specialize (H false).
      assert (false = true); [|discriminate]. apply H.
      change false with (negb true). now apply in_map.
    + exact (remove_duplicates_fixed _ _ df Hal Hk).
Qed.

Lemma remove_duplicates_keeps_one_of_each_witness :
  aligned plain_example /\
  existsb (fun b => b) (duplicated [] (rows (_remove_duplicates plain_example))) = false /\
  _remove_duplicates (_remove_duplicates plain_example) = _remove_duplicates plain_example.
Proof.
  assert (H : aligned plain_example) by (intros s [<-|[<-|[]]]; reflexivity).
  split; [exact H|].
  exact (proj2 (proj2 (proj2 (remove_duplicates_keeps_one_of_each plain_example H)))).
Defined.

(* ================================================================== *)
(** ** The filling of gaps *)

Lemma Forall2_map_image {A : Type} (R : A -> A -> Prop) (f : A -> A) (l : list A) :
  (forall x, In x l -> R x (f x)) -> Forall2 R l (map f l).
Proof.
  induction l as [|x t IH]; intros H; simpl; constructor.
  - apply H. now left.
  - apply IH. intros y Hy. apply H. now right.
Qed.







Lemma rows_without_missing (df : DataFrame) :
  aligned df ->
  forall r, In r (rows (_handle_missing_values df "remove")) -> existsb isna r = false.
Proof.
  intros Hal r Hr. apply aligned_uniform in Hal.
  change (_handle_missing_values df "remove")
    with (select_rows (row_mask (fun r => negb (existsb isna r)) df) df) in Hr.
  destruct (rows_select_row_mask _ (fun r => negb (existsb isna r)) df Hal) as (E & _).
  rewrite E in Hr. apply filter_In in Hr. destruct Hr as [_ Hr].
  now apply negb_true_iff in Hr.
Qed.

(** X17.  Where the gaps are after the filling.  After a forward fill the
    missing cells of a column all come before its first value, after a
    backward fill they all come after its last value, after the linear
    interpolation the missing cells of a numeric column all come before
    its first number, and after the removal no row has a missing cell. *)
Theorem filling_leaves_gaps_at_the_ends (df : DataFrame) :
  (forall s, In s (_handle_missing_values df "forward_fill") ->
     nan_first (values s) = true) /\
  (forall s, In s (_handle_missing_values df "backward_fill") ->
     nan_last (values s) = true) /\
  (well_typed df ->
   forall s, In s (_handle_missing_values df "linear_interpolation") ->
     dtype s = numeric -> nan_first (values s) = true) /\
  (aligned df ->
   forall r, In r (rows (_handle_missing_values df "remove")) ->
     existsb isna r = false).
Proof.
  split; [|split; [|split]].
  - intros s Hs. change (_handle_missing_values df "forward_fill")
      with (map_values ffill df) in Hs.
    apply in_map_iff in Hs. destruct Hs as (s0 & <- & _). apply ffill_nan_first.
  - intros s Hs. change (_handle_missing_values df "backward_fill")
      with (map_values bfill df) in Hs.
    apply in_map_iff in Hs. destruct Hs as (s0 & <- & _). apply bfill_nan_last.
  - intros Hwt s Hs Hd.
    change (_handle_missing_values df "linear_interpolation")
      with (map (fun s => match dtype s with
                          | numeric => set_values s (interpolate (values s))
                          | _ => s
                          end) df) in Hs.
    apply in_map_iff in Hs. destruct Hs as (s0 & <- & Hin).
    unfold well_typed in Hwt. rewrite Forall_forall in Hwt.
    pose proof (Hwt s0 Hin) as Ht. unfold typed in Ht.
    destruct (dtype s0) eqn:E; simpl in Hd; rewrite ?E in Hd; try discriminate.
    simpl. apply interpolate_nan_first. now apply Ht.
  - apply rows_without_missing.
Qed.

Lemma next_valid_In (l : list cell) (k : nat) (b : Q) :
  next_valid l = Some (k, b) -> In (Num b) l.
Proof.
  revert k. induction l as [|c t IH]; intros k H; [discriminate|].
  destruct c as [|s|q]; simpl in H; try discriminate.
  - destruct (next_valid t) as [[k' b']|]; [|discriminate].
    injection H as _ <-. right. exact (IH k' eq_refl).
  - injection H as _ <-. now left.
Qed.

Lemma Qnat_order (j k : nat) :
  (0 < Qnat (j + 1) /\ Qnat (j + 1) <= Qnat (j + k + 2))%Q.
Proof.
  unfold Qnat. split; [rewrite <- (Zlt_Qlt 0)|rewrite <- Zle_Qle]; lia.
Qed.

(** A value on the line between two numbers lies between them. *)
Lemma between_the_neighbours (lo hi a b n d : Q) :
  (lo <= a <= hi)%Q -> (lo <= b <= hi)%Q -> (0 < n)%Q -> (n <= d)%Q ->
  (lo <= a + (b - a) * n / d <= hi)%Q.
Proof.
  intros [Ha1 Ha2] [Hb1 Hb2] Hn Hd.
  assert (Hd0 : (0 < d)%Q) by lra.
  assert (H1 : (lo - a <= (b - a) * n / d)%Q).
  { apply Qle_shift_div_l; [exact Hd0|].
    assert ((lo - a) * d <= (lo - a) * n)%Q by nra.
    assert ((lo - a) * n <= (b - a) * n)%Q by nra. lra. }
  assert (H2 : ((b - a) * n / d <= hi - a)%Q).
  { apply Qle_shift_div_r; [exact Hd0|].
    assert ((b - a) * n <= (hi - a) * n)%Q by nra.
    assert ((hi - a) * n <= (hi - a) * d)%Q by nra. lra. }
  lra.
Qed.

Lemma within_cons (lo hi : Q) (c : cell) (l : list cell) :
  within lo hi (c :: l) ->
  within lo hi l /\ (forall q, c = Num q -> (lo <= q <= hi)%Q).
Proof.
  intros H. split.
  - intros q Hq. apply H. now right.
  - intros q ->. apply H. now left.
Qed.

Lemma interpolate_from_within (lo hi : Q) (anchor : option (Q * nat)) (l : list cell) :
  within lo hi l ->
  (forall a j, anchor = Some (a, j) -> (lo <= a <= hi)%Q) ->
  within lo hi (interpolate_from anchor l).
Proof.
  revert anchor. induction l as [|c t IH]; intros anchor Hl Ha; [intros q []|].
  destruct (within_cons _ _ _ _ Hl) as [Ht Hc].
  destruct c as [|s|q0]; simpl.
  - destruct anchor as [[a j]|].
    + pose proof (Ha a j eq_refl) as Hab.
      assert (Hrest : within lo hi (interpolate_from (Some (a, S j)) t)).
      { apply IH; [exact Ht|]. intros a' j' E. injection E as <- _. exact Hab. }
      destruct (next_valid t) as [[k b]|] eqn:En; intros q [E|Hq]; auto.
      * injection E as <-. destruct (Qnat_order j k) as [Hn Hd].
        apply between_the_neighbours; auto.
        apply Ht. exact (next_valid_In _ _ _ En).
      * injection E as <-. exact Hab.
    + intros q [E|Hq]; [discriminate|].
      apply (IH None); [exact Ht|discriminate|exact Hq].
  - intros q [E|Hq]; [discriminate|].
    apply (IH None); [exact Ht|discriminate|exact Hq].
  - intros q [E|Hq].
    + injection E as <-. now apply Hc.
    + apply (IH (Some (q0, O))); [exact Ht| |exact Hq].
      intros a j E. injection E as <- _. now apply Hc.
Qed.

Lemma ffill_from_In (prev : cell) (l : list cell) (c : cell) :
  In c (ffill_from prev l) -> c = prev \/ In c l.
Proof.
  revert prev. induction l as [|x t IH]; intros prev; [intros []|].
  simpl. destruct (isna x); intros [<-|H]; auto;
    destruct (IH _ H) as [->|Hin]; auto.
Qed.

Lemma bfill_In (l : list cell) (c : cell) : In c (bfill l) -> In c l.
Proof.
  induction l as [|x t IH]; [intros []|]. rewrite bfill_cons.
  destruct x as [|s|q]; try (intros [<-|H]; [now left|right; now apply IH]).
  destruct (bfill t) as [|y r] eqn:E.
  - intros [<-|[]]. now left.
  - intros [<-|H]; right; apply IH; [now left|exact H].
Qed.

(** X18.  No way of filling gaps takes a column out of its range: bounds that
    hold for the numbers of a column hold for the numbers of the column
    that comes from it, the interpolated ones included. *)
Theorem filling_stays_within_range (df : DataFrame) (method : string) :
  Forall2 (fun s s' => forall lo hi,
             within lo hi (values s) -> within lo hi (values s'))
          df (_handle_missing_values df method).
Proof.
  unfold _handle_missing_values, map_values, select_rows.
  destruct (String.eqb method "linear_interpolation").
  - apply Forall2_map_image. intros s _ lo hi H.
    destruct (dtype s); simpl; auto.
    apply interpolate_from_within; [exact H|discriminate].
  - destruct (String.eqb method "forward_fill").
    + apply Forall2_map_image. intros s _ lo hi H q Hq. simpl in Hq.
      apply ffill_from_In in Hq. destruct Hq as [Hq|Hq]; [discriminate|auto].
    + destruct (String.eqb method "backward_fill").
      * apply Forall2_map_image. intros s _ lo hi H q Hq. simpl in Hq.
        apply bfill_In in Hq. auto.
      * destruct (String.eqb method "remove").
        -- apply Forall2_map_image. intros s _ lo hi H q Hq. simpl in Hq.
           apply In_select in Hq. auto.
        -- rewrite <- (map_id df) at 2. apply Forall2_map_image. auto.
Qed.

(* ================================================================== *)
(** ** The labels after the loops of the cleaning *)

Lemma clean_numeric_loop_columns (file_type : string) (cols : list string)
  (df out : DataFrame) :
  clean_numeric_loop file_type cols df = Ok out -> columns out = columns df.
Proof.
  revert df. induction cols as [|col rest IH]; intros df H.
  - injection H as <-. reflexivity.
  - cbn [clean_numeric_loop] in H. destruct (_is_numeric_column col file_type).
    + destruct (getitem df col) as [|series [|]]; try discriminate.
      rewrite (IH _ H). apply columns_setitem.
    + exact (IH _ H).
Qed.

Lemma for_numeric_columns_columns (body : DataFrame -> Series -> DataFrame)
  (cols : list string) (df out : DataFrame) :
  (forall d s, columns (body d s) = columns d) ->
  for_numeric_columns body cols df = Ok out -> columns out = columns df.
Proof.
  intros Hbody. revert df. induction cols as [|col rest IH]; intros df H.
  - injection H as <-. reflexivity.
  - cbn [for_numeric_columns] in H.
    destruct (getitem df col) as [|s [|]]; try discriminate; [exact (IH _ H)|].
    destruct (has_numeric_dtype s); [|exact (IH _ H)].
    rewrite (IH _ H). apply Hbody.
Qed.

Lemma columns_wrapped (df : DataFrame) (s : Series) :
  columns (wrapped df s) = columns df.
Proof. apply columns_setitem. Qed.

Lemma bind_ok {A B : Type} (r : result A) (k : A -> result B) (b : B) :
  bind r k = Ok b -> exists a, r = Ok a /\ k a = Ok b.
Proof. destruct r as [a|e]; [eauto|discriminate]. Qed.

Section LabelsOfRules.

Variable parse_datetime : string -> option Z.

Lemma file_specific_cleaning_columns (df out : DataFrame) (file_type : string) :
  _apply_file_specific_cleaning parse_datetime df file_type = Ok out ->
  columns out = columns df.
Proof.
  unfold _apply_file_specific_cleaning.
  destruct (String.eqb file_type "tendencia").
  { unfold _clean_tendencia_data. intros H.
    apply for_numeric_columns_columns in H; [|apply columns_keep_nonnegative].
    now rewrite H, columns_sort_by_timestamp. }
  destruct (String.eqb file_type "armonicos_potencia").
  { unfold _clean_armonicos_potencia_data. intros H.
    apply bind_ok in H. destruct H as (d1 & H1 & H2).
    apply for_numeric_columns_columns in H1; [|apply columns_positive_rounded].
    apply for_numeric_columns_columns in H2; [|apply columns_wrapped].
    congruence. }
  destruct (String.eqb file_type "armonicos_voltaje").
  { unfold _clean_armonicos_voltaje_data. intros H.
    apply bind_ok in H. destruct H as (d1 & H1 & H).
    apply bind_ok in H. destruct H as (d2 & H2 & H3).
    apply for_numeric_columns_columns in H1; [|apply columns_positive_rounded].
    apply for_numeric_columns_columns in H2; [|apply columns_keep_nonnegative].
    apply for_numeric_columns_columns in H3; [|apply columns_wrapped].
    congruence. }
  intros H. injection H as <-. reflexivity.
Qed.

End LabelsOfRules.

(* ================================================================== *)
(** ** The size of a table after the steps of the cleaning *)

Lemma select_length_firstn {A : Type} (mask : list bool) (l : list A) :
  List.length (select mask l) = count_true (firstn (List.length l) mask).
Proof.
  revert l. induction mask as [|b m IH]; intros l.
  - simpl. now rewrite firstn_nil.
  - destruct l as [|x t]; [reflexivity|]. unfold count_true in *. simpl.
    destruct b; simpl; now rewrite IH.
Qed.

Lemma count_true_le (mask : list bool) : (count_true mask <= List.length mask)%nat.
Proof. unfold count_true. apply filter_length_le. Qed.

(** A selection of rows leaves one cell per row in every column and adds
    no row. *)
Lemma select_rows_shrinks (n : nat) (mask : list bool) (df : DataFrame) :
  uniform n df -> exists k, (k <= n)%nat /\ uniform k (select_rows mask df).
Proof.
  intros H. exists (count_true (firstn n mask)). split.
  - pose proof (count_true_le (firstn n mask)) as H1.
    pose proof (firstn_le_length n mask). lia.
  - unfold uniform, select_rows. apply Forall_map.
    eapply Forall_impl; [|exact H]. intros s Hs. simpl.
    now rewrite select_length_firstn, Hs.
Qed.

Lemma setitem_uniform (n : nat) (df : DataFrame) (col : string) (new : Series) :
  uniform n df -> List.length (values new) = n -> uniform n (setitem df col new).
Proof.
  intros H Hn. unfold uniform, setitem. apply Forall_map.
  eapply Forall_impl; [|exact H]. intros s Hs.
  now destruct (String.eqb (name s) col).
Qed.

Lemma getitem_uniform (n : nat) (df : DataFrame) (col : string) (s : Series) :
  uniform n df -> getitem df col = [s] -> List.length (values s) = n.
Proof.
  intros H Hg. unfold uniform in H. rewrite Forall_forall in H. apply H.
  apply (getitem_In df col s). rewrite Hg. now left.
Qed.

Lemma clean_numeric_loop_uniform (n : nat) (file_type : string) (cols : list string)
  (df out : DataFrame) :
  clean_numeric_loop file_type cols df = Ok out -> uniform n df -> uniform n out.
Proof.
  revert df. induction cols as [|col rest IH]; intros df H Hu.
  - injection H as <-. exact Hu.
  - cbn [clean_numeric_loop] in H. destruct (_is_numeric_column col file_type).
    + destruct (getitem df col) as [|series [|]] eqn:Eg; try discriminate.
      apply (IH _ H). apply setitem_uniform; [exact Hu|].
      simpl. rewrite length_map. exact (getitem_uniform _ _ _ _ Hu Eg).
    + exact (IH _ H Hu).
Qed.

Lemma for_numeric_columns_shrinks (body : DataFrame -> Series -> DataFrame)
  (cols : list string) (df out : DataFrame) (n : nat) :
  (forall d s m, In s d -> uniform m d ->
                 exists k, (k <= m)%nat /\ uniform k (body d s)) ->
  for_numeric_columns body cols df = Ok out -> uniform n df ->
  exists k, (k <= n)%nat /\ uniform k out.
Proof.
  intros Hbody. revert df n. induction cols as [|col rest IH]; intros df n H Hu.
  - injection H as <-. eauto.
  - cbn [for_numeric_columns] in H.
    destruct (getitem df col) as [|s [|]] eqn:Eg; try discriminate; [eauto|].
    destruct (has_numeric_dtype s); [|eauto].
    assert (Hs : In s df) by (apply (getitem_In df col s); rewrite Eg; now left).
    destruct (Hbody df s n Hs Hu) as (m & Hm & Hum).
    destruct (IH _ m H Hum) as (k & Hk & Huk). exists k. split; [lia|exact Huk].
Qed.

Lemma keep_nonnegative_shrinks (d : DataFrame) (s : Series) (m : nat) :
  In s d -> uniform m d -> exists k, (k <= m)%nat /\ uniform k (keep_nonnegative d s).
Proof. intros _. apply select_rows_shrinks. Qed.

Lemma positive_rounded_shrinks (d : DataFrame) (s : Series) (m : nat) :
  In s d -> uniform m d -> exists k, (k <= m)%nat /\ uniform k (positive_rounded d s).
Proof.
  intros _ Hu. unfold positive_rounded.
  destruct (select_rows_shrinks m (compare_mask (fun q => Qltb 0 q) s) d Hu)
    as (k & Hk & Huk).
  exists k. split; [exact Hk|].
  destruct (getitem (select_rows _ d) (name s)) as [|s' [|]] eqn:Eg; try exact Huk.
  apply setitem_uniform; [exact Huk|]. simpl. rewrite length_map.
  exact (getitem_uniform _ _ _ _ Huk Eg).
Qed.

Lemma wrapped_shrinks (d : DataFrame) (s : Series) (m : nat) :
  In s d -> uniform m d -> exists k, (k <= m)%nat /\ uniform k (wrapped d s).
Proof.
  intros Hs Hu. exists m. split; [lia|]. unfold wrapped.
  apply setitem_uniform; [exact Hu|]. simpl. rewrite length_map.
  unfold uniform in Hu. rewrite Forall_forall in Hu. now apply Hu.
Qed.

Lemma insert_by_key_length {A : Type} (x : cell * A) (l : list (cell * A)) :
  List.length (insert_by_key x l) = S (List.length l).
Proof.
  induction l as [|y t IH]; [reflexivity|]. simpl.
  destruct (key_le (fst x) (fst y)); simpl; [reflexivity|now rewrite IH].
Qed.

Lemma sort_by_keys_length {A : Type} (keys : list cell) (l : list A) :
  List.length keys = List.length l ->
  List.length (sort_by_keys keys l) = List.length l.
Proof.
  intros H. unfold sort_by_keys. rewrite length_map.
  assert (Hc : List.length (combine keys l) = List.length l)
    by (rewrite length_combine; lia).
  rewrite <- Hc. clear Hc H.
  induction (combine keys l) as [|x t IH]; [reflexivity|].
  simpl. now rewrite insert_by_key_length, IH.
Qed.

Lemma handle_missing_values_shrinks (n : nat) (df : DataFrame) (method : string) :
  uniform n df ->
  exists k, (k <= n)%nat /\ uniform k (_handle_missing_values df method).
Proof.
  intros H. unfold _handle_missing_values.
  assert (Hmap : forall f, (forall l, List.length (f l) = List.length l) ->
                 uniform n (map_values f df)).
  { intros f Hf. unfold map_values. apply Forall_map.
    eapply Forall_impl; [|exact H]. intros s Hs. simpl. now rewrite Hf. }
  destruct (String.eqb method "linear_interpolation").
  { exists n. split; [lia|]. apply Forall_map. eapply Forall_impl; [|exact H].
    intros s Hs. destruct (dtype s); simpl; auto. unfold interpolate.
    now rewrite interpolate_from_length. }
  destruct (String.eqb method "forward_fill").
  { exists n. split; [lia|]. apply Hmap. intros l. apply ffill_from_length. }
  destruct (String.eqb method "backward_fill").
  { exists n. split; [lia|]. apply Hmap. apply bfill_length. }
  destruct (String.eqb method "remove"); [now apply select_rows_shrinks|].
  exists n. split; [lia|exact H].
Qed.

Lemma remove_empty_shrinks (n : nat) (df : DataFrame) :
  uniform n df ->
  exists k, (k <= n)%nat /\ uniform k (_remove_empty_rows_columns df).
Proof.
  intros H. unfold _remove_empty_rows_columns, remove_empty_rows.
  assert (H0 : uniform n (remove_empty_columns df))
    by (unfold remove_empty_columns; now do 2 apply uniform_filter).
  destruct (select_rows_shrinks n (row_mask (fun r => negb (all_nan r))
                                     (remove_empty_columns df)) _ H0)
    as (k1 & Hk1 & Hu1).
  destruct (select_rows_shrinks k1
              (row_mask (fun r => negb (all_blank r))
                 (select_rows (row_mask (fun r => negb (all_nan r))
                                 (remove_empty_columns df))
                              (remove_empty_columns df))) _ Hu1)
    as (k2 & Hk2 & Hu2).
  exists k2. split; [lia|exact Hu2].
Qed.

Lemma uniform_len_le (k : nat) (df : DataFrame) : uniform k df -> (len df <= k)%nat.
Proof.
  intros H. destruct df as [|s t]; simpl; [lia|]. inversion H; subst. lia.
Qed.

Section SizeOfRules.

Variable parse_datetime : string -> option Z.

Lemma sort_by_timestamp_uniform (n : nat) (df : DataFrame) :
  uniform n df -> uniform n (sort_by_timestamp parse_datetime df).
Proof.
  intros H. unfold sort_by_timestamp.
  destruct (labelled ["time"; "date"] df) as [|ts l]; [exact H|].
  destruct (getitem df ts) as [|s [|]] eqn:Eg; try exact H.
  assert (H1 : uniform n (setitem df ts (to_datetime parse_datetime s))).
  { apply setitem_uniform; [exact H|]. simpl. rewrite length_map.
    exact (getitem_uniform _ _ _ _ H Eg). }
  unfold sort_values.
  destruct (getitem (setitem df ts _) ts) as [|s1 [|]] eqn:Eg1; try exact H1.
  pose proof (getitem_uniform _ _ _ _ H1 Eg1) as Hl.
  unfold map_values. apply Forall_map. eapply Forall_impl; [|exact H1].
  intros s0 Hs0. simpl. rewrite sort_by_keys_length; congruence.
Qed.

Lemma file_specific_cleaning_shrinks (n : nat) (df out : DataFrame)
  (file_type : string) :
  _apply_file_specific_cleaning parse_datetime df file_type = Ok out ->
  uniform n df -> exists k, (k <= n)%nat /\ uniform k out.
Proof.
  unfold _apply_file_specific_cleaning. intros H Hu.
  destruct (String.eqb file_type "tendencia").
  { unfold _clean_tendencia_data in H.
    exact (for_numeric_columns_shrinks _ _ _ _ n keep_nonnegative_shrinks H
             (sort_by_timestamp_uniform n df Hu)). }
  destruct (String.eqb file_type "armonicos_potencia").
  { unfold _clean_armonicos_potencia_data in H.
    apply bind_ok in H. destruct H as (d1 & H1 & H2).
    destruct (for_numeric_columns_shrinks _ _ _ _ n positive_rounded_shrinks H1 Hu)
      as (k1 & Hk1 & Hu1).
    destruct (for_numeric_columns_shrinks _ _ _ _ k1 wrapped_shrinks H2 Hu1)
      as (k2 & Hk2 & Hu2).
    exists k2. split; [lia|exact Hu2]. }
  destruct (String.eqb file_type "armonicos_voltaje").
  { unfold _clean_armonicos_voltaje_data in H.
    apply bind_ok in H. destruct H as (d1 & H1 & H).
    apply bind_ok in H. destruct H as (d2 & H2 & H3).
    destruct (for_numeric_columns_shrinks _ _ _ _ n positive_rounded_shrinks H1 Hu)
      as (k1 & Hk1 & Hu1).
    destruct (for_numeric_columns_shrinks _ _ _ _ k1 keep_nonnegative_shrinks H2 Hu1)
      as (k2 & Hk2 & Hu2).
    destruct (for_numeric_columns_shrinks _ _ _ _ k2 wrapped_shrinks H3 Hu2)
      as (k3 & Hk3 & Hu3).
    exists k3. split; [lia|exact Hu3]. }
  injection H as <-. exists n. split; [lia|exact Hu].
Qed.

(** X21.  The steps of the cleaning that follow the labels only take away:
    of a table with one cell per row in every column, the pruning, the
    coercion, the filling of the gaps, the removal of the duplicates and
    the rules of the file type, run one after the other, give a table
    with one cell per row in every column too, no more rows and no more
    columns than the table given. *)
Theorem cleaning_steps_only_remove (df d out : DataFrame) (file_type method : string) :
  aligned df ->
  _clean_numeric_columns (_remove_empty_rows_columns df) file_type = Ok d ->
  _apply_file_specific_cleaning parse_datetime
    (_remove_duplicates (_handle_missing_values d method)) file_type = Ok out ->
  aligned out /\ (len out <= len df)%nat /\
  (List.length (columns out) <= List.length (columns df))%nat.
Proof.
  intros Hal H1 H2.
  apply aligned_uniform in Hal.
  destruct (remove_empty_shrinks _ _ Hal) as (k1 & Hk1 & Hu1).
  pose proof (clean_numeric_loop_uniform _ _ _ _ _ H1 Hu1) as Hu2.
  destruct (handle_missing_values_shrinks _ _ method Hu2) as (k3 & Hk3 & Hu3).
  destruct (select_rows_shrinks k3
              (map negb (duplicated [] (rows (_handle_missing_values d method))))
              _ Hu3) as (k4 & Hk4 & Hu4).
  destruct (file_specific_cleaning_shrinks _ _ _ _ H2 Hu4) as (k5 & Hk5 & Hu5).
  split; [exact (uniform_aligned _ _ Hu5)|]. split.
  - pose proof (uniform_len_le _ _ Hu5). lia.
  - apply file_specific_cleaning_columns in H2.
    apply clean_numeric_loop_columns in H1.
    rewrite H2, columns_remove_duplicates, columns_handle_missing_values, H1.
    unfold _remove_empty_rows_columns, remove_empty_rows, remove_empty_columns, columns.
    rewrite !length_map. unfold select_rows. rewrite !length_map.
    repeat (etransitivity; [apply filter_length_le|]). reflexivity.
Qed.

End SizeOfRules.

Lemma cleaning_steps_only_remove_witness :
  let d := [ mkSeries "Time" numeric [Num 3; Num 1; Num 2];
             mkSeries "Voltage A (V)" numeric [Num 2305; NaN; Num (-1)] ] in
  let out := [ mkSeries "Time" datetime64 [Num 1; Num 3];
               mkSeries "Voltage A (V)" numeric [Num (2304 # 2); Num 2305] ] in
  aligned raw_trend_example /\
  _clean_numeric_columns (_remove_empty_rows_columns raw_trend_example) "tendencia"
  = Ok d /\
  _apply_file_specific_cleaning (fun _ => None)
    (_remove_duplicates (_handle_missing_values d "linear_interpolation"))
    "tendencia" = Ok out /\
  aligned out /\ (len out <= len raw_trend_example)%nat /\
  (List.length (columns out) <= List.length (columns raw_trend_example))%nat.
Proof.
  cbv zeta.
  assert (Hal : aligned raw_trend_example)
    by (intros s [<-|[<-|[<-|[]]]]; reflexivity).
  split; [exact Hal|].
  split; [vm_compute; reflexivity|]. split; [vm_compute; reflexivity|].
  apply (cleaning_steps_only_remove (fun _ => None) raw_trend_example
           [ mkSeries "Time" numeric [Num 3; Num 1; Num 2];
             mkSeries "Voltage A (V)" numeric [Num 2305; NaN; Num (-1)] ]
           [ mkSeries "Time" datetime64 [Num 1; Num 3];
             mkSeries "Voltage A (V)" numeric [Num (2304 # 2); Num 2305] ]
           "tendencia" "linear_interpolation" Hal); vm_compute; reflexivity.
Defined.

(* ================================================================== *)
(** ** What the rules of the file types leave in a column *)

Lemma for_numeric_columns_preserves (P : DataFrame -> Prop)
  (body : DataFrame -> Series -> DataFrame) (cols : list string)
  (df out : DataFrame) :
  (forall col d s, In col cols -> getitem d col = [s] -> P d -> P (body d s)) ->
  for_numeric_columns body cols df = Ok out -> P df -> P out.
Proof.
  revert df. induction cols as [|col rest IH]; intros df Hbody H HP.
  - injection H as <-. exact HP.
  - assert (Hrest : forall c d s, In c rest -> getitem d c = [s] -> P d -> P (body d s))
      by (intros c d s Hc; apply Hbody; now right).
    cbn [for_numeric_columns] in H.
    destruct (getitem df col) as [|s [|]] eqn:Eg; try discriminate.
    + exact (IH _ Hrest H HP).
    + destruct (has_numeric_dtype s).
      * apply (IH _ Hrest H). apply (Hbody col); [now left|exact Eg|exact HP].
      * exact (IH _ Hrest H HP).
Qed.

(** A loop over numeric columns whose body establishes a property of the
    column it is run on, and keeps the property of the columns it has been
    run on, establishes the property of every numeric column it goes
    through. *)
Lemma for_numeric_columns_establishes (good : cell -> Prop)
  (body : DataFrame -> Series -> DataFrame) (cols : list string)
  (df out : DataFrame) :
  let P col d := forall s, In s d -> name s = col -> dtype s = numeric ->
                           forall c, In c (values s) -> good c in
  (forall col d s, In col cols -> getitem d col = [s] ->
                   has_numeric_dtype s = true -> P col (body d s)) ->
  (forall col col' d s, In col' cols -> getitem d col' = [s] ->
                        P col d -> P col (body d s)) ->
  for_numeric_columns body cols df = Ok out ->
  forall col, In col cols -> P col out.
Proof.
  intros P. revert df. induction cols as [|col0 rest IH]; intros df Hest Hpres H col Hc;
    [contradiction|].
  assert (Hest' : forall c d s, In c rest -> getitem d c = [s] ->
                                has_numeric_dtype s = true -> P c (body d s))
    by (intros c d s Hin; apply Hest; now right).
  assert (Hpres' : forall c c' d s, In c' rest -> getitem d c' = [s] ->
                                    P c d -> P c (body d s))
    by (intros c c' d s Hin; apply Hpres; now right).
  cbn [for_numeric_columns] in H.
  assert (Hkeep : forall d, for_numeric_columns body rest d = Ok out ->
                            P col d -> P col out).
  { intros d Hd. apply (for_numeric_columns_preserves (P col) body rest d out);
      [|exact Hd]. intros c d' s Hin. now apply Hpres'. }
  destruct Hc as [->|Hc].
  - destruct (getitem df col) as [|s [|]] eqn:Eg; try discriminate.
    + apply (Hkeep _ H). intros s Hs E.
      assert (Hin : In s (getitem df col)) by (apply getitem_In; auto).
      rewrite Eg in Hin. contradiction.
    + destruct (has_numeric_dtype s) eqn:Hn.
      * apply (Hkeep _ H). apply Hest; [now left|exact Eg|exact Hn].
      * apply (Hkeep _ H). intros s' Hs' E Hd.
        assert (Hin : In s' (getitem df col)) by (apply getitem_In; auto).
        rewrite Eg in Hin. destruct Hin as [<-|[]].
        unfold has_numeric_dtype in Hn. rewrite Hd in Hn. discriminate.
  - destruct (getitem df col0) as [|s [|]] eqn:Eg; try discriminate.
    + exact (IH _ Hest' Hpres' H col Hc).
    + destruct (has_numeric_dtype s); exact (IH _ Hest' Hpres' H col Hc).
Qed.

Lemma select_compare_mask (p : Q -> bool) (s : Series) (c : cell) :
  In c (select (compare_mask p s) (values s)) -> exists q, c = Num q /\ p q = true.
Proof.
  unfold compare_mask. induction (values s) as [|x t IH]; [intros []|].
  simpl. destruct x as [|txt|q]; try exact IH.
  destruct (p q) eqn:E; [|exact IH].
  intros [<-|H]; [eauto|now apply IH].
Qed.

Lemma In_select_rows (mask : list bool) (df : DataFrame) (s' : Series) :
  In s' (select_rows mask df) <->
  exists s, In s df /\ s' = set_values s (select mask (values s)).
Proof.
  unfold select_rows. rewrite in_map_iff. split; intros (s & H1 & H2); eauto.
Qed.

(** The cells of a column after a selection of rows are cells of the
    column. *)
Lemma select_rows_keeps (good : cell -> Prop) (col : string) (mask : list bool)
  (d : DataFrame) :
  (forall s, In s d -> name s = col -> dtype s = numeric ->
             forall c, In c (values s) -> good c) ->
  forall s, In s (select_rows mask d) -> name s = col -> dtype s = numeric ->
            forall c, In c (values s) -> good c.
Proof.
  intros H s' Hs' Hn Hd c Hc. apply In_select_rows in Hs'.
  destruct Hs' as (s & Hs & ->). simpl in *.
  exact (H s Hs Hn Hd c (In_select _ _ _ Hc)).
Qed.

Lemma keep_nonnegative_establishes (col : string) (d : DataFrame) (s : Series) :
  getitem d col = [s] ->
  forall s', In s' (keep_nonnegative d s) -> name s' = col -> dtype s' = numeric ->
             forall c, In c (values s') -> exists q, c = Num q /\ (0 <= q)%Q.
Proof.
  intros Hg s' Hs' Hn Hd c Hc. apply In_select_rows in Hs'.
  destruct Hs' as (s0 & Hs0 & ->). simpl in *.
  assert (Hin : In s0 (getitem d col)) by (apply getitem_In; auto).
  rewrite Hg in Hin. destruct Hin as [<-|[]].
  apply select_compare_mask in Hc. destruct Hc as (q & -> & Hq).
  exists q. split; [reflexivity|]. now apply Qle_bool_iff.
Qed.

Section FileTypeRules.

Variable parse_datetime : string -> option Z.

(** X22.  After [_clean_tendencia_data], a numeric column with "volt" in its
    label has a number that is not negative in every row: the rows in
    which such a column is negative or missing have been dropped. *)
Theorem trend_voltages_not_negative (df out : DataFrame) :
  _clean_tendencia_data parse_datetime df = Ok out ->
  forall s, In s out -> dtype s = numeric -> occurs "volt" (lower (name s)) ->
    forall c, In c (values s) -> exists q, c = Num q /\ (0 <= q)%Q.
Proof.
  intros H2' s Hs Hd Hocc.
  unfold _clean_tendencia_data in H2'.
  set (d0 := sort_by_timestamp parse_datetime _) in H2'.
  pose proof (for_numeric_columns_columns _ _ _ _ columns_keep_nonnegative H2') as Hcols.
  pose proof (for_numeric_columns_establishes
                (fun c => exists q, c = Num q /\ (0 <= q)%Q)
                keep_nonnegative (labelled ["voltage"; "volt"] d0) d0 out) as L.
  cbv zeta in L. apply (fun H1 H2 H3 => L H1 H2 H2' (name s) H3 s Hs eq_refl Hd).
  - intros col d' s' _ Hg _. now apply keep_nonnegative_establishes.
  - intros col col' d' s' _ _ HP. now apply select_rows_keeps.
  - apply labelled_spec. split; [rewrite <- Hcols; now apply in_map|].
    apply existsb_exists. exists "volt". split; [simpl; tauto|].
    now apply contains_spec.
Qed.

End FileTypeRules.

Lemma trend_voltages_not_negative_witness :
  let out := [ mkSeries "Time" datetime64 [Num (inject_Z 1); Num (inject_Z 3)];
               mkSeries "Voltage A" numeric [Num 231; Num 230] ] in
  _clean_tendencia_data (fun _ => None) measured_trend_example = Ok out /\
  forall s, In s out -> dtype s = numeric -> occurs "volt" (lower (name s)) ->
    forall c, In c (values s) -> exists q, c = Num q /\ (0 <= q)%Q.
Proof.
  cbv zeta. split; [reflexivity|].
  exact (trend_voltages_not_negative (fun _ => None) measured_trend_example _ eq_refl).
Defined.

Lemma getitem_select_rows (mask : list bool) (d : DataFrame) (col : string) :
  getitem (select_rows mask d) col = select_rows mask (getitem d col).
Proof.
  unfold getitem, select_rows. induction d as [|s t IH]; [reflexivity|].
  simpl. destruct (String.eqb (name s) col); simpl; now rewrite IH.
Qed.

Lemma In_setitem (d : DataFrame) (col : string) (new x : Series) :
  In x (setitem d col new) ->
  (name x <> col /\ In x d) \/
  (name x = col /\ dtype x = dtype new /\ values x = values new).
Proof.
  unfold setitem. rewrite in_map_iff. intros (s & E & Hs).
  destruct (String.eqb_spec (name s) col) as [Ec|Ec]; subst x; simpl; auto.
Qed.

Lemma round_half_even_nonnegative (q : Q) : (0 < q)%Q -> (0 <= round_half_even q)%Z.
Proof.
  intros H. change 0%Z with (round_half_even 0).
  apply round_half_even_monotone. lra.
Qed.

(** The cast to [int64] of a whole number that is not negative. *)
Lemma astype_int_nonnegative (z : Z) :
  (0 <= z)%Z -> (0 <= astype_int z < 2 ^ 63 \/ astype_int z = - 2 ^ 63)%Z.
Proof.
  intros H. unfold astype_int.
  destruct ((- 2 ^ 63 <=? z) && (z <? 2 ^ 63))%Z eqn:E; [|now right].
  apply andb_prop in E. destruct E as [_ E]. apply Z.ltb_lt in E. left. lia.
Qed.

Lemma positive_rounded_establishes (col : string) (d : DataFrame) (s : Series) :
  getitem d col = [s] ->
  forall s', In s' (positive_rounded d s) -> name s' = col -> dtype s' = numeric ->
             forall c, In c (values s') ->
                       exists z, c = Num (inject_Z z) /\
                                 (0 <= z < 2 ^ 63 \/ z = - 2 ^ 63)%Z.
Proof.
  intros Hg s' Hs' Hn Hd c Hc. pose proof (getitem_name _ _ _ Hg) as Hname.
  unfold positive_rounded in Hs'. rewrite getitem_select_rows, Hname, Hg in Hs'.
  cbn [select_rows map] in Hs'. apply In_setitem in Hs'.
  destruct Hs' as [[Hne _]|(_ & _ & Hv)]; [congruence|].
  rewrite Hv in Hc. cbn [values set_values] in Hc.
  apply in_map_iff in Hc. destruct Hc as (c0 & <- & Hc0).
  apply select_compare_mask in Hc0. destruct Hc0 as (q & -> & Hq).
  exists (astype_int (round_half_even q)). split; [reflexivity|].
  apply astype_int_nonnegative, round_half_even_nonnegative. now apply Qltb_spec.
Qed.

Lemma setitem_keeps (good : cell -> Prop) (col : string) (d : DataFrame)
  (other : string) (new : Series) :
  other <> col ->
  (forall s, In s d -> name s = col -> dtype s = numeric ->
             forall c, In c (values s) -> good c) ->
  forall s, In s (setitem d other new) -> name s = col -> dtype s = numeric ->
            forall c, In c (values s) -> good c.
Proof.
  intros Hne H s Hs Hn. apply In_setitem in Hs.
  destruct Hs as [[_ Hs]|(E & _)]; [now apply H|congruence].
Qed.

Lemma positive_rounded_keeps (col col' : string) (d : DataFrame) (s : Series) :
  getitem d col' = [s] ->
  (forall s0, In s0 d -> name s0 = col -> dtype s0 = numeric ->
              forall c, In c (values s0) ->
                        exists z, c = Num (inject_Z z) /\
                                  (0 <= z < 2 ^ 63 \/ z = - 2 ^ 63)%Z) ->
  forall s0, In s0 (positive_rounded d s) -> name s0 = col -> dtype s0 = numeric ->
             forall c, In c (values s0) ->
                       exists z, c = Num (inject_Z z) /\
                                 (0 <= z < 2 ^ 63 \/ z = - 2 ^ 63)%Z.
Proof.
  intros Hg HP. pose proof (getitem_name _ _ _ Hg) as Hname.
  destruct (String.eqb_spec col' col) as [->|Hne].
  - now apply positive_rounded_establishes.
  - unfold positive_rounded.
    destruct (getitem (select_rows _ d) (name s)) as [|s1 [|]];
      try now apply select_rows_keeps.
    apply setitem_keeps; [congruence|]. now apply select_rows_keeps.
Qed.

Lemma wrapped_keeps (good : cell -> Prop) (col col' : string) (d : DataFrame)
  (s : Series) :
  col' <> col -> getitem d col' = [s] ->
  (forall s0, In s0 d -> name s0 = col -> dtype s0 = numeric ->
              forall c, In c (values s0) -> good c) ->
  forall s0, In s0 (wrapped d s) -> name s0 = col -> dtype s0 = numeric ->
             forall c, In c (values s0) -> good c.
Proof.
  intros Hne Hg HP. pose proof (getitem_name _ _ _ Hg) as Hname.
  unfold wrapped. apply setitem_keeps; [congruence|exact HP].
Qed.

(** X23.  After the cleaning of a table of power or of voltage harmonics, every
    cell of a numeric column with "harmonic" in its label, and neither
    "phase" nor "angle", is a whole number of [int64]: the rows in which
    the column is not above zero have been dropped and the values rounded
    and cast.  The number is not negative, but for the least [int64],
    which is what the cast makes of a value of [2 ^ 63] or more; it can be
    0, the rounded form of a value of at most one half. *)
Theorem harmonic_orders_are_whole (df out : DataFrame) :
  _clean_armonicos_potencia_data df = Ok out \/
  _clean_armonicos_voltaje_data df = Ok out ->
  forall s, In s out -> dtype s = numeric ->
    occurs "harmonic" (lower (name s)) -> is_phase_label (name s) = false ->
    forall c, In c (values s) ->
      exists z, c = Num (inject_Z z) /\ (0 <= z < 2 ^ 63 \/ z = - 2 ^ 63)%Z.
Proof.
  intros H2 s Hs Hd Hocc Hphase.
  set (good := fun c => exists z, c = Num (inject_Z z) /\
                                  (0 <= z < 2 ^ 63 \/ z = - 2 ^ 63)%Z).
  set (P := fun d' : DataFrame =>
              forall s0, In s0 d' -> name s0 = name s -> dtype s0 = numeric ->
                         forall c, In c (values s0) -> good c).
  assert (Hfirst : forall d1,
             for_numeric_columns positive_rounded (labelled ["harmonic"] df) df = Ok d1 ->
             In (name s) (columns d1) -> P d1).
  { intros d1 H1 Hin.
    pose proof (for_numeric_columns_columns _ _ _ _ columns_positive_rounded H1) as Hc.
    pose proof (for_numeric_columns_establishes good positive_rounded
                  (labelled ["harmonic"] df) df d1) as L.
    cbv beta zeta in L. unfold P. intros s0 Hs0 Hn0 Hd0.
    apply (fun A B C => L A B H1 (name s) C s0 Hs0 Hn0 Hd0).
    - intros col d' s' _ Hg _. now apply positive_rounded_establishes.
    - intros col col' d' s' _ Hg HP. now apply (positive_rounded_keeps col col').
    - apply labelled_spec. split; [now rewrite <- Hc|].
      apply existsb_exists. exists "harmonic". split; [now left|].
      now apply contains_spec. }
  assert (Hwrap : forall d1,
             for_numeric_columns wrapped (labelled ["phase"; "angle"] d1) d1 = Ok out ->
             P d1 -> P out).
  { intros d1 H1.
    apply (for_numeric_columns_preserves P wrapped
             (labelled ["phase"; "angle"] d1) d1 out); [|exact H1].
    intros col d' s' Hc Hg HP. unfold P.
    apply (wrapped_keeps good (name s) col d' s'); [|exact Hg|exact HP].
    intros E. apply labelled_spec in Hc. destruct Hc as [_ Hc].
    unfold is_phase_label in Hphase. rewrite <- E in Hphase. congruence. }
  assert (Hlast : P out); [|exact (Hlast s Hs eq_refl Hd)].
  destruct H2 as [H2|H2].
  - unfold _clean_armonicos_potencia_data in H2.
    apply bind_ok in H2. destruct H2 as (d1 & H1 & H3).
    pose proof (for_numeric_columns_columns _ _ _ _ columns_wrapped H3) as Hc.
    apply (Hwrap d1 H3). apply Hfirst; [exact H1|].
    rewrite <- Hc. now apply in_map.
  - unfold _clean_armonicos_voltaje_data in H2.
    apply bind_ok in H2. destruct H2 as (d1 & H1 & H2).
    apply bind_ok in H2. destruct H2 as (d2 & H2 & H3).
    pose proof (for_numeric_columns_columns _ _ _ _ columns_wrapped H3) as Hc3.
    pose proof (for_numeric_columns_columns _ _ _ _ columns_keep_nonnegative H2) as Hc2.
    apply (Hwrap d2 H3).
    apply (for_numeric_columns_preserves P keep_nonnegative
             (labelled ["amplitude"; "magnitude"] d1) d1 d2); [|exact H2|].
    + intros col d' s' _ _ HP. unfold P, keep_nonnegative.
      now apply select_rows_keeps.
    + apply Hfirst; [exact H1|]. rewrite <- Hc2, <- Hc3. now apply in_map.
Qed.

Lemma harmonic_orders_are_whole_witness :
  let out := [ mkSeries "Harmonic" numeric
                 [Num (inject_Z 4); Num (inject_Z 0); Num (inject_Z (- 2 ^ 63))];
               mkSeries "Magnitude" numeric [Num 10; Num 20; Num 40] ] in
  _clean_armonicos_potencia_data harmonic_order_example = Ok out /\
  forall s, In s out -> dtype s = numeric ->
    occurs "harmonic" (lower (name s)) -> is_phase_label (name s) = false ->
    forall c, In c (values s) ->
      exists z, c = Num (inject_Z z) /\ (0 <= z < 2 ^ 63 \/ z = - 2 ^ 63)%Z.
Proof.
  cbv zeta. split; [reflexivity|].
  exact (harmonic_orders_are_whole harmonic_order_example _ (or_introl eq_refl)).
Defined.

(* ================================================================== *)
(** ** The columns that count as numeric *)

Lemma clean_numeric_loop_establishes (file_type : string) (cols : list string)
  (df out : DataFrame) :
  clean_numeric_loop file_type cols df = Ok out ->
  (forall s, In s df -> ~ In (name s) cols ->
             _is_numeric_column (name s) file_type = true -> no_text s) ->
  designated_without_text file_type out.
Proof.
  revert df. induction cols as [|col rest IH]; intros df H Hdone.
  - injection H as <-. intros s Hs. apply Hdone; auto.
  - cbn [clean_numeric_loop] in H.
    destruct (_is_numeric_column col file_type) eqn:Hnum.
    + destruct (getitem df col) as [|series [|]] eqn:Eg; try discriminate.
      apply (IH _ H). intros s Hs Hrest Hd. apply In_setitem in Hs.
      destruct Hs as [[Hne Hs]|(_ & Hdt & Hv)].
      * apply Hdone; auto. intros [E|Hin]; [congruence|contradiction].
      * split; [rewrite Hdt; discriminate|]. rewrite Hv. apply convert_not_text.
    + apply (IH _ H). intros s Hs Hrest Hd. apply Hdone; auto.
      intros [E|Hin]; [congruence|contradiction].
Qed.

Lemma clean_numeric_columns_designated (df out : DataFrame) (file_type : string) :
  _clean_numeric_columns df file_type = Ok out ->
  designated_without_text file_type out.
Proof.
  intros H. apply (clean_numeric_loop_establishes _ _ _ _ H).
  intros s Hs Hn. exfalso. apply Hn. now apply in_map.
Qed.

Lemma no_text_select (s : Series) (mask : list bool) :
  no_text s -> no_text (set_values s (select mask (values s))).
Proof.
  intros [Hd Ht]. split; [exact Hd|]. simpl. now apply forallb_select.
Qed.

Lemma designated_select_rows (file_type : string) (mask : list bool) (df : DataFrame) :
  designated_without_text file_type df ->
  designated_without_text file_type (select_rows mask df).
Proof.
  intros H s' Hs' Hd. apply In_select_rows in Hs'. destruct Hs' as (s & Hs & ->).
  apply no_text_select. now apply H.
Qed.

Lemma designated_handle_missing_values (file_type method : string) (df : DataFrame) :
  designated_without_text file_type df ->
  designated_without_text file_type (_handle_missing_values df method).
Proof.
  intros H. unfold _handle_missing_values.
  destruct (String.eqb method "linear_interpolation").
  { intros s' Hs' Hd. apply in_map_iff in Hs'. destruct Hs' as (s & <- & Hs).
    assert (Hn : _is_numeric_column (name s) file_type = true)
      by (destruct (dtype s); exact Hd).
    destruct (H s Hs Hn) as [Hdt Ht].
    destruct (dtype s) eqn:E; try (split; [congruence|exact Ht]).
    split; [simpl; rewrite E; discriminate|]. simpl.
    now apply interpolate_not_text. }
  destruct (String.eqb method "forward_fill").
  { intros s' Hs' Hd. apply in_map_iff in Hs'. destruct Hs' as (s & <- & Hs).
    destruct (H s Hs Hd) as [Hdt Ht]. split; [exact Hdt|]. simpl.
    now apply ffill_from_not_text. }
  destruct (String.eqb method "backward_fill").
  { intros s' Hs' Hd. apply in_map_iff in Hs'. destruct Hs' as (s & <- & Hs).
    destruct (H s Hs Hd) as [Hdt Ht]. split; [exact Hdt|]. simpl.
    now apply bfill_not_text. }
  destruct (String.eqb method "remove"); [|exact H].
  now apply designated_select_rows.
Qed.

Lemma designated_setitem (file_type : string) (df : DataFrame) (col : string)
  (new : Series) :
  designated_without_text file_type df -> no_text new ->
  designated_without_text file_type (setitem df col new).
Proof.
  intros H Hnew s Hs Hd. apply In_setitem in Hs.
  destruct Hs as [[_ Hs]|(_ & Hdt & Hv)]; [now apply H|].
  destruct Hnew as [Hn Ht]. split; [now rewrite Hdt|now rewrite Hv].
Qed.

Lemma getitem_designated (file_type : string) (df : DataFrame) (col : string)
  (s : Series) :
  designated_without_text file_type df -> getitem df col = [s] ->
  _is_numeric_column col file_type = true -> no_text s.
Proof.
  intros H Hg Hd. pose proof (getitem_name _ _ _ Hg) as Hn.
  apply H; [|now rewrite Hn]. apply (getitem_In df col s). rewrite Hg. now left.
Qed.

Lemma keep_nonnegative_designated (file_type : string) (df : DataFrame) (s : Series) :
  designated_without_text file_type df ->
  designated_without_text file_type (keep_nonnegative df s).
Proof. apply designated_select_rows. Qed.

Lemma map_numbers_not_text (f : Q -> Q) (l : list cell) :
  forallb not_text l = true ->
  forallb not_text (map (fun c => match c with Num q => Num (f q) | _ => c end) l)
  = true.
Proof.
  rewrite !forallb_forall. intros H c Hc. apply in_map_iff in Hc.
  destruct Hc as (c0 & <- & Hc0). specialize (H c0 Hc0). now destruct c0.
Qed.

Lemma positive_rounded_designated (file_type : string) (df : DataFrame) (s : Series) :
  designated_without_text file_type df ->
  designated_without_text file_type (positive_rounded df s).
Proof.
  intros H. unfold positive_rounded.
  set (d1 := select_rows _ df).
  assert (H1 : designated_without_text file_type d1)
    by now apply designated_select_rows.
  destruct (getitem d1 (name s)) as [|s' [|]] eqn:Eg; try exact H1.
  intros x Hx Hd. apply In_setitem in Hx.
  destruct Hx as [[_ Hx]|(Hn & Hdt & Hv)]; [now apply H1|].
  rewrite <- Hn in Eg.
  destruct (getitem_designated _ _ _ _ H1 Eg Hd) as [Hd' Ht'].
  split; [now rewrite Hdt|]. rewrite Hv. simpl.
  exact (map_numbers_not_text (fun q => inject_Z (astype_int (round_half_even q)))
           _ Ht').
Qed.

Lemma wrapped_designated (file_type : string) (df : DataFrame) (col : string)
  (s : Series) :
  getitem df col = [s] ->
  designated_without_text file_type df ->
  designated_without_text file_type (wrapped df s).
Proof.
  intros Hg H x Hx Hd. unfold wrapped in Hx. apply In_setitem in Hx.
  destruct Hx as [[_ Hx]|(Hn & Hdt & Hv)]; [now apply H|].
  pose proof (getitem_name _ _ _ Hg) as Hname.
  assert (Hs : no_text s).
  { apply (getitem_designated _ _ _ _ H Hg). now rewrite <- Hname, <- Hn. }
  destruct Hs as [Hd' Ht']. split; [now rewrite Hdt|]. rewrite Hv. simpl.
  exact (map_numbers_not_text wrap_phase _ Ht').
Qed.

Lemma insert_by_key_In {A : Type} (x y : cell * A) (l : list (cell * A)) :
  In y (insert_by_key x l) -> y = x \/ In y l.
Proof.
  induction l as [|z t IH]; simpl; [intuition|].
  destruct (key_le (fst x) (fst z)); simpl; intuition.
Qed.

Lemma sort_by_keys_In {A : Type} (keys : list cell) (l : list A) (x : A) :
  In x (sort_by_keys keys l) -> In x l.
Proof.
  unfold sort_by_keys. intros H. apply in_map_iff in H.
  destruct H as ([k y] & <- & Hy). simpl.
  assert (Hc : In (k, y) (combine keys l)).
  { induction (combine keys l) as [|z t IH]; [contradiction|].
    simpl in Hy. apply insert_by_key_In in Hy.
    destruct Hy as [->|Hy]; [now left|right; now apply IH]. }
  exact (in_combine_r _ _ _ _ Hc).
Qed.

Section DesignatedColumns.

Variable parse_datetime : string -> option Z.

Lemma to_datetime_no_text (s : Series) : no_text (to_datetime parse_datetime s).
Proof.
  split; [discriminate|]. simpl. apply forallb_forall. intros c Hc.
  apply in_map_iff in Hc. destruct Hc as (c0 & <- & _).
  destruct c0 as [|t|q]; simpl.
  - reflexivity.
  - now destruct (parse_datetime t).
  - destruct (dtype s); try reflexivity; now destruct (nanoseconds q).
Qed.

Lemma sort_by_timestamp_designated (file_type : string) (df : DataFrame) :
  designated_without_text file_type df ->
  designated_without_text file_type (sort_by_timestamp parse_datetime df).
Proof.
  intros H. unfold sort_by_timestamp.
  destruct (labelled ["time"; "date"] df) as [|ts l]; [exact H|].
  destruct (getitem df ts) as [|s [|]]; try exact H.
  assert (H1 : designated_without_text file_type
                 (setitem df ts (to_datetime parse_datetime s)))
    by (apply designated_setitem; [exact H|apply to_datetime_no_text]).
  unfold sort_values.
  destruct (getitem (setitem df ts _) ts) as [|s1 [|]]; try exact H1.
  intros x Hx Hd. unfold map_values in Hx. apply in_map_iff in Hx.
  destruct Hx as (x0 & <- & Hx0). destruct (H1 x0 Hx0 Hd) as [Hdt Ht].
  split; [exact Hdt|]. simpl. rewrite forallb_forall in *.
  intros c Hc. apply Ht. exact (sort_by_keys_In _ _ _ Hc).
Qed.

Lemma file_specific_cleaning_designated (file_type : string) (df out : DataFrame) :
  _apply_file_specific_cleaning parse_datetime df file_type = Ok out ->
  designated_without_text file_type df -> designated_without_text file_type out.
Proof.
  unfold _apply_file_specific_cleaning. intros H Hd.
  assert (Hkeep : forall cols d d',
             for_numeric_columns keep_nonnegative cols d = Ok d' ->
             designated_without_text file_type d ->
             designated_without_text file_type d').
  { intros cols d d' Hl.
    apply (for_numeric_columns_preserves _ keep_nonnegative cols d d'); [|exact Hl].
    intros col d0 s _ _. apply keep_nonnegative_designated. }
  assert (Hround : forall cols d d',
             for_numeric_columns positive_rounded cols d = Ok d' ->
             designated_without_text file_type d ->
             designated_without_text file_type d').
  { intros cols d d' Hl.
    apply (for_numeric_columns_preserves _ positive_rounded cols d d'); [|exact Hl].
    intros col d0 s _ _. apply positive_rounded_designated. }
  assert (Hwrap : forall cols d d',
             for_numeric_columns wrapped cols d = Ok d' ->
             designated_without_text file_type d ->
             designated_without_text file_type d').
  { intros cols d d' Hl.
    apply (for_numeric_columns_preserves _ wrapped cols d d'); [|exact Hl].
    intros col d0 s _ Hg. now apply (wrapped_designated file_type d0 col). }
  destruct (String.eqb file_type "tendencia").
  { unfold _clean_tendencia_data in H.
    apply (Hkeep _ _ _ H). now apply sort_by_timestamp_designated. }
  destruct (String.eqb file_type "armonicos_potencia").
  { unfold _clean_armonicos_potencia_data in H.
    apply bind_ok in H. destruct H as (d1 & H1 & H2). eauto. }
  destruct (String.eqb file_type "armonicos_voltaje").
  { unfold _clean_armonicos_voltaje_data in H.
    apply bind_ok in H. destruct H as (d1 & H1 & H).
    apply bind_ok in H. destruct H as (d2 & H2 & H3). eauto. }
  injection H as <-. exact Hd.
Qed.

(** X24.  The columns that [_is_numeric_column] designates for the file type
    come out of [_clean_numeric_columns] without a text, and the filling of
    the gaps, the removal of the duplicates and the rules of the file type
    leave them so: such a column is not of dtype [object], and each of its
    cells is missing or a number. *)
Theorem designated_columns_hold_no_text (df d out : DataFrame)
  (file_type method : string) :
  _clean_numeric_columns df file_type = Ok d ->
  _apply_file_specific_cleaning parse_datetime
    (_remove_duplicates (_handle_missing_values d method)) file_type = Ok out ->
  forall s, In s d \/ In s out -> _is_numeric_column (name s) file_type = true ->
    dtype s <> object /\
    forall c, In c (values s) -> c = NaN \/ exists q, c = Num q.
Proof.
  intros H1 H2 s Hs Hd.
  apply clean_numeric_columns_designated in H1.
  assert (Hout : designated_without_text file_type out).
  { apply (file_specific_cleaning_designated _ _ _ H2).
    apply designated_select_rows. now apply designated_handle_missing_values. }
  assert (Hn : no_text s) by (destruct Hs as [Hs|Hs]; [now apply H1|now apply Hout]).
  destruct Hn as [Hdt Ht]. split; [exact Hdt|].
  intros c Hc. rewrite forallb_forall in Ht. specialize (Ht c Hc).
  destruct c as [|t|q]; [now left|discriminate|right; eauto].
Qed.

End DesignatedColumns.

Lemma designated_columns_hold_no_text_witness :
  let d := [ mkSeries "Time" numeric [Num 3; Num 1; Num 2];
             mkSeries "Voltage A (V)" numeric [Num 2305; NaN; Num (-1)];
             mkSeries "Unnamed: 2" object [NaN; NaN; NaN] ] in
  let out := [ mkSeries "Time" datetime64 [Num 1; Num 3];
               mkSeries "Voltage A (V)" numeric [Num (2304 # 2); Num 2305];
               mkSeries "Unnamed: 2" object [NaN; NaN] ] in
  _clean_numeric_columns raw_trend_example "tendencia" = Ok d /\
  _apply_file_specific_cleaning (fun _ => None)
    (_remove_duplicates (_handle_missing_values d "linear_interpolation"))
    "tendencia" = Ok out /\
  forall s, In s d \/ In s out -> _is_numeric_column (name s) "tendencia" = true ->
    dtype s <> object /\
    forall c, In c (values s) -> c = NaN \/ exists q, c = Num q.
Proof.
  cbv zeta. split; [vm_compute; reflexivity|]. split; [vm_compute; reflexivity|].
  apply (designated_columns_hold_no_text (fun _ => None) raw_trend_example _ _
           "tendencia" "linear_interpolation"); vm_compute; reflexivity.
Defined.

(* ================================================================== *)
(** ** What the pruning keeps *)

Lemma select_keeps_cell (p : list cell -> bool) (vals : list cell)
  (rs : list (list cell)) (c : cell) :
  Forall2 (fun c r => In c r) vals rs -> In c vals ->
  (forall r, In c r -> p r = true) ->
  In c (select (map p rs) vals).
Proof.
  intros H Hin Hp. induction H as [|x r vals rs Hx H IH]; [contradiction|].
  simpl. destruct Hin as [->|Hin].
  - rewrite (Hp r Hx). now left.
  - destruct (p r); [right|]; now apply IH.
Qed.

Lemma cell_survives (p : list cell -> bool) (n : nat) (d : DataFrame) (s : Series)
  (c : cell) :
  uniform n d -> In s d -> In c (values s) ->
  (forall r, In c r -> p r = true) ->
  In c (select (row_mask p d) (values s)).
Proof.
  intros Hu Hs Hc Hp. unfold row_mask. rewrite (rows_uniform n); [|exact Hu|].
  - apply select_keeps_cell; auto. now apply cells_in_rows.
  - intros ->. contradiction.
Qed.

(** X26.  [_remove_empty_rows_columns] drops no value: of a table with one cell
    per row in every column, every cell that is neither missing nor a
    blank text is still in its column after the pruning, and the column
    has kept its label and its dtype. *)
Theorem pruning_keeps_values (df : DataFrame) :
  aligned df ->
  forall s c, In s df -> In c (values s) -> isna c = false -> blank c = false ->
    exists s', In s' (_remove_empty_rows_columns df) /\
               name s' = name s /\ dtype s' = dtype s /\ In c (values s').
Proof.
  intros Hal s c Hs Hc Hna Hbl. apply aligned_uniform in Hal.
  assert (Hnan : forall r, In c r -> negb (all_nan r) = true).
  { intros r Hr. apply negb_true_iff. unfold all_nan.
    destruct (forallb isna r) eqn:E; [|reflexivity].
    rewrite forallb_forall in E. rewrite (E c Hr) in Hna. discriminate. }
  assert (Hblank : forall r, In c r -> negb (all_blank r) = true).
  { intros r Hr. apply negb_true_iff. unfold all_blank.
    destruct (forallb blank r) eqn:E; [|reflexivity].
    rewrite forallb_forall in E. rewrite (E c Hr) in Hbl. discriminate. }
  unfold _remove_empty_rows_columns, remove_empty_rows.
  set (d1 := remove_empty_columns df).
  assert (Hs1 : In s d1).
  { unfold d1, remove_empty_columns. apply filter_In. split; [|now apply Hblank].
    apply filter_In. split; [exact Hs|now apply Hnan]. }
  assert (Hu1 : uniform (len df) d1)
    by (unfold d1, remove_empty_columns; now do 2 apply uniform_filter).
  set (m1 := row_mask (fun r => negb (all_nan r)) d1).
  set (d2 := select_rows m1 d1).
  set (s2 := set_values s (select m1 (values s))).
  assert (Hs2 : In s2 d2) by (apply In_select_rows; eauto).
  assert (Hc2 : In c (values s2)) by (simpl; now apply (cell_survives _ (len df))).
  destruct (select_rows_shrinks _ m1 d1 Hu1) as (k & _ & Hu2). fold d2 in Hu2.
  set (m2 := row_mask (fun r => negb (all_blank r)) d2).
  exists (set_values s2 (select m2 (values s2))).
  split; [apply In_select_rows; eauto|]. split; [reflexivity|]. split; [reflexivity|].
  cbn [values set_values]. now apply (cell_survives _ k).
Qed.

Lemma pruning_keeps_values_witness :
  aligned pruning_example_a /\
  exists s', In s' (_remove_empty_rows_columns pruning_example_a) /\
             name s' = "a" /\ dtype s' = object /\ In (Str "x") (values s').
Proof.
  assert (H : aligned pruning_example_a) by (intros s [<-|[<-|[]]]; reflexivity).
  split; [exact H|].
  exact (pruning_keeps_values pruning_example_a H
           (mkSeries "a" object [NaN; Str "x"]) (Str "x")
           (or_introl eq_refl) (or_intror (or_introl eq_refl)) eq_refl eq_refl).
Defined.

(* ================================================================== *)
(** ** The conversion of a text to a number *)

Lemma keep_app (f : ascii -> bool) (a b : string) :
  keep f (a ++ b) = keep f a ++ keep f b.
Proof.
  induction a as [|c t IH]; simpl; [reflexivity|].
  destruct (f c); simpl; now rewrite IH.
Qed.

Lemma append_empty (s : string) : s ++ "" = s.
Proof. induction s as [|c t IH]; simpl; [reflexivity|now rewrite IH]. Qed.

Lemma span_digits_all (s : string) :
  forall_chars is_digit s = true -> span_digits s = (s, "").
Proof.
  induction s as [|c t IH]; simpl; [reflexivity|].
  intros H. apply andb_prop in H. destruct H as [Hc Ht].
  now rewrite Hc, (IH Ht).
Qed.

Lemma sign_digit (c : ascii) (t : string) :
  is_digit c = true -> sign (String c t) = (false, String c t).
Proof. by_cases_on_ascii c. Qed.

Lemma digit_numeric_char (c : ascii) : is_digit c = true -> numeric_char c = true.
Proof. intros H. unfold numeric_char. now rewrite H. Qed.

Lemma int_of_digits_bound (t : string) (acc : N) :
  forall_chars is_digit t = true ->
  (int_of_digits acc t < (acc + 1) * 10 ^ N.of_nat (String.length t))%N.
Proof.
  revert acc. induction t as [|c t IH]; intros acc H.
  - simpl. lia.
  - simpl in H. apply andb_prop in H. destruct H as [Hc Ht].
    assert (Hv : (digit_value c <= 9)%N).
    { unfold digit_value, is_digit, between in *. apply andb_prop in Hc.
      destruct Hc as [_ Hc]. apply Nat.leb_le in Hc. lia. }
    cbn [int_of_digits String.length]. specialize (IH (10 * acc + digit_value c)%N Ht).
    replace (N.of_nat (S (String.length t))) with (N.succ (N.of_nat (String.length t)))
      by lia.
    rewrite N.pow_succ_r'. nia.
Qed.

(** X27.  The text of a cell is read by its digits, points, signs and letters
    e: an ASCII character of any other kind is dropped wherever it stands,
    so a comma between digits is not a decimal point; a text of at most
    fifteen digits reads as the number they write; an ASCII text without
    a character of these kinds gives a missing cell, and a missing cell
    stays missing. *)
Theorem conversion_reads_numeric_characters :
  (forall a c b, (code c < 128)%nat -> numeric_char c = false ->
                 convert_text (a ++ String c b) = convert_text (a ++ b)) /\
  (forall t, t <> "" -> forall_chars is_digit t = true ->
             (String.length t <= 15)%nat ->
             convert_text t = Num (inject_Z (Z.of_N (int t)))) /\
  (forall t, forall_chars (fun c => (code c <? 128)%nat && negb (numeric_char c)) t
             = true ->
             convert_text t = NaN) /\
  (forall d c, isna (convert_cell d c) = false -> isna c = false).
Proof.
  split; [|split; [|split]].
  - intros a c b _ Hc. unfold convert_text. cbv zeta.
    rewrite !keep_app. simpl. now rewrite Hc.
  - intros t Hne Hd Hlen. unfold convert_text. cbv zeta.
    assert (Hb : (Z.of_N (int t) < 10 ^ 15)%Z).
    { pose proof (int_of_digits_bound t 0 Hd) as Hb. fold (int t) in Hb.
      assert (Hp : (10 ^ N.of_nat (String.length t) <= 10 ^ 15)%N)
        by (apply N.pow_le_mono_r; lia).
      change (10 ^ 15)%Z with (Z.of_N (10 ^ 15)). lia. }
    rewrite (keep_fixed numeric_char t)
      by (revert Hd; apply forall_chars_impl, digit_numeric_char).
    destruct t as [|c t]; [contradiction|].
    change (String.eqb (String c t) "") with false. cbv iota.
    pose proof Hd as Hd'. simpl in Hd'. apply andb_prop in Hd'. destruct Hd' as [Hc _].
    unfold parse_float. rewrite (sign_digit c t Hc), (span_digits_all _ Hd).
    rewrite append_empty. change (String.eqb (String c t) "") with false.
    cbn [parse_exponent String.length Z.of_nat].
    change (0 - 0)%Z with 0%Z. unfold scale10.
    change (10 ^ 0)%Z with 1%Z. rewrite Z.mul_1_r.
    set (n := Z.of_N (int (String c t))) in *.
    assert (Hn : (0 <= n)%Z) by (unfold n; lia).
    replace (overflows (inject_Z n)) with false.
    + rewrite b64_whole; [reflexivity|]. change (2 ^ 53)%Z with 9007199254740992%Z.
      change (10 ^ 15)%Z with 1000000000000000%Z in Hb. lia.
    + symmetry. unfold overflows. destruct (Qle_bool _ _) eqn:E; [|reflexivity].
      apply Qle_bool_iff in E. rewrite Qabs_pos in E by (rewrite <- (Zle_Qle 0); exact Hn).
      rewrite <- Zle_Qle in E.
      assert (Hbig : (10 ^ 15 < 2 ^ 1024 - 2 ^ 970)%Z) by (vm_compute; reflexivity).
      lia.
  - intros t H. unfold convert_text. cbv zeta.
    replace (keep numeric_char t) with EmptyString; [reflexivity|].
    induction t as [|c t IH]; [reflexivity|]. simpl in *.
    apply andb_prop in H. destruct H as [Hc Ht]. apply andb_prop in Hc.
    destruct Hc as [_ Hc]. apply negb_true_iff in Hc.
    rewrite Hc. now apply IH.
  - intros d c H. destruct c; [|reflexivity..]. simpl in H. discriminate.
Qed.

(* ================================================================== *)
(** ** The order of the rows of a trend table *)

Lemma key_le_total (a b : cell) : key_le a b = false -> key_le b a = true.
Proof.
  destruct a as [|s|p], b as [|t|q]; simpl; try discriminate; try reflexivity.
  intros H. apply Qle_bool_iff.
  assert (~ (p <= q)%Q) by (rewrite <- Qle_bool_iff; congruence). lra.
Qed.

Lemma key_le_trans (a b c : cell) :
  key_le a b = true -> key_le b c = true -> key_le a c = true.
Proof.
  destruct a as [|s|p], b as [|t|q], c as [|u|r]; simpl;
    try discriminate; try reflexivity.
  rewrite !Qle_bool_iff. intros H1 H2. lra.
Qed.

Lemma insert_by_key_sorted {A : Type} (x : cell * A) (l : list (cell * A)) :
  StronglySorted (fun a b => key_le (fst a) (fst b) = true) l ->
  StronglySorted (fun a b => key_le (fst a) (fst b) = true) (insert_by_key x l).
Proof.
  induction 1 as [|y t Ht IH Hy]; simpl.
  - constructor; constructor.
  - destruct (key_le (fst x) (fst y)) eqn:E.
    + constructor; [now constructor|]. constructor; [exact E|].
      eapply Forall_impl; [|exact Hy]. intros z Hz.
      exact (key_le_trans _ _ _ E Hz).
    + constructor; [exact IH|]. apply Forall_forall. intros z Hz.
      apply insert_by_key_In in Hz. destruct Hz as [->|Hz].
      * now apply key_le_total.
      * rewrite Forall_forall in Hy. now apply Hy.
Qed.

(** A column sorted by its own cells is in ascending order, the missing
    cells last. *)
Lemma sort_by_keys_sorted (keys : list cell) :
  StronglySorted (fun a b => key_le a b = true) (sort_by_keys keys keys).
Proof.
  unfold sort_by_keys.
  assert (Hd : Forall (fun x : cell * cell => snd x = fst x)
                 (fold_right insert_by_key [] (combine keys keys))).
  { assert (Hc : Forall (fun x : cell * cell => snd x = fst x) (combine keys keys)).
    { induction keys as [|k t IH]; simpl; constructor; auto. }
    induction Hc as [|x t Hx Ht IH]; [constructor|]. simpl.
    apply Forall_forall. intros y Hy. apply insert_by_key_In in Hy.
    destruct Hy as [->|Hy]; [exact Hx|]. rewrite Forall_forall in IH. now apply IH. }
  assert (Hs : StronglySorted (fun a b : cell * cell => key_le (fst a) (fst b) = true)
                 (fold_right insert_by_key [] (combine keys keys))).
  { clear Hd. induction (combine keys keys) as [|x t IH]; [constructor|].
    simpl. now apply insert_by_key_sorted. }
  induction Hs as [|x t Ht IH Hx]; [constructor|].
  inversion Hd as [|x' t' Hdx Hdt]; subst. simpl. constructor; [now apply IH|].
  apply Forall_map. rewrite Forall_forall in *. intros y Hy.
  rewrite Hdx, (Hdt y Hy). now apply Hx.
Qed.

Lemma select_sorted {A : Type} (R : A -> A -> Prop) (mask : list bool) (l : list A) :
  StronglySorted R l -> StronglySorted R (select mask l).
Proof.
  intros H. revert mask. induction H as [|x t Ht IH Hx]; intros mask.
  - rewrite select_nil_r. constructor.
  - destruct mask as [|b m]; [constructor|]. simpl.
    destruct b; [|apply IH]. constructor; [apply IH|].
    rewrite Forall_forall in *. intros y Hy. apply Hx. exact (In_select _ _ _ Hy).
Qed.

Section OrderOfRows.

Variable parse_datetime : string -> option Z.

(** After [sort_by_timestamp] has sorted the table, the column it has
    sorted by is in ascending order. *)
Lemma sort_by_timestamp_sorted (df : DataFrame) (ts : string) (rest : list string)
  (s : Series) :
  labelled ["time"; "date"] df = ts :: rest -> getitem df ts = [s] ->
  forall s', In s' (sort_by_timestamp parse_datetime df) -> name s' = ts ->
    StronglySorted (fun a b => key_le a b = true) (values s').
Proof.
  intros El Eg s' Hs' Hn. unfold sort_by_timestamp in Hs'. rewrite El, Eg in Hs'.
  pose proof (getitem_name _ _ _ Eg) as Hname.
  set (d1 := setitem df ts (to_datetime parse_datetime s)) in Hs'.
  assert (Eg1 : getitem d1 ts
                = [mkSeries (name s) datetime64
                     (map (datetime_cell parse_datetime (dtype s)) (values s))]).
  { unfold d1, getitem, setitem. clear Hs' d1 El.
    unfold getitem in Eg. induction df as [|x t IH]; [discriminate|].
    simpl in *. destruct (String.eqb_spec (name x) ts) as [E|E].
    - simpl. rewrite E, String.eqb_refl. injection Eg as -> Et.
      f_equal; [now rewrite Hname|].
      clear IH. induction t as [|y t IH]; [reflexivity|]. simpl in *.
      destruct (String.eqb_spec (name y) ts) as [E'|E']; [discriminate|].
      simpl. apply String.eqb_neq in E'. rewrite E'. now apply IH.
    - simpl. apply String.eqb_neq in E. rewrite E. now apply IH. }
  unfold sort_values in Hs'. rewrite Eg1 in Hs'. cbn [values] in Hs'.
  unfold map_values in Hs'. apply in_map_iff in Hs'. destruct Hs' as (x & <- & Hx).
  simpl in Hn.
  assert (Hin : In x (getitem d1 ts)) by (apply getitem_In; auto).
  rewrite Eg1 in Hin. destruct Hin as [<-|[]]. simpl. apply sort_by_keys_sorted.
Qed.

(** X28.  The rows of a trend table are in the order of time after
    [_clean_tendencia_data]: when one column carries the first label with
    "time" or "date" in it, the cells of that column are in ascending
    order in the table returned, the missing ones last. *)
Theorem trend_rows_in_time_order (df out : DataFrame)
  (ts : string) (rest : list string) (s : Series) :
  _clean_tendencia_data parse_datetime df = Ok out ->
  labelled ["time"; "date"] out = ts :: rest -> getitem out ts = [s] ->
  StronglySorted (fun a b => key_le a b = true) (values s).
Proof.
  intros H2 El Eg.
  unfold _clean_tendencia_data in H2.
  pose proof (for_numeric_columns_columns _ _ _ _ columns_keep_nonnegative H2) as Hc.
  rewrite columns_sort_by_timestamp in Hc.
  assert (El0 : labelled ["time"; "date"] df = ts :: rest)
    by (unfold labelled in *; now rewrite <- Hc).
  assert (Eg0 : exists s0, getitem df ts = [s0]).
  { assert (Hl : List.length (getitem df ts) = List.length (getitem out ts)).
    { unfold getitem. rewrite <- !(length_map name).
      assert (Hm : forall l : DataFrame,
                 map name (filter (fun x => String.eqb (name x) ts) l)
                 = filter (fun c => String.eqb c ts) (map name l)).
      { induction l as [|x t IH]; [reflexivity|]. simpl.
        destruct (String.eqb (name x) ts); simpl; now rewrite IH. }
      rewrite !Hm. fold (columns df). fold (columns out). now rewrite Hc. }
    rewrite Eg in Hl. destruct (getitem df ts) as [|s0 [|]]; try discriminate. eauto. }
  destruct Eg0 as (s0 & Eg0).
  set (P := fun d' : DataFrame =>
              forall s', In s' d' -> name s' = ts ->
                         StronglySorted (fun a b => key_le a b = true) (values s')).
  assert (HP : P out).
  { apply (for_numeric_columns_preserves P keep_nonnegative
             (labelled ["voltage"; "volt"] (sort_by_timestamp parse_datetime df))
             (sort_by_timestamp parse_datetime df) out); [|exact H2|].
    - intros col d' x _ _ Hd' s' Hs' Hn. apply In_select_rows in Hs'.
      destruct Hs' as (s1 & Hs1 & ->). simpl. apply select_sorted.
      now apply Hd'.
    - exact (sort_by_timestamp_sorted df ts rest s0 El0 Eg0). }
  apply HP; [|exact (getitem_name _ _ _ Eg)].
  apply (getitem_In out ts s). rewrite Eg. now left.
Qed.

End OrderOfRows.

Lemma trend_rows_in_time_order_witness :
  let out := [ mkSeries "Time" datetime64 [Num (inject_Z 1); Num (inject_Z 3)];
               mkSeries "Voltage A" numeric [Num 231; Num 230] ] in
  _clean_tendencia_data (fun _ => None) measured_trend_example = Ok out /\
  StronglySorted (fun a b => key_le a b = true) [Num (inject_Z 1); Num (inject_Z 3)].
Proof.
  cbv zeta. split; [reflexivity|].
  exact (trend_rows_in_time_order (fun _ => None) measured_trend_example _
           "Time" [] (mkSeries "Time" datetime64 [Num (inject_Z 1); Num (inject_Z 3)])
           eq_refl eq_refl eq_refl).
Defined.
